(** * The rule engine of [code_analysis.py]

    A shallow embedding of [CodeAnalyzer] (src/code_analysis.py): the
    pattern catalogue, the line scanner [_pattern_analysis], the heuristic
    analyser [_simulated_ai_analysis], the scorer and the suggestion
    synthesiser [_generate_suggestions], sequenced by [analyze_code].

    Modelling choices.
    - A Python [str] is a [string]; a character is a code point below 256
      (Latin-1), classified the way CPython classifies it.
    - [re.search] is a backtracking matcher over a regex syntax tree; the
      catalogue's patterns are written out as syntax trees.
    - A dict that is only looked up is a [gmap]; a dict that is iterated is
      an association list (Python iterates in insertion order).
    - The seen-set of the deduplication loop is a [gset string].
    - The score is a rational: every value [10.0 - n * 0.5] is a multiple of
      one half and is exact in binary floating point.
    - The draw of [random.random()] is an explicit argument of
      [analyze_code]. *)

From Stdlib Require Import Ascii String QArith Qminmax DecimalString Lqa.
From stdpp Require Import base list strings gmap.

Local Open Scope string_scope.

(** ** Characters *)

Module Char.

Definition code (c : ascii) : nat := nat_of_ascii c.

Definition between (lo hi : nat) (c : ascii) : bool :=
  (lo <=? code c)%nat && (code c <=? hi)%nat.

Definition has_code (n : nat) (c : ascii) : bool := (code c =? n)%nat.

(** [str.isspace] on one character, which is also what [str.strip],
    [str.lstrip] and the pattern [\s] use: TAB, LF, VT, FF, CR, the
    separators FS, GS, RS, US, SPACE, NEL and NBSP. *)
Definition isspace (c : ascii) : bool :=
  between 9 13 c || between 28 31 c || has_code 32 c || has_code 133 c
  || has_code 160 c.

Definition isdigit (c : ascii) : bool := between 48 57 c.
Definition isupper (c : ascii) : bool := between 65 90 c.
Definition islower (c : ascii) : bool := between 97 122 c.

(** [str.isalnum] on one character: ASCII letters and digits and the
    Latin-1 letters and numerics. *)
Definition isalnum (c : ascii) : bool :=
  isdigit c || isupper c || islower c
  || has_code 170 c || has_code 178 c || has_code 179 c || has_code 181 c
  || has_code 185 c || has_code 186 c
  || between 188 190 c || between 192 214 c || between 216 246 c
  || between 248 255 c.

(** The pattern [\w]. *)
Definition isword (c : ascii) : bool := isalnum c || has_code 95 c.

Definition newline : ascii := "010"%char.

(** The pattern [.] (no DOTALL flag): anything but a line feed. *)
Definition notnewline (c : ascii) : bool := negb (has_code 10 c).

Definition upper (c : ascii) : ascii :=
  if islower c then ascii_of_nat (code c - 32) else c.
Definition lower (c : ascii) : ascii :=
  if isupper c then ascii_of_nat (code c + 32) else c.

End Char.

(** ** The [str] methods the analyser uses *)

Module Str.

(** [s.split('\n')]: never empty, one more line than there are line
    feeds. *)
Fixpoint split_nl (s : string) : list string :=
  match s with
  | EmptyString => [EmptyString]
  | String c s' =>
      if Char.has_code 10 c then EmptyString :: split_nl s'
      else match split_nl s' with
           | l :: ls => String c l :: ls
           | [] => [String c EmptyString]
           end
  end.

(** [s.lstrip()] *)
Fixpoint lstrip (s : string) : string :=
  match s with
  | EmptyString => EmptyString
  | String c s' => if Char.isspace c then lstrip s' else s
  end.

(** [s.rstrip()] *)
Fixpoint rstrip (s : string) : string :=
  match s with
  | EmptyString => EmptyString
  | String c s' =>
      match rstrip s' with
      | EmptyString => if Char.isspace c then EmptyString
                       else String c EmptyString
      | t => String c t
      end
  end.

(** [s.strip()] *)
Definition strip (s : string) : string := rstrip (lstrip s).

(** [bool(s)]: a string is truthy when it is not empty. *)
Definition truthy (s : string) : bool :=
  match s with EmptyString => false | String _ _ => true end.

(** [s.startswith(p)] *)
Fixpoint startswith (p s : string) : bool :=
  match p, s with
  | EmptyString, _ => true
  | String a p', String b s' =>
      if Ascii.eqb a b then startswith p' s' else false
  | String _ _, EmptyString => false
  end.

(** [p in s] *)
Fixpoint contains (p s : string) : bool :=
  if startswith p s then true
  else match s with
       | EmptyString => false
       | String _ s' => contains p s'
       end.

(** [s.replace('_', ' ')] *)
Fixpoint replace_underscore (s : string) : string :=
  match s with
  | EmptyString => EmptyString
  | String c s' =>
      String (if Char.has_code 95 c then " "%char else c) (replace_underscore s')
  end.

(** [s.title()]: a letter that follows a letter is lowered, any other
    letter is raised.  The analyser applies it to rule names only, which
    are ASCII. *)
Fixpoint title_from (prev_cased : bool) (s : string) : string :=
  match s with
  | EmptyString => EmptyString
  | String c s' =>
      let cased := Char.isupper c || Char.islower c in
      String (if prev_cased then Char.lower c else Char.upper c)
             (title_from cased s')
  end.
Definition title (s : string) : string := title_from false s.

(** [str(n)] *)
Definition of_nat (n : nat) : string := NilZero.string_of_uint (Nat.to_uint n).

(** [sep.join(parts)] *)
Fixpoint join (sep : string) (parts : list string) : string :=
  match parts with
  | [] => EmptyString
  | [p] => p
  | p :: rest => p +:+ sep +:+ join sep rest
  end.

(** All characters of [s] satisfy [p]. *)
Fixpoint all (p : ascii -> bool) (s : string) : bool :=
  match s with
  | EmptyString => true
  | String c s' => p c && all p s'
  end.

(** [c] occurs in [s]. *)
Fixpoint mem (c : ascii) (s : string) : bool :=
  match s with
  | EmptyString => false
  | String a s' => Ascii.eqb a c || mem c s'
  end.

End Str.


(** ** Regular expressions and [re.search] *)

Module Re.

(** The constructs the catalogue's patterns use.  Groups are not recorded:
    the scanner only asks whether a line matches. *)
Inductive regex : Type :=
| Eps
| Chr (c : ascii)                  (* a literal character *)
| Cls (p : ascii -> bool)          (* a class: [..], [^..], \s, \w, . *)
| Bol                              (* ^ *)
| Eol                              (* $ *)
| Seq (r1 r2 : regex)              (* r1 r2 *)
| Alt (r1 r2 : regex)              (* r1|r2 *)
| Star (r : regex)                 (* r* *)
| AtLeast (n : nat) (r : regex)    (* r{n,}; r+ is r{1,} *)
| NotAhead (r : regex).            (* (?!r) *)

(** A continuation receives the position reached and the text left. *)
Definition cont : Type := nat -> string -> bool.

(** [$] without MULTILINE: at the end, or before a final line feed. *)
Definition at_end (s : string) : bool :=
  match s with
  | EmptyString => true
  | String c EmptyString => Char.has_code 10 c
  | String _ (String _ _) => false
  end.

(** The greedy loop of [r*]: one more round of [step] as long as the round
    consumes something, else go on with [k].  Tests are written with [if]
    so that, as in the engine, what follows a failed test is not run.  A round consumes at least
    one character, so [fuel] = the length of the text left is never
    exhausted before the text is. *)
Fixpoint star_loop (step : nat -> string -> cont -> bool) (k : cont)
    (fuel : nat) (i : nat) (s : string) : bool :=
  match fuel with
  | O => k i s
  | S fuel' =>
      if step i s (fun i' s' =>
                     if (i <? i')%nat then star_loop step k fuel' i' s'
                     else false)
      then true else k i s
  end.

(** [n] mandatory rounds of [step], then [after]. *)
Fixpoint times_loop (step : nat -> string -> cont -> bool) (after : cont)
    (n : nat) (i : nat) (s : string) : bool :=
  match n with
  | O => after i s
  | S n' => step i s (fun i' s' => times_loop step after n' i' s')
  end.

(** [run r i s k]: [r] matches a prefix of [s], which starts at position
    [i] of the subject, and [k] accepts what follows. *)
Fixpoint run (r : regex) (i : nat) (s : string) (k : cont) : bool :=
  match r with
  | Eps => k i s
  | Chr c =>
      match s with
      | String a s' => if Ascii.eqb a c then k (S i) s' else false
      | EmptyString => false
      end
  | Cls p =>
      match s with
      | String a s' => if p a then k (S i) s' else false
      | EmptyString => false
      end
  | Bol => if (i =? 0)%nat then k i s else false
  | Eol => if at_end s then k i s else false
  | Seq r1 r2 => run r1 i s (fun i' s' => run r2 i' s' k)
  | Alt r1 r2 => if run r1 i s k then true else run r2 i s k
  | Star r' => star_loop (run r') k (String.length s) i s
  | AtLeast n r' =>
      times_loop (run r')
        (fun i' s' => star_loop (run r') k (String.length s') i' s') n i s
  | NotAhead r' => if run r' i s (fun _ _ => true) then false else k i s
  end.

(** [re.search(r, s)] as a truth value: a match starts at some position. *)
Fixpoint search_from (r : regex) (i : nat) (s : string) : bool :=
  if run r i s (fun _ _ => true) then true
  else match s with
       | EmptyString => false
       | String _ s' => search_from r (S i) s'
       end.

Definition search (r : regex) (s : string) : bool := search_from r 0 s.

(** *** Writing patterns *)

Fixpoint lit (s : string) : regex :=
  match s with
  | EmptyString => Eps
  | String c EmptyString => Chr c
  | String c s' => Seq (Chr c) (lit s')
  end.

Fixpoint seq (rs : list regex) : regex :=
  match rs with
  | [] => Eps
  | [r] => r
  | r :: rs' => Seq r (seq rs')
  end.

Fixpoint alts (rs : list regex) : regex :=
  match rs with
  | [] => Cls (fun _ => false)
  | [r] => r
  | r :: rs' => Alt r (alts rs')
  end.

Definition plus (r : regex) : regex := AtLeast 1 r.
Definition space : regex := Cls Char.isspace.         (* \s *)
Definition word : regex := Cls Char.isword.           (* \w *)
Definition any : regex := Cls Char.notnewline.        (* . *)
Definition one_of (s : string) : regex := Cls (fun c => Str.mem c s).
Definition none_of (s : string) : regex := Cls (fun c => negb (Str.mem c s)).

End Re.

(** ** The analyser *)

Module CodeAnalyzer.
Import Re.

(** An issue is a dict with the keys "type" and "description" and, when the
    line scanner made it, "lines". *)
Record issue : Type := Issue {
  type : string;
  description : string;
  lines : option (list nat)
}.

(** A suggestion is a copy of a template dict, with the key "code_after"
    added when an example exists. *)
Record suggestion_t : Type := Suggestion {
  issue_summary : string;            (* "issue" *)
  suggestion : string;               (* "suggestion": the advice text *)
  code_before : string;
  code_after : option string
}.

(** The result dict of [analyze_code]. *)
Record results : Type := Results {
  quality_score : Q;
  issues : list issue;
  suggestions : list suggestion_t
}.

(** *** [self.code_patterns] *)

Definition dquote : ascii := "034"%char.
Definition quotes : string := String "'"%char (String dquote EmptyString).
Definition backslash : string := String "092"%char EmptyString.

(** The tail of every secrets pattern, [ \s* = \s* ['DQ] [^'DQ]+ ['DQ] ]
    (tokens spaced out, DQ for the double quote). *)
Definition quoted_assignment : list regex :=
  [Star space; Chr "="; Star space; one_of quotes; plus (none_of quotes);
   one_of quotes].

(** [^.{80,}$] *)
Definition long_lines : regex := seq [Bol; AtLeast 80 any; Eol].

(** [ (?: \n \s+ .* ){20,} ] *)
Definition twenty_indented_lines : regex :=
  AtLeast 20 (seq [Chr Char.newline; plus space; Star any]).

(** [ \( [^)]* \) ] *)
Definition parameter_list : list regex :=
  [Chr "("; Star (none_of ")"); Chr ")"].

Definition upper_or_underscore (c : ascii) : bool :=
  Char.isupper c || Char.has_code 95 c.
Definition upper_digit_or_underscore (c : ascii) : bool :=
  Char.isupper c || Char.isdigit c || Char.has_code 95 c.

(** [ def \s+ \w+ \s* \( [^)]* \) : \s* (?: \n \s+ .* ){20,} ] *)
Definition python_complex_function : regex :=
  seq ([lit "def"; plus space; plus word; Star space] ++ parameter_list
       ++ [Chr ":"; Star space; twenty_indented_lines]).

Definition python_patterns : list (string * regex) :=
  [ (* (password|secret|api_key|apikey|token) and the tail *)
    ("hardcoded_secrets",
     seq (alts [lit "password"; lit "secret"; lit "api_key"; lit "apikey";
                lit "token"] :: quoted_assignment));
    (* print\( *)
    ("print_statements", lit "print(");
    (* #\s*TODO *)
    ("todo_comments", seq [Chr "#"; Star space; lit "TODO"]);
    ("long_lines", long_lines);
    ("complex_function", python_complex_function);
    (* import \s+ \w+ (?! \s+ as ) *)
    ("unused_imports",
     seq [lit "import"; plus space; plus word;
          NotAhead (seq [plus space; lit "as"])]);
    (* except: *)
    ("bare_except", lit "except:");
    (* ^[A-Z_][A-Z0-9_]*\s*= *)
    ("global_variables",
     seq [Bol; Cls upper_or_underscore; Star (Cls upper_digit_or_underscore);
          Star space; Chr "="]) ].

(** [(password|secret|apiKey|token)] and the tail, shared by the other
    three tables. *)
Definition hardcoded_secrets_camel : regex :=
  seq (alts [lit "password"; lit "secret"; lit "apiKey"; lit "token"]
       :: quoted_assignment).

Definition javascript_patterns : list (string * regex) :=
  [ ("hardcoded_secrets", hardcoded_secrets_camel);
    (* console\.log\( *)
    ("console_log", lit "console.log(");
    (* //\s*TODO *)
    ("todo_comments", seq [lit "//"; Star space; lit "TODO"]);
    ("long_lines", long_lines);
    (* function \s+ \w+ \s* \( [^)]* \) \s* { (?: \n \s+ .* ){20,} } *)
    ("complex_function",
     seq ([lit "function"; plus space; plus word; Star space]
          ++ parameter_list
          ++ [Star space; Chr "{"; twenty_indented_lines; Chr "}"]));
    (* var\s+ *)
    ("var_use", seq [lit "var"; plus space]);
    (* eval\( *)
    ("eval_use", lit "eval(") ].

Definition java_patterns : list (string * regex) :=
  [ ("hardcoded_secrets", hardcoded_secrets_camel);
    (* System\.out\.println *)
    ("system_out", lit "System.out.println");
    ("todo_comments", seq [lit "//"; Star space; lit "TODO"]);
    ("long_lines", long_lines);
    (* (public|private|protected) \s+ \w+ \s+ \w+ \s* \( [^)]* \) \s*
       { (?: \n \s+ .* ){20,} } *)
    ("complex_method",
     seq ([alts [lit "public"; lit "private"; lit "protected"]; plus space;
           plus word; plus space; plus word; Star space]
          ++ parameter_list
          ++ [Star space; Chr "{"; twenty_indented_lines; Chr "}"]));
    (* catch\s*\(\s*Exception\s+ *)
    ("catch_exception",
     seq [lit "catch"; Star space; Chr "("; Star space; lit "Exception";
          plus space]);
    (* [^\\]\s+[0-9]+\s+ *)
    ("magic_numbers",
     seq [none_of backslash; plus space; plus (Cls Char.isdigit);
          plus space]) ].

Definition default_patterns : list (string * regex) :=
  [ ("hardcoded_secrets", hardcoded_secrets_camel);
    (* (//|#)\s*TODO *)
    ("todo_comments", seq [alts [lit "//"; Chr "#"]; Star space; lit "TODO"]);
    ("long_lines", long_lines) ].

Definition code_patterns : gmap string (list (string * regex)) :=
  list_to_map
    [ ("python", python_patterns);
      ("javascript", javascript_patterns);
      ("java", java_patterns);
      ("default", default_patterns) ].

(** *** [_pattern_analysis] *)

(** The inner loop: the 1-based numbers of the lines [pattern] is found
    in; [i] is the index of the first line of [ls]. *)
Fixpoint matching_lines (pattern : regex) (i : nat) (ls : list string)
    : list nat :=
  match ls with
  | [] => []
  | line :: rest =>
      if search pattern line then (i + 1)%nat :: matching_lines pattern (S i) rest
      else matching_lines pattern (S i) rest
  end.

(** [', '.join(map(str, matches))]: the numbers, separated by a comma and
    a space. *)
Definition joined (matches : list nat) : string :=
  Str.join ", " (map Str.of_nat matches).

Definition issue_descriptions (matches : list nat) : gmap string string :=
  list_to_map
    [ ("hardcoded_secrets",
       "Potential hardcoded secrets found on lines: " +:+ joined matches);
      ("print_statements",
       "Print statements found on lines: " +:+ joined matches);
      ("todo_comments", "TODO comments found on lines: " +:+ joined matches);
      ("long_lines",
       "Long lines (>80 chars) found on lines: " +:+ joined matches);
      ("complex_function",
       "Complex function detected. Consider breaking it down.");
      ("unused_imports", "Potentially unused imports detected.");
      ("bare_except",
       "Bare except clauses found. Consider catching specific exceptions.");
      ("global_variables",
       "Global variables detected. Consider encapsulation.");
      ("console_log",
       "Console log statements found on lines: " +:+ joined matches);
      ("var_use", "Use of 'var' keyword. Consider using 'let' or 'const'.");
      ("eval_use", "Use of eval() detected. This can be a security risk.");
      ("system_out", "System.out.println found on lines: " +:+ joined matches);
      ("catch_exception",
       "Catching generic Exception. Consider catching specific exceptions.");
      ("magic_numbers",
       "Magic numbers detected. Consider using named constants.") ].

(** One round of the outer loop: the issue a rule contributes, if any. *)
Definition rule_issue (ls : list string) (rule : string * regex)
    : option issue :=
  let '(pattern_name, pattern) := rule in
  let matches := matching_lines pattern 0 ls in
  match matches with
  | [] => None
  | _ :: _ =>
      match issue_descriptions matches !! pattern_name with
      | Some d =>
          Some (Issue (Str.title (Str.replace_underscore pattern_name)) d
                      (Some matches))
      | None => None
      end
  end.

Definition select_patterns (file_extension : string)
    : list (string * regex) :=
  match code_patterns !! file_extension with
  | Some patterns => patterns
  | None => code_patterns !!! "default"
  end.

Definition _pattern_analysis (code file_extension : string) : list issue :=
  omap (rule_issue (Str.split_nl code)) (select_patterns file_extension).

(** *** [_simulated_ai_analysis] *)

(** [len(line) - len(line.lstrip())] *)
Definition indentation (line : string) : nat :=
  (String.length line - String.length (Str.lstrip line))%nat.

(** The nesting loop, started from [max_indentation = 0]. *)
Definition max_indentation (ls : list string) : nat :=
  fold_left (fun acc line => Nat.max acc (indentation line)) ls 0%nat.

Definition code_size_issue : issue :=
  Issue "Code Size"
        "File is quite large. Consider breaking it into smaller modules."
        None.

Definition deep_nesting_issue : issue :=
  Issue "Deep Nesting"
        "Code contains deeply nested blocks. Consider refactoring to reduce nesting."
        None.

Definition exception_handling_issue : issue :=
  Issue "Exception Handling"
        "Generic exception handling detected. Consider catching specific exceptions."
        None.

Definition type_comparison_issue : issue :=
  Issue "Type Comparison"
        "Use of loose equality (==) detected. Consider using strict equality (===)."
        None.

Definition main_method_size_issue : issue :=
  Issue "Main Method Size"
        "Large main method detected. Consider breaking functionality into separate methods."
        None.

(** The language-specific branch, an if / elif / elif chain. *)
Definition language_concerns (code file_extension : string)
    (ls : list string) : list issue :=
  if String.eqb file_extension "py" then
    if Str.contains "except Exception as e:" code
       || Str.contains "except:" code
    then [exception_handling_issue] else []
  else if String.eqb file_extension "js" then
    if Str.contains "==" code && negb (Str.contains "===" code)
    then [type_comparison_issue] else []
  else if String.eqb file_extension "java" then
    if Str.contains "public static void main" code && (100 <? length ls)%nat
    then [main_method_size_issue] else []
  else [].

Definition _simulated_ai_analysis (code file_extension : string)
    : list issue :=
  let ls := Str.split_nl code in
  ((if (200 <? length ls)%nat then [code_size_issue] else [])
   ++ (if (16 <? max_indentation ls)%nat then [deep_nesting_issue] else [])
   ++ language_concerns code file_extension ls)%list.

(** *** [_generate_suggestions] *)

Definition nl : string := String Char.newline EmptyString.

(** The templates, in insertion order; none has a "code_after" key. *)
Definition solutions : list (string * suggestion_t) :=
  [ ("Hardcoded Secrets",
     Suggestion
       "Hardcoded credentials or API keys were found in your code."
       "Use environment variables or a secure configuration system for sensitive data."
       "api_key = 'ac87520ee84f3'" None);
    ("Print Statements",
     Suggestion
       "Debug print statements were found in production code."
       "Replace print statements with proper logging mechanisms."
       "print('Debug value:', x)" None);
    ("Long Lines",
     Suggestion
       "Code contains excessively long lines that reduce readability."
       "Break long lines into multiple lines following style guides."
       "def very_long_function_name(extremely_long_parameter_name1, extremely_long_parameter_name2, extremely_long_parameter_name3, extremely_long_parameter_name4):"
       None);
    ("Complex Function",
     Suggestion
       "Complex, lengthy functions were detected."
       "Break down complex functions into smaller, more manageable ones that follow the single responsibility principle."
       ("def process_data(data):" +:+ nl
        +:+ "    # 50+ lines of code with multiple responsibilities")
       None);
    ("Console Log",
     Suggestion
       "Debug console.log statements were found in production code."
       "Replace console.log with proper logging mechanisms or remove them in production."
       "console.log('Debug info:', data);" None);
    ("Var Use",
     Suggestion
       "Usage of 'var' keyword which has function scope."
       "Replace 'var' with 'const' for variables that don't change, or 'let' for those that do."
       "var userId = 42;" None);
    ("Bare Except",
     Suggestion
       "Catching exceptions without specifying the exception type."
       "Catch specific exceptions rather than using bare except clauses."
       ("try:" +:+ nl +:+ "    risky_operation()" +:+ nl +:+ "except:" +:+ nl
        +:+ "    handle_error()")
       None) ].

Definition dq : string := String dquote EmptyString.

(** [sep.join] with a line feed: the examples are multi-line literals. *)
Definition text (rows : list string) : string := Str.join nl rows.

(** The local dict [code_after]: template key, then language. *)
Definition code_after_table : gmap string (gmap string string) :=
  list_to_map
    [ ("Hardcoded Secrets",
       list_to_map
         [ ("py", text ["import os"; "api_key = os.environ.get('API_KEY')"]);
           ("js", "const apiKey = process.env.API_KEY;");
           ("java",
            "String apiKey = System.getenv(" +:+ dq +:+ "API_KEY" +:+ dq
            +:+ ");") ]);
      ("Print Statements",
       list_to_map
         [ ("py", text ["import logging"; "logging.debug('Debug value: %s', x)"]);
           ("js",
            text ["if (process.env.NODE_ENV !== 'production') {";
                  "  console.log('Debug value:', x);"; "}"]);
           ("java",
            text ["Logger logger = Logger.getLogger(MyClass.class.getName());";
                  "logger.fine(" +:+ dq +:+ "Debug value: " +:+ dq
                  +:+ " + x);"]) ]);
      ("Long Lines",
       list_to_map
         [ ("py",
            text ["def very_long_function_name(";
                  "    extremely_long_parameter_name1,";
                  "    extremely_long_parameter_name2,";
                  "    extremely_long_parameter_name3,";
                  "    extremely_long_parameter_name4"; "):"]);
           ("js",
            text ["function veryLongFunctionName(";
                  "  extremelyLongParameterName1,";
                  "  extremelyLongParameterName2,";
                  "  extremelyLongParameterName3,";
                  "  extremelyLongParameterName4"; ") {"]);
           ("java",
            text ["public void veryLongMethodName(";
                  "    String extremelyLongParameterName1,";
                  "    String extremelyLongParameterName2,";
                  "    String extremelyLongParameterName3,";
                  "    String extremelyLongParameterName4"; ") {"]) ]);
      ("Complex Function",
       list_to_map
         [ ("py",
            text ["def process_data(data):";
                  "    validated_data = validate_data(data)";
                  "    processed_data = transform_data(validated_data)";
                  "    return save_results(processed_data)"; "";
                  "def validate_data(data):"; "    # Validation logic here";
                  "    return validated_data"; "";
                  "def transform_data(data):";
                  "    # Transformation logic here";
                  "    return transformed_data"; "";
                  "def save_results(data):"; "    # Saving logic here";
                  "    return result"]);
           ("js",
            text ["function processData(data) {";
                  "  const validatedData = validateData(data);";
                  "  const processedData = transformData(validatedData);";
                  "  return saveResults(processedData);"; "}"; "";
                  "function validateData(data) {";
                  "  // Validation logic here"; "  return validatedData;";
                  "}"; "";
                  "function transformData(data) {";
                  "  // Transformation logic here";
                  "  return transformedData;"; "}"; "";
                  "function saveResults(data) {"; "  // Saving logic here";
                  "  return result;"; "}"]);
           ("java",
            text ["public Result processData(Data data) {";
                  "    Data validatedData = validateData(data);";
                  "    Data processedData = transformData(validatedData);";
                  "    return saveResults(processedData);"; "}"; "";
                  "private Data validateData(Data data) {";
                  "    // Validation logic here";
                  "    return validatedData;"; "}"; "";
                  "private Data transformData(Data data) {";
                  "    // Transformation logic here";
                  "    return transformedData;"; "}"; "";
                  "private Result saveResults(Data data) {";
                  "    // Saving logic here"; "    return result;"; "}"]) ]);
      ("Console Log",
       list_to_map
         [ ("js",
            text ["import logger from './logger';";
                  "logger.debug('Debug info:', data);"]) ]);
      ("Var Use", list_to_map [ ("js", "const userId = 42;") ]);
      ("Bare Except",
       list_to_map
         [ ("py",
            text ["try:"; "    risky_operation()"; "except ValueError as e:";
                  "    handle_specific_error(e)"; "except Exception as e:";
                  "    handle_general_error(e)"]) ]) ].

Definition lang_map : gmap string string :=
  list_to_map
    [ ("py", "py"); ("js", "js"); ("ts", "js"); ("java", "java");
      ("default", "py") ].

(** [lang_map.get(file_extension, 'default')]: the second argument is the
    value returned for a missing key. *)
Definition lang_of (file_extension : string) : string :=
  default "default" (lang_map !! file_extension).

(** The inner loop over [solutions.items()]: the first template whose key
    occurs in the issue type. *)
Fixpoint find_template (issue_type : string)
    (templates : list (string * suggestion_t))
    : option (string * suggestion_t) :=
  match templates with
  | [] => None
  | (key, template) :: rest =>
      if Str.contains key issue_type then Some (key, template)
      else find_template issue_type rest
  end.

(** [if key in code_after and lang in code_after[key]] *)
Definition with_code_after (key lang : string) (template : suggestion_t)
    : suggestion_t :=
  match code_after_table !! key with
  | Some examples =>
      match examples !! lang with
      | Some example =>
          Suggestion (issue_summary template) (suggestion template)
                     (code_before template) (Some example)
      | None => template
      end
  | None => template
  end.

(** One round of the loop over the issues. *)
Definition issue_suggestion (lang : string) (i : issue)
    : option suggestion_t :=
  let issue_type := type i in
  if bool_decide (issue_type ∈ ["Todo Comments"; "AI Analysis Error"])
  then None
  else match find_template issue_type solutions with
       | Some (key, template) => Some (with_code_after key lang template)
       | None => None
       end.

(** The list [suggestions] before deduplication. *)
Definition raw_suggestions (issues : list issue) (file_extension : string)
    : list suggestion_t :=
  omap (issue_suggestion (lang_of file_extension)) issues.

(** One round of the deduplication loop on the pair
    ([unique_suggestions], [suggestion_texts]). *)
Definition dedup_step (st : list suggestion_t * gset string)
    (s : suggestion_t) : list suggestion_t * gset string :=
  let suggestion_text := suggestion s in
  if bool_decide (suggestion_text ∈ st.2) then st
  else ((st.1 ++ [s])%list, {[suggestion_text]} ∪ st.2).

Definition deduplicate (l : list suggestion_t) : list suggestion_t :=
  (fold_left dedup_step l ([], ∅)).1.

Definition _generate_suggestions (code : string) (issues : list issue)
    (file_extension : string) : list suggestion_t :=
  deduplicate (raw_suggestions issues file_extension).

(** *** [analyze_code] *)

Definition empty_file_issue : issue :=
  Issue "Empty File"
        "The file appears to be empty or contains only whitespace."
        None.

Definition maintainability_issue : issue :=
  Issue "Code Maintainability"
        "Consider adding more inline documentation to improve code maintainability."
        None.

(** The double nearest to 0.3, as the exact rational it denotes. *)
Definition threshold : Q := 5404319552844595 # 18014398509481984.

Definition Qltb (x y : Q) : bool := negb (Qle_bool y x).

(** [not code or len(code.strip()) == 0] *)
Definition is_empty_file (code : string) : bool :=
  negb (Str.truthy code) || (String.length (Str.strip code) =? 0)%nat.

(** [max(1.0, base_score - (len(issues) * penalty_per_issue))] *)
Definition score (issue_count : nat) : Q :=
  Qmax 1 (10 - inject_Z (Z.of_nat issue_count) * (1 # 2)).

(** [rnd] is the value [random.random()] returns in this call. *)
Definition analyze_code (rnd : Q) (code filename file_extension depth : string)
    : results :=
  if is_empty_file code then
    Results 5 [empty_file_issue] []
  else
    let issues := _pattern_analysis code file_extension in
    let simulated_analysis := _simulated_ai_analysis code file_extension in
    let issues := (issues ++ simulated_analysis)%list in
    let issues :=
      if Qltb rnd threshold && String.eqb depth "Deep"
      then (issues ++ [maintainability_issue])%list else issues in
    let quality_score := score (length issues) in
    let suggestions := _generate_suggestions code issues file_extension in
    Results quality_score issues suggestions.

End CodeAnalyzer.

(** ** Vocabulary of the properties *)

Module Spec.
Import CodeAnalyzer.

(** The number of issues of type [t] in a list. *)
Definition count_type (t : string) (l : list issue) : nat :=
  length (filter (fun i => type i = t) l).

(** The longest prefix of [s] whose characters satisfy [p]. *)
Fixpoint leading (p : ascii -> bool) (s : string) : nat :=
  match s with
  | EmptyString => 0
  | String c s' => if p c then S (leading p s') else 0
  end.

Definition is_space_or_tab (c : ascii) : bool :=
  Char.has_code 32 c || Char.has_code 9 c.

(** The greatest value of [width] over the lines of a text. *)
Definition max_width (width : string -> nat) (code : string) : nat :=
  foldr (fun line acc => Nat.max (width line) acc) 0%nat (Str.split_nl code).

(** A text of [n] lines, each equal to [line]. *)
Definition lines_of (n : nat) (line : string) : string :=
  Str.join nl (replicate n line).

(** [n] copies of the character [c], then [rest]. *)
Fixpoint indent (n : nat) (c : ascii) (rest : string) : string :=
  match n with
  | O => rest
  | S n' => String c (indent n' c rest)
  end.

(** The scenario of the specification: five lines tagged as Python, the
    third one assigning the literal key. *)
Definition scenario : string :=
  text [ "# configuration";
         "host = 'localhost'";
         "api_key = " +:+ dq +:+ "ac87520ee84f3" +:+ dq;
         "retries = 3";
         "timeout = 30" ].

(** [x] occurs in [l] at a place before which no entry has its advice
    text, and that text is not in [seen]. *)
Definition first_occurrence (seen : gset string) (x : suggestion_t)
    (l : list suggestion_t) : Prop :=
  exists pre post,
    l = (pre ++ x :: post)%list
    /\ (suggestion x ∉ suggestion <$> pre)
    /\ suggestion x ∉ seen.

(** The entry of [l] at place [n], when no entry before that place has its
    advice text. *)
Definition first_at (l : list suggestion_t) (n : nat) : option suggestion_t :=
  match l !! n with
  | Some x =>
      if bool_decide (suggestion x ∈ suggestion <$> take n l) then None
      else Some x
  | None => None
  end.

(** [l] with, for every advice text, its first entry kept and the later
    ones dropped: the entries at the places [0], [1], ... of [l] that are
    the first with their advice text, in that order. *)
Definition first_occurrences (l : list suggestion_t) : list suggestion_t :=
  omap (first_at l) (seq 0 (length l)).

(** Three issues, the first and the last of which meet the same
    template. *)
Definition repeated_issues : list issue :=
  [ Issue "Hardcoded Secrets" "a password" (Some [3%nat]);
    Issue "Print Statements" "a print call" (Some [5%nat]);
    Issue "More Hardcoded Secrets" "an api key" (Some [9%nat]) ].

(** A line indented with seventeen form feeds, which [str.lstrip] removes
    and which are neither spaces nor tabs. *)
Definition form_feed : ascii := "012"%char.
Definition form_feed_line : string := indent 17 form_feed "x = 1".

(** Two lines that the rules of the python table flag. *)
Definition secret_and_print : string :=
  text ["password = 'abc123'"; "print(password)"].

(** The rule names that have a description template. *)
Definition described_rules : list string :=
  [ "hardcoded_secrets"; "print_statements"; "todo_comments"; "long_lines";
    "complex_function"; "unused_imports"; "bare_except"; "global_variables";
    "console_log"; "var_use"; "eval_use"; "system_out"; "catch_exception";
    "magic_numbers" ].

(** The issue type a rule name gives. *)
Definition rule_type (pattern_name : string) : string :=
  Str.title (Str.replace_underscore pattern_name).

(** A matcher step that, started on a text satisfying [P], calls its
    continuation, if at all, on a text satisfying [P]. *)
Definition preserves (P : string -> Prop)
    (step : nat -> string -> Re.cont -> bool) : Prop :=
  forall i s k, P s -> step i s k = true ->
    exists i' s', P s' /\ k i' s' = true.

(** The states a matcher step started at position [i] on the text [s]
    can hand over: on a text not longer than [s], at the position that
    corresponds to it. *)
Definition handed_over (i : nat) (s : string) (i' : nat) (s' : string)
    : Prop :=
  (String.length s' <= String.length s)%nat
  /\ (i' + String.length s' = i + String.length s)%nat.

(** A matcher step that looks at its continuation only on the states it
    can hand over. *)
Definition local_step (step : nat -> string -> Re.cont -> bool) : Prop :=
  forall i s k1 k2,
    (forall i' s', handed_over i s i' s' -> k1 i' s' = k2 i' s') ->
    step i s k1 = step i s k2.

(** A matcher step that succeeds only through its continuation. *)
Definition strict_step (step : nat -> string -> Re.cont -> bool) : Prop :=
  forall i s, step i s (fun _ _ => false) = false.

(** A text without line feed. *)
Definition single_line (s : string) : Prop := Str.mem Char.newline s = false.

(** A one-line text with a secret assignment,
    [password = DQ abc123 DQ]. *)
Definition password_line : string :=
  "password = " +:+ dq +:+ "abc123" +:+ dq.

End Spec.

(** ** [utils.py] *)

Module Utils.

(** [s[:n]] for [n >= 0] *)
Fixpoint take (n : nat) (s : string) : string :=
  match n, s with
  | O, _ => EmptyString
  | S _, EmptyString => EmptyString
  | S n', String c s' => String c (take n' s')
  end.

(** [s[:stop]] for any integer [stop]: a negative [stop] counts from the
    end, and a position before the start gives the empty string. *)
Definition slice_to (stop : Z) (s : string) : string :=
  if (0 <=? stop)%Z then take (Z.to_nat stop) s
  else take (Z.to_nat (Z.of_nat (String.length s) + stop)) s.

(** [truncate_text(text, max_length)] *)
Definition truncate_text (text : string) (max_length : Z) : string :=
  if (Z.of_nat (String.length text) <=? max_length)%Z then text
  else slice_to (max_length - 3) text +:+ "...".

End Utils.

(** ** Matching with groups, and [parse_repo_url] *)

Module Groups.
Import Re.

(** The matcher of [Re.run] with a continuation that returns a value: the
    first way of matching, in the order of the engine (the earlier
    alternative first, one more round of a loop first), whose continuation
    gives a value decides. *)
Definition cont (R : Type) : Type := nat -> string -> option R.

Fixpoint star_loop {R} (step : nat -> string -> cont R -> option R)
    (k : cont R) (fuel : nat) (i : nat) (s : string) : option R :=
  match fuel with
  | O => k i s
  | S fuel' =>
      match step i s (fun i' s' =>
                        if (i <? i')%nat then star_loop step k fuel' i' s'
                        else None) with
      | Some x => Some x
      | None => k i s
      end
  end.

Fixpoint times_loop {R} (step : nat -> string -> cont R -> option R)
    (after : cont R) (n : nat) (i : nat) (s : string) : option R :=
  match n with
  | O => after i s
  | S n' => step i s (fun i' s' => times_loop step after n' i' s')
  end.

Fixpoint run {R} (r : regex) (i : nat) (s : string) (k : cont R)
    : option R :=
  match r with
  | Eps => k i s
  | Chr c =>
      match s with
      | String a s' => if Ascii.eqb a c then k (S i) s' else None
      | EmptyString => None
      end
  | Cls p =>
      match s with
      | String a s' => if p a then k (S i) s' else None
      | EmptyString => None
      end
  | Bol => if (i =? 0)%nat then k i s else None
  | Eol => if at_end s then k i s else None
  | Seq r1 r2 => run r1 i s (fun i' s' => run r2 i' s' k)
  | Alt r1 r2 =>
      match run r1 i s k with
      | Some x => Some x
      | None => run r2 i s k
      end
  | Star r' => star_loop (run r') k (String.length s) i s
  | AtLeast n r' =>
      times_loop (run r')
        (fun i' s' => star_loop (run r') k (String.length s') i' s') n i s
  | NotAhead r' =>
      match run r' i s (fun _ _ => Some tt) with
      | Some _ => None
      | None => k i s
      end
  end.

(** A pattern of the form [before (g1) between (g2) after]: the texts of
    the two groups in the match that [re.match] finds at position [i]. *)
Definition match_two_groups (before g1 between g2 after : regex)
    (i : nat) (s : string) : option (string * string) :=
  run before i s (fun i1 s1 =>
  run g1 i1 s1 (fun i2 s2 =>
  run between i2 s2 (fun i3 s3 =>
  run g2 i3 s3 (fun i4 s4 =>
  run after i4 s4 (fun _ _ =>
    Some (Utils.take (i2 - i1) s1, Utils.take (i4 - i3) s3)))))).

(** [re.search]: the match at the leftmost position that has one. *)
Fixpoint search_from (before g1 between g2 after : regex)
    (i : nat) (s : string) : option (string * string) :=
  match match_two_groups before g1 between g2 after i s with
  | Some groups => Some groups
  | None =>
      match s with
      | EmptyString => None
      | String _ s' => search_from before g1 between g2 after (S i) s'
      end
  end.

Definition search (before g1 between g2 after : regex) (s : string)
    : option (string * string) :=
  search_from before g1 between g2 after 0 s.

(** [[^/]+], the pattern of both groups. *)
Definition segment : regex := plus (none_of "/").

(** The three patterns of [parse_repo_url], as the five parts of
    [match_two_groups]:
    [ github\.com/ ([^/]+) / ([^/]+) /?$ ],
    [ github\.com/ ([^/]+) / ([^/]+) \.git$ ],
    [ github\.com: ([^/]+) / ([^/]+) \.git$ ]. *)
Definition url_patterns : list (regex * regex * regex) :=
  [ (lit "github.com/", Chr "/", Seq (Alt (Chr "/") Eps) Eol);
    (lit "github.com/", Chr "/", Seq (lit ".git") Eol);
    (lit "github.com:", Chr "/", Seq (lit ".git") Eol) ].

(** The loop over the patterns; [None] stands for the pair
    [(None, None)]. *)
Fixpoint first_match (patterns : list (regex * regex * regex))
    (url : string) : option (string * string) :=
  match patterns with
  | [] => None
  | (before, between, after) :: rest =>
      match search before segment between segment after url with
      | Some (owner, repo_name) => Some (owner, repo_name)
      | None => first_match rest url
      end
  end.

Definition parse_repo_url (url : string) : option (string * string) :=
  first_match url_patterns url.

End Groups.

(** ** [github_api.py]: the files handed to the analyser *)

Module GitHubRepo.

(** [s.split(c)] for a separator of one character. *)
Fixpoint split_char (c : ascii) (s : string) : list string :=
  match s with
  | EmptyString => [EmptyString]
  | String a s' =>
      if Ascii.eqb a c then EmptyString :: split_char c s'
      else match split_char c s' with
           | l :: ls => String a l :: ls
           | [] => [String a EmptyString]
           end
  end.

(** [str.lower] on one character below 256: the ASCII capitals and the
    Latin-1 capitals, which all have their small letter 32 places up. *)
Definition lower_char (c : ascii) : ascii :=
  if Char.isupper c || Char.between 192 214 c || Char.between 216 222 c
  then ascii_of_nat (Char.code c + 32) else c.

(** [s.lower()] *)
Fixpoint lower (s : string) : string :=
  match s with
  | EmptyString => EmptyString
  | String c s' => String (lower_char c) (lower s')
  end.

(** [name.split('.')[-1].lower() if '.' in name else ""] *)
Definition extension_of (name : string) : string :=
  if Str.contains "." name
  then lower (List.last (split_char "." name) EmptyString)
  else EmptyString.

(** An entry of a contents listing, with the keys the loop reads. *)
Record item : Type := Item {
  item_type : string;    (* "type" *)
  item_name : string;    (* "name" *)
  item_path : string;    (* "path" *)
  item_sha : string;     (* "sha" *)
  item_size : Z;         (* "size" *)
  item_html_url : string (* "html_url" *)
}.

(** An entry of the returned list. *)
Record file : Type := File {
  name : string;
  path : string;
  sha : string;
  size : Z;
  url : string;
  extension : string
}.

Section Files.

(** The arguments [max_files] and [file_extensions] ([None] by default). *)
Variable max_files : Z.
Variable file_extensions : option (list string).

(** [file_extensions and file_extension not in file_extensions]: [None]
    and the empty list are falsy. *)
Definition filtered_out (file_extension : string) : bool :=
  match file_extensions with
  | None | Some [] => false
  | Some exts => negb (bool_decide (file_extension ∈ exts))
  end.

(** The loop over one listing, on the pair ([files], [contents_stack]);
    the stack holds the paths.  It ends early, by [break], once [files]
    has [max_files] entries. *)
Fixpoint scan_contents (contents : list item)
    (files : list file) (contents_stack : list string)
    : list file * list string :=
  match contents with
  | [] => (files, contents_stack)
  | it :: rest =>
      if String.eqb (item_type it) "dir" then
        scan_contents rest files (contents_stack ++ [item_path it])%list
      else if String.eqb (item_type it) "file" then
        let file_extension := extension_of (item_name it) in
        if filtered_out file_extension then
          scan_contents rest files contents_stack
        else if (500000 <? item_size it)%Z then
          scan_contents rest files contents_stack
        else
          let files' :=
            (files ++ [File (item_name it) (item_path it) (item_sha it)
                            (item_size it) (item_html_url it)
                            file_extension])%list in
          if (max_files <=? Z.of_nat (length files'))%Z
          then (files', contents_stack)
          else scan_contents rest files' contents_stack
      else scan_contents rest files contents_stack
  end.

(** What the request for the contents of a path gives: [None] for a
    status other than 200, else the listing, a single entry counting as a
    listing of one. *)
Variable fetch : string -> option (list item).

(** The [while] loop; [None] when [fuel] rounds do not reach its end. *)
Fixpoint walk (fuel : nat) (files : list file) (contents_stack : list string)
    : option (list file) :=
  match contents_stack with
  | [] => Some files
  | current_path :: rest =>
      if (Z.of_nat (length files) <? max_files)%Z then
        match fuel with
        | O => None
        | S fuel' =>
            match fetch current_path with
            | None => walk fuel' files rest
            | Some contents =>
                let '(files', stack') := scan_contents contents files rest in
                walk fuel' files' stack'
            end
        end
      else Some files
  end.

(** [get_repository_files], started on the root directory. *)
Definition get_repository_files (fuel : nat) : option (list file) :=
  walk fuel [] [EmptyString].

End Files.

End GitHubRepo.

(** ** Further vocabulary *)

From Stdlib Require Import Sorted.

Module Terms.
Import CodeAnalyzer Spec.

(** The line numbered [n], counting from 1, of a text. *)
Definition line_at (code : string) (n : nat) : option string :=
  match n with
  | O => None
  | S j => Str.split_nl code !! j
  end.

(** The line numbers an issue lists, none when it has no "lines" key. *)
Definition issue_lines (i : issue) : list nat := default [] (lines i).

(** The names of the rules of a table, in its order. *)
Definition rule_names (table : list (string * Re.regex)) : list string :=
  table.*1.

(** The rules whose pattern is a literal text: the table key, the rule
    name and the text. *)
Definition literal_rules : list (string * string * string) :=
  [ ("python", "print_statements", "print(");
    ("python", "bare_except", "except:");
    ("javascript", "console_log", "console.log(");
    ("javascript", "eval_use", "eval(");
    ("java", "system_out", "System.out.println") ].

(** [s[n:]] for [n >= 0]. *)
Fixpoint skip (n : nat) (s : string) : string :=
  match n, s with
  | O, _ => s
  | S n', String _ s' => skip n' s'
  | S _, EmptyString => EmptyString
  end.

(** The pattern of the javascript rule for complex functions, as the
    table has it:
    [ function \s+ \w+ \s* \( [^)]* \) \s* { (?: \n \s+ .* ){20,} } ] *)
Definition javascript_complex_function : Re.regex :=
  Re.seq ([Re.lit "function"; Re.plus Re.space; Re.plus Re.word;
           Re.Star Re.space]
          ++ parameter_list
          ++ [Re.Star Re.space; Re.Chr "{"; twenty_indented_lines;
              Re.Chr "}"]).

(** The issue types of the heuristic analyser. *)
Definition heuristic_types : list string :=
  ["Code Size"; "Deep Nesting"; "Exception Handling"; "Type Comparison";
   "Main Method Size"].

(** The issue types that have a suggestion template and are not skipped. *)
Definition templated_types : list string :=
  ["Hardcoded Secrets"; "Print Statements"; "Long Lines"; "Console Log";
   "Var Use"; "Bare Except"].

(** The extensions that are keys of [lang_map]. *)
Definition lang_map_keys : list string :=
  ["py"; "js"; "ts"; "java"; "default"].

(** The keys of [code_patterns] other than the fallback. *)
Definition table_keys : list string := ["python"; "javascript"; "java"].

(** The advice text an issue type leads to, if any: what the loop over the
    issues of [_generate_suggestions] appends depends on the type only. *)
Definition advice_for (issue_type : string) : option string :=
  suggestion <$> issue_suggestion EmptyString (Issue issue_type EmptyString None).

(** The issue types a result can hold. *)
Definition known_types : list string :=
  ((rule_type <$> described_rules) ++ heuristic_types
   ++ ["Code Maintainability"; "Empty File"])%list.

(** [g] gives distinct values on distinct elements of [l] where it gives
    one; a check by enumeration. *)
Definition injective_on (g : string -> option string) (l : list string)
    : bool :=
  forallb (fun x =>
    forallb (fun y =>
      match g x, g y with
      | Some a, Some b => implb (String.eqb a b) (String.eqb x y)
      | _, _ => true
      end) l) l.

(** The advice text of the template for complex functions. *)
Definition complex_function_advice : string :=
  "Break down complex functions into smaller, more manageable ones that follow the single responsibility principle.".

(** The suggestion an issue of type [t] leads to carries an example, when
    the language of the examples is [lang]; true when there is no
    suggestion. *)
Definition example_attached (lang t : string) : bool :=
  match issue_suggestion lang (Issue t EmptyString None) with
  | Some s => bool_decide (is_Some (code_after s))
  | None => true
  end.

(** The issue types a result can hold when the extension is a key of
    [lang_map]: those of the rules of the java and default tables, of the
    heuristics and of the orchestrator. *)
Definition lang_map_types : list string :=
  ((rule_type <$> (rule_names java_patterns ++ rule_names default_patterns))
   ++ heuristic_types ++ ["Code Maintainability"; "Empty File"])%list.

(** A text on which seven rules of the python table and both structural
    heuristics fire: six flagged lines, then 200 empty ones. *)
Definition worst_case : string :=
  text ([ "password = 'abc123'";
          "print(password)  # TODO remove";
          "import os";
          "except:";
          "MAX_SIZE = 3";
          indent 20 " " (indent 70 "x" "") ]
        ++ replicate 200 EmptyString).

(** The issue types only the python and javascript tables can give. *)
Definition python_javascript_types : list string :=
  ["Print Statements"; "Unused Imports"; "Bare Except"; "Global Variables";
   "Console Log"; "Var Use"; "Eval Use"].

(** A JavaScript line that only uses the strict inequality operator. *)
Definition strict_inequality : string := "if (a !== b) { return; }".

(** What every returned file satisfies: it is not larger than 500000, its
    extension is the one computed from its name, and the filter lets the
    extension through. *)
Definition accepted (file_extensions : option (list string))
    (f : GitHubRepo.file) : Prop :=
  (GitHubRepo.size f <= 500000)%Z
  /\ GitHubRepo.extension f = GitHubRepo.extension_of (GitHubRepo.name f)
  /\ GitHubRepo.filtered_out file_extensions (GitHubRepo.extension f) = false.

(** The paths of the directories of a listing. *)
Definition dir_paths (contents : list GitHubRepo.item) : list string :=
  GitHubRepo.item_path <$>
    filter (fun it => GitHubRepo.item_type it = "dir") contents.

(** The sum of the weights of the paths of a stack. *)
Definition total_weight (weight : string -> nat) (stack : list string) : nat :=
  foldr (fun p acc => (weight p + acc)%nat) 0%nat stack.

(** [weight] decreases along the listings: every path weighs more than
    the directories its listing holds, taken together.  The number of
    directories below a path, the path included, is such a weight when the
    listings form a finite tree. *)
Definition finite_tree (fetch : string -> option (list GitHubRepo.item))
    (weight : string -> nat) : Prop :=
  forall p,
    (total_weight weight (dir_paths (default [] (fetch p))) < weight p)%nat.

(** A small repository: a root with two files and a directory, which
    holds one file. *)
Definition sample_fetch (p : string) : option (list GitHubRepo.item) :=
  if String.eqb p EmptyString then
    Some [ GitHubRepo.Item "file" "README.md" "README.md" "s1" 120 "u1";
           GitHubRepo.Item "dir" "src" "src" "s2" 0 "u2";
           GitHubRepo.Item "file" "Setup.PY" "Setup.PY" "s3" 300 "u3" ]
  else if String.eqb p "src" then
    Some [ GitHubRepo.Item "file" "big.py" "src/big.py" "s4" 600000 "u4";
           GitHubRepo.Item "file" "app.py" "src/app.py" "s5" 900 "u5" ]
  else None.

Definition sample_weight (p : string) : nat :=
  if String.eqb p EmptyString then 2%nat else 1%nat.

(** The number of times [c] occurs in [s]. *)
Fixpoint occurrences (c : ascii) (s : string) : nat :=
  match s with
  | EmptyString => 0
  | String a s' => (if Ascii.eqb a c then 1 else 0) + occurrences c s'
  end.

(** A value of the matcher [step] is a value of its continuation. *)
Definition gives_value_of_continuation {R : Type}
    (step : nat -> string -> Groups.cont R -> option R) : Prop :=
  forall i s k x, step i s k = Some x -> exists i' s', k i' s' = Some x.

End Terms.

(** A list of literals does not hold [x]. *)
Ltac not_in_list :=
  rewrite ?not_elem_of_cons; split_and?;
  first [discriminate | apply not_elem_of_nil | done].

(** A list of literals holds [x]. *)
Ltac in_list :=
  rewrite ?elem_of_cons; repeat (first [by left | right]); fail.


(** * Properties *)

Import CodeAnalyzer Spec.

(** ** Strings *)

Lemma lstrip_cases (s : string) :
  (Str.lstrip s = EmptyString /\ Str.all Char.isspace s = true)
  \/ (exists c t, Str.lstrip s = String c t /\ Char.isspace c = false
                  /\ Str.all Char.isspace s = false).
Proof.
  induction s as [|a s IH]; simpl.
  - by left.
  - destruct (Char.isspace a) eqn:Ha; simpl.
    + exact IH.
    + right. by exists a, s.
Qed.

Lemma rstrip_nonspace (c : ascii) (t : string) :
  Char.isspace c = false -> Str.rstrip (String c t) <> EmptyString.
Proof.
  intros Hc. simpl. destruct (Str.rstrip t); by rewrite ?Hc.
Qed.

(** The guard of the fast path says that every character is whitespace. *)
Lemma is_empty_file_all (code : string) :
  is_empty_file code = Str.all Char.isspace code.
Proof.
  unfold is_empty_file, Str.strip.
  destruct code as [|a s]; [done|].
  change (negb (Str.truthy (String a s))) with false. rewrite orb_false_l.
  destruct (lstrip_cases (String a s)) as [[-> ->]|(c & t & -> & Hc & ->)].
  - done.
  - apply rstrip_nonspace with (t := t) in Hc.
    destruct (Str.rstrip (String c t)); done.
Qed.

Lemma all_isspace_nonempty (code : string) :
  code <> EmptyString -> Str.all Char.isspace code = false ->
  is_empty_file code = false.
Proof. intros _ H. by rewrite is_empty_file_all. Qed.

(** ** The scorer *)

Lemma score_bounds (n : nat) : (1 <= score n)%Q /\ (score n <= 10)%Q.
Proof.
  unfold score. split.
  - apply Q.le_max_l.
  - apply Q.max_lub; [done|].
    assert (0 <= inject_Z (Z.of_nat n))%Q
      by (change 0%Q with (inject_Z 0); rewrite <- Zle_Qle; lia).
    lra.
Qed.

Lemma score_ten (n : nat) : (score n == 10)%Q -> n = 0%nat.
Proof.
  unfold score. intros H.
  destruct n as [|n]; [done|exfalso].
  assert (1 <= inject_Z (Z.of_nat (S n)))%Q
    by (change 1%Q with (inject_Z 1); rewrite <- Zle_Qle; lia).
  destruct (Q.max_spec 1 (10 - inject_Z (Z.of_nat (S n)) * (1 # 2)))
    as [[_ E]|[_ E]]; rewrite E in H; lra.
Qed.

(** ** The orchestrator: score and fast path *)

Lemma analyze_code_nonempty (rnd : Q) (code filename file_extension depth : string) :
  is_empty_file code = false ->
  analyze_code rnd code filename file_extension depth =
  let found :=
    (_pattern_analysis code file_extension
     ++ _simulated_ai_analysis code file_extension)%list in
  let found :=
    if Qltb rnd threshold && String.eqb depth "Deep"
    then (found ++ [maintainability_issue])%list else found in
  Results (score (length found)) found
          (_generate_suggestions code found file_extension).
Proof. intros H. unfold analyze_code. by rewrite H. Qed.

Lemma analyze_code_score (rnd : Q) (code filename file_extension depth : string) :
  is_empty_file code = false ->
  quality_score (analyze_code rnd code filename file_extension depth)
  = score (length (issues (analyze_code rnd code filename file_extension depth))).
Proof. intros H. by rewrite analyze_code_nonempty. Qed.

(** C1: for a text that is neither empty nor all whitespace, and a depth
    other than "Deep", the quality score is
    [max(1.0, 10.0 - 0.5 * n)], [n] the number of returned issues. *)
Theorem C1_quality_score_formula
    (rnd : Q) (code filename file_extension depth : string) :
  code <> EmptyString ->
  Str.all Char.isspace code = false ->
  depth <> "Deep" ->
  (quality_score (analyze_code rnd code filename file_extension depth)
   == Qmax 1 (10 - (1 # 2) * inject_Z (Z.of_nat (length
        (issues (analyze_code rnd code filename file_extension depth))))))%Q.
Proof.
  intros Hne Hws _.
  rewrite analyze_code_score by by apply all_isspace_nonempty.
  unfold score. apply Q.max_compat; [reflexivity|]. ring.
Qed.

Lemma C1_witness :
  (quality_score (analyze_code 0 password_line "app.py" "py" "Standard")
   == Qmax 1 (10 - (1 # 2) * inject_Z (Z.of_nat (length
        (issues (analyze_code 0 password_line "app.py" "py" "Standard"))))))%Q.
Proof.
  apply (C1_quality_score_formula 0 password_line "app.py" "py" "Standard").
  - discriminate.
  - reflexivity.
  - discriminate.
Defined.

(** C2: for a text that is empty or all whitespace, whatever the file
    name, the language key and the depth, the result is the fixed one:
    score 5.0, the single issue of type "Empty File", no suggestion.
    Neither the scanner nor the heuristics contribute to it. *)
Theorem C2_empty_file
    (rnd : Q) (code filename file_extension depth : string) :
  Str.all Char.isspace code = true ->
  quality_score (analyze_code rnd code filename file_extension depth) = 5%Q
  /\ issues (analyze_code rnd code filename file_extension depth)
     = [empty_file_issue]
  /\ type empty_file_issue = "Empty File"
  /\ suggestions (analyze_code rnd code filename file_extension depth) = [].
Proof.
  intros H. unfold analyze_code. by rewrite is_empty_file_all, H.
Qed.

Lemma C2_witness :
  quality_score
    (analyze_code 0 (indent 3 " " nl) "blank.js" "js" "Deep") = 5%Q
  /\ issues (analyze_code 0 (indent 3 " " nl) "blank.js" "js" "Deep")
     = [empty_file_issue]
  /\ type empty_file_issue = "Empty File"
  /\ suggestions (analyze_code 0 (indent 3 " " nl) "blank.js" "js" "Deep")
     = [].
Proof.
  apply (C2_empty_file 0 (indent 3 " " nl) "blank.js" "js" "Deep").
  reflexivity.
Defined.

(** C3: on every input, the random path included, the quality score lies
    between 1.0 and 10.0, and it is 10.0 only when no issue is returned. *)
Theorem C3_quality_score_range
    (rnd : Q) (code filename file_extension depth : string) :
  (1 <= quality_score (analyze_code rnd code filename file_extension depth))%Q
  /\ (quality_score (analyze_code rnd code filename file_extension depth)
      <= 10)%Q
  /\ ((quality_score (analyze_code rnd code filename file_extension depth)
       == 10)%Q ->
      issues (analyze_code rnd code filename file_extension depth) = []).
Proof.
  destruct (is_empty_file code) eqn:He.
  - unfold analyze_code. rewrite He. simpl.
    split; [done|]. split; [done|]. intros H. by apply Qeq_bool_iff in H.
  - rewrite analyze_code_score by done.
    split; [apply score_bounds|]. split; [apply score_bounds|].
    intros H. apply score_ten in H. by apply nil_length_inv.
Qed.

(** ** Deduplication *)

Section Deduplication.
Implicit Types (l u k : list suggestion_t) (seen : gset string).
Implicit Types (x : suggestion_t).

Lemma dedup_step_seen u seen x :
  suggestion x ∈ seen -> dedup_step (u, seen) x = (u, seen).
Proof. intros H. unfold dedup_step. simpl. by rewrite bool_decide_eq_true_2. Qed.

Lemma dedup_step_new u seen x :
  suggestion x ∉ seen ->
  dedup_step (u, seen) x = ((u ++ [x])%list, {[suggestion x]} ∪ seen).
Proof. intros H. unfold dedup_step. simpl. by rewrite bool_decide_eq_false_2. Qed.

(** The loop invariant: [seen] holds the advice texts of [u], which are
    pairwise distinct.  From such a state the loop appends to [u] the
    first occurrences of the texts not seen yet, in their order. *)
Lemma dedup_fold l : forall u seen,
  (forall t, t ∈ seen <-> t ∈ suggestion <$> u) ->
  NoDup (suggestion <$> u) ->
  exists k,
    (fold_left dedup_step l (u, seen)).1 = (u ++ k)%list
    /\ NoDup (suggestion <$> (u ++ k)%list)
    /\ k `sublist_of` l
    /\ (forall x, x ∈ k <-> first_occurrence seen x l).
Proof.
  induction l as [|y l IH]; intros u seen Hinv Hnd; simpl.
  - exists []. rewrite app_nil_r. split_and!; [done..|].
    intros x. split; [by intros ?%elem_of_nil|].
    intros (pre & post & E & _). by destruct pre.
  - destruct (decide (suggestion y ∈ seen)) as [Hy|Hy].
    + rewrite dedup_step_seen by done.
      destruct (IH u seen Hinv Hnd) as (k & Ek & Hk & Hsub & Hfirst).
      exists k. split_and!; [done|done|by apply sublist_cons|].
      intros x. rewrite Hfirst. split.
      * intros (pre & post & -> & Hpre & Hx).
        exists (y :: pre), post. split_and!; [done| |done].
        rewrite fmap_cons, not_elem_of_cons. split; [|done].
        intros E. by rewrite E in Hx.
      * intros (pre & post & E & Hpre & Hx).
        destruct pre as [|z pre]; simplify_eq/=; [done|].
        exists pre, post. split_and!; [done| |done].
        rewrite not_elem_of_cons in Hpre. tauto.
    + rewrite dedup_step_new by done.
      destruct (IH (u ++ [y])%list ({[suggestion y]} ∪ seen))
        as (k & Ek & Hk & Hsub & Hfirst).
      { intros t. rewrite fmap_app, elem_of_app, elem_of_union, Hinv.
        simpl. rewrite list_elem_of_singleton, elem_of_singleton. tauto. }
      { rewrite fmap_app. apply NoDup_app. split_and!; [done| |].
        - intros t Ht. simpl. rewrite list_elem_of_singleton. intros ->.
          by apply Hy, Hinv.
        - apply NoDup_singleton. }
      rewrite <- (assoc_L (++)) in Ek, Hk. simpl in Ek, Hk.
      exists (y :: k). split_and!; [done|done|by apply sublist_skip|].
      intros x. rewrite elem_of_cons, Hfirst. split.
      * intros [->|(pre & post & -> & Hpre & Hx)].
        -- exists [], l. split_and!; [done| |done]. simpl. apply not_elem_of_nil.
        -- rewrite not_elem_of_union, not_elem_of_singleton in Hx.
           exists (y :: pre), post. split_and!; [done| |tauto].
           rewrite fmap_cons, not_elem_of_cons. tauto.
      * intros (pre & post & E & Hpre & Hx).
        destruct pre as [|z pre]; simplify_eq/=; [by left|right].
        rewrite not_elem_of_cons in Hpre.
        exists pre, post. split_and!; [done|tauto|].
        rewrite not_elem_of_union, not_elem_of_singleton. tauto.
Qed.

(** What [deduplicate] returns: pairwise distinct advice texts, a
    sublist of its argument, made of the first occurrences. *)
Lemma deduplicate_spec l :
  NoDup (suggestion <$> deduplicate l)
  /\ deduplicate l `sublist_of` l
  /\ (forall x, x ∈ deduplicate l <-> first_occurrence ∅ x l).
Proof.
  destruct (dedup_fold l [] ∅) as (k & Ek & Hk & Hsub & Hfirst).
  - intros t. simpl. rewrite elem_of_nil. set_solver.
  - apply NoDup_nil_2.
  - unfold deduplicate. rewrite Ek. done.
Qed.

End Deduplication.

Section DeduplicationPlaces.
Implicit Types (l u pre : list suggestion_t) (seen : gset string).

(** The loop invariant with places: [seen] holds the advice texts of the
    entries gone through, [pre]. *)
Lemma dedup_fold_places l : forall pre u seen,
  (forall t, t ∈ seen <-> t ∈ suggestion <$> pre) ->
  (fold_left dedup_step l (u, seen)).1
  = (u ++ omap (first_at (pre ++ l)) (seq (length pre) (length l)))%list.
Proof.
  induction l as [|y l IH]; intros pre u seen Hseen.
  - simpl. by rewrite app_nil_r.
  - cbn [fold_left length seq].
    change (omap ?f (?a :: ?r))
      with (match f a with Some b => b :: omap f r | None => omap f r end).
    assert (Hat : first_at (pre ++ y :: l) (length pre)
                  = if bool_decide (suggestion y ∈ suggestion <$> pre)
                    then None else Some y).
    { unfold first_at. rewrite list_lookup_middle by done.
      by rewrite take_app_length. }
    rewrite Hat.
    assert (Hnext : forall seen',
      (forall t, t ∈ seen' <-> t ∈ suggestion <$> (pre ++ [y])%list) ->
      forall u',
      (fold_left dedup_step l (u', seen')).1
      = (u' ++ omap (first_at (pre ++ y :: l))
                 (seq (S (length pre)) (length l)))%list).
    { intros seen' Hseen' u'. rewrite (IH (pre ++ [y])%list u' seen' Hseen').
      rewrite <- (assoc_L (++)). simpl. rewrite length_app. simpl.
      by rewrite Nat.add_1_r. }
    destruct (decide (suggestion y ∈ seen)) as [Hy|Hy].
    + rewrite dedup_step_seen by done.
      rewrite bool_decide_eq_true_2 by by apply Hseen.
      apply Hnext. intros t. rewrite fmap_app, elem_of_app, <- Hseen. simpl.
      rewrite list_elem_of_singleton. split; [tauto|]. by intros [?| ->].
    + rewrite dedup_step_new by done.
      rewrite bool_decide_eq_false_2 by (by rewrite <- Hseen).
      rewrite Hnext.
      * by rewrite <- (assoc_L (++)).
      * intros t. rewrite fmap_app, elem_of_app, elem_of_union, <- Hseen.
        simpl. rewrite list_elem_of_singleton, elem_of_singleton. tauto.
Qed.

Lemma deduplicate_first_occurrences l : deduplicate l = first_occurrences l.
Proof.
  unfold deduplicate, first_occurrences.
  rewrite (dedup_fold_places l [] [] ∅); [done|].
  intros t. simpl. rewrite elem_of_nil. set_solver.
Qed.

End DeduplicationPlaces.

(** C6: no two of the returned suggestions have the same advice text, for
    every input; and for every list of issues [_generate_suggestions]
    returns the list built from the issues with, for every advice text,
    the entry at its first place kept and the entries at later places
    dropped, the kept ones in their order. *)
Theorem C6_suggestions_unique
    (rnd : Q) (code filename file_extension depth : string)
    (found : list issue) :
  NoDup (suggestion <$>
         suggestions (analyze_code rnd code filename file_extension depth))
  /\ NoDup (suggestion <$> _generate_suggestions code found file_extension)
  /\ _generate_suggestions code found file_extension
     = first_occurrences (raw_suggestions found file_extension)
  /\ _generate_suggestions code found file_extension
     `sublist_of` raw_suggestions found file_extension.
Proof.
  split_and!.
  - unfold analyze_code. destruct (is_empty_file code); simpl.
    + apply NoDup_nil_2.
    + apply deduplicate_spec.
  - apply deduplicate_spec.
  - apply deduplicate_first_occurrences.
  - apply deduplicate_spec.
Qed.

(** Duplicates arise when two issue types contain the same template key:
    the later entry is the one dropped. *)
Example repeated_issues_deduplicated :
  (exists sx sy,
     raw_suggestions repeated_issues "py" = [sx; sy; sx]
     /\ _generate_suggestions "" repeated_issues "py" = [sx; sy])
  /\ first_occurrences (raw_suggestions repeated_issues "py")
     = take 2 (raw_suggestions repeated_issues "py").
Proof.
  split; [|by vm_compute].
  eexists _, _. split.
  - by vm_compute.
  - unfold _generate_suggestions. rewrite deduplicate_first_occurrences.
    by vm_compute.
Qed.

(** ** The heuristic analyser *)

Lemma count_type_app (t : string) (l1 l2 : list issue) :
  count_type t (l1 ++ l2) = (count_type t l1 + count_type t l2)%nat.
Proof. unfold count_type. by rewrite filter_app, length_app. Qed.

(** The language-specific checks emit neither of the two structural
    issues. *)
Lemma language_concerns_count (t code file_extension : string)
    (ls : list string) :
  t = "Code Size" \/ t = "Deep Nesting" ->
  count_type t (language_concerns code file_extension ls) = 0%nat.
Proof.
  intros [-> | ->]; unfold language_concerns; repeat case_match; reflexivity.
Qed.

Lemma code_size_count (code file_extension : string) :
  count_type "Code Size" (_simulated_ai_analysis code file_extension)
  = if (200 <? length (Str.split_nl code))%nat then 1%nat else 0%nat.
Proof.
  unfold _simulated_ai_analysis. rewrite !count_type_app.
  rewrite language_concerns_count by by left.
  repeat case_match; reflexivity.
Qed.

Lemma deep_nesting_count (code file_extension : string) :
  count_type "Deep Nesting" (_simulated_ai_analysis code file_extension)
  = if (16 <? max_indentation (Str.split_nl code))%nat then 1%nat else 0%nat.
Proof.
  unfold _simulated_ai_analysis. rewrite !count_type_app.
  rewrite language_concerns_count by by right.
  repeat case_match; reflexivity.
Qed.

(** C7: whatever the language key, the heuristic analyser emits exactly
    one "Code Size" issue for a text of more than 200 lines and none for a
    text of at most 200 lines; so one for 250 lines and none for 150. *)
Theorem C7_large_file (code file_extension : string) :
  ((200 < length (Str.split_nl code))%nat ->
   count_type "Code Size" (_simulated_ai_analysis code file_extension) = 1%nat)
  /\ ((length (Str.split_nl code) <= 200)%nat ->
      count_type "Code Size" (_simulated_ai_analysis code file_extension)
      = 0%nat)
  /\ (length (Str.split_nl code) = 250%nat ->
      count_type "Code Size" (_simulated_ai_analysis code file_extension)
      = 1%nat)
  /\ (length (Str.split_nl code) = 150%nat ->
      count_type "Code Size" (_simulated_ai_analysis code file_extension)
      = 0%nat).
Proof.
  rewrite code_size_count.
  destruct (Nat.ltb_spec 200 (length (Str.split_nl code))); split_and!;
    intros; first [done | lia].
Qed.

Lemma C7_witness :
  count_type "Code Size" (_simulated_ai_analysis (lines_of 250 "x = 1") "py")
  = 1%nat
  /\ count_type "Code Size"
       (_simulated_ai_analysis (lines_of 150 "x = 1") "py") = 0%nat.
Proof.
  split.
  - apply (proj1 (proj2 (proj2 (C7_large_file (lines_of 250 "x = 1") "py")))).
    vm_compute. reflexivity.
  - apply (proj2 (proj2 (proj2 (C7_large_file (lines_of 150 "x = 1") "py")))).
    vm_compute. reflexivity.
Defined.

Lemma lstrip_length (s : string) :
  (String.length (Str.lstrip s) <= String.length s)%nat.
Proof.
  induction s as [|c s IH]; simpl; [done|].
  destruct (Char.isspace c); simpl; lia.
Qed.

(** The indentation of a line is the number of its leading characters that
    [str.lstrip] removes: all of them when the line is all whitespace. *)
Lemma indentation_leading (line : string) :
  indentation line = leading Char.isspace line.
Proof.
  unfold indentation. induction line as [|c s IH]; simpl; [done|].
  destruct (Char.isspace c); simpl; [|lia].
  rewrite <- IH. pose proof (lstrip_length s). lia.
Qed.

Lemma max_indentation_fold (ls : list string) (a : nat) :
  fold_left (fun acc line => Nat.max acc (indentation line)) ls a
  = Nat.max a (foldr (fun line acc => Nat.max (leading Char.isspace line) acc)
                     0%nat ls).
Proof.
  revert a. induction ls as [|l ls IH]; intros a; simpl; [lia|].
  rewrite IH, indentation_leading. lia.
Qed.

Lemma max_indentation_width (code : string) :
  max_indentation (Str.split_nl code) = max_width (leading Char.isspace) code.
Proof. unfold max_indentation, max_width. by rewrite max_indentation_fold. Qed.

Lemma is_space_or_tab_isspace (c : ascii) :
  is_space_or_tab c = true -> Char.isspace c = true.
Proof.
  unfold is_space_or_tab, Char.isspace, Char.between, Char.has_code.
  intros H. apply orb_true_iff in H as [H|H]; apply Nat.eqb_eq in H;
    rewrite H; reflexivity.
Qed.

Lemma leading_space_tab_le (line : string) :
  (leading is_space_or_tab line <= leading Char.isspace line)%nat.
Proof.
  induction line as [|c s IH]; simpl; [done|].
  destruct (is_space_or_tab c) eqn:E; [|lia].
  rewrite (is_space_or_tab_isspace c E). lia.
Qed.

Lemma max_width_space_tab_le (code : string) :
  (max_width (leading is_space_or_tab) code
   <= max_width (leading Char.isspace) code)%nat.
Proof.
  unfold max_width. induction (Str.split_nl code) as [|l ls IH]; simpl; [done|].
  pose proof (leading_space_tab_le l). lia.
Qed.

(** C8, as the code has it: the width of a line is the number of leading
    characters that [str.lstrip] removes, whitespace of any kind and not
    only spaces and tabs.  Whatever the language key, the heuristic
    analyser emits exactly one "Deep Nesting" issue when the greatest
    width exceeds 16, which a greatest space-or-tab width above 16 implies,
    and none when the greatest width is at most 16; so one for 20 and none
    for 8. *)
Theorem C8_deep_nesting_whitespace (code file_extension : string) :
  ((16 < max_width (leading Char.isspace) code)%nat ->
   count_type "Deep Nesting" (_simulated_ai_analysis code file_extension)
   = 1%nat)
  /\ ((16 < max_width (leading is_space_or_tab) code)%nat ->
      count_type "Deep Nesting" (_simulated_ai_analysis code file_extension)
      = 1%nat)
  /\ ((max_width (leading Char.isspace) code <= 16)%nat ->
      count_type "Deep Nesting" (_simulated_ai_analysis code file_extension)
      = 0%nat)
  /\ (max_width (leading is_space_or_tab) code = 20%nat ->
      count_type "Deep Nesting" (_simulated_ai_analysis code file_extension)
      = 1%nat)
  /\ (max_width (leading Char.isspace) code = 8%nat ->
      count_type "Deep Nesting" (_simulated_ai_analysis code file_extension)
      = 0%nat).
Proof.
  rewrite deep_nesting_count, max_indentation_width.
  pose proof (max_width_space_tab_le code).
  destruct (Nat.ltb_spec 16 (max_width (leading Char.isspace) code));
    split_and!; intros; first [done | lia].
Qed.

Lemma C8_witness :
  count_type "Deep Nesting"
    (_simulated_ai_analysis (indent 20 " " "return x") "py") = 1%nat
  /\ count_type "Deep Nesting"
       (_simulated_ai_analysis (indent 8 " " "return x") "py") = 0%nat.
Proof.
  split.
  - apply (proj1 (proj2 (proj2 (proj2
             (C8_deep_nesting_whitespace (indent 20 " " "return x") "py"))))).
    vm_compute. reflexivity.
  - apply (proj2 (proj2 (proj2 (proj2
             (C8_deep_nesting_whitespace (indent 8 " " "return x") "py"))))).
    vm_compute. reflexivity.
Defined.

(** C8, as stated, fails: counting only leading spaces and tabs, the line
    of [form_feed_line] has width 0, and the analyser still reports deep
    nesting. *)
Lemma C8_counterexample :
  (max_width (leading is_space_or_tab) form_feed_line <= 16)%nat
  /\ count_type "Deep Nesting" (_simulated_ai_analysis form_feed_line "py")
     = 1%nat.
Proof. split; [vm_compute; lia | reflexivity]. Qed.

(** ** The matcher *)

Section RunInvariant.

(** A property of the text left that dropping a character preserves. *)
Variable P : string -> Prop.
Hypothesis P_tail : forall c s, P (String c s) -> P s.

Lemma star_loop_preserves step fuel :
  preserves P step ->
  preserves P (fun i s k' => Re.star_loop step k' fuel i s).
Proof.
  intros Hstep. induction fuel as [|fuel IH]; intros i s k' Hs; simpl.
  - intros H. by exists i, s.
  - destruct (step i s _) eqn:E.
    + intros _. apply Hstep in E as (i' & s' & Hs' & E); [|done].
      destruct (i <? i')%nat; [|done]. by apply (IH i' s' k').
    + intros H. by exists i, s.
Qed.

Lemma times_loop_preserves step n :
  preserves P step ->
  forall after i s, P s -> Re.times_loop step after n i s = true ->
    exists i' s', P s' /\ after i' s' = true.
Proof.
  intros Hstep. induction n as [|n IH]; intros after i s Hs; simpl.
  - intros H. by exists i, s.
  - intros H. apply Hstep in H as (i' & s' & Hs' & H); [|done].
    by apply (IH after i' s').
Qed.

Lemma run_preserves (r : Re.regex) : preserves P (Re.run r).
Proof.
  induction r as [| c | p | | | r1 IH1 r2 IH2 | r1 IH1 r2 IH2 | r IH
                 | n r IH | r IH]; intros i s k Hs; simpl.
  - intros H. by exists i, s.
  - destruct s as [|a s]; [done|]. destruct (Ascii.eqb a c); [|done].
    intros H. exists (S i), s. eauto.
  - destruct s as [|a s]; [done|]. destruct (p a); [|done].
    intros H. exists (S i), s. eauto.
  - destruct (i =? 0)%nat; [|done]. intros H. by exists i, s.
  - destruct (Re.at_end s); [|done]. intros H. by exists i, s.
  - intros H. apply IH1 in H as (i' & s' & Hs' & H); [|done].
    by apply IH2 in H.
  - destruct (Re.run r1 i s k) eqn:E; [intros _; by apply IH1 in E|].
    intros H. by apply IH2 in H.
  - intros H.
    by apply (star_loop_preserves (Re.run r) (String.length s) IH) in H.
  - intros H. apply (times_loop_preserves (Re.run r) n IH) in H
      as (i' & s' & Hs' & H); [|done].
    by apply (star_loop_preserves (Re.run r) (String.length s') IH) in H.
  - destruct (Re.run r i s _); [done|]. intros H. by exists i, s.
Qed.

(** In a sequence, the last pattern is run on a text that satisfies [P]. *)
Lemma run_seq_last (rs : list Re.regex) (r : Re.regex) :
  forall i s k, P s -> Re.run (Re.seq (rs ++ [r])%list) i s k = true ->
    exists i' s', P s' /\ Re.run r i' s' k = true.
Proof.
  induction rs as [|r0 rs IH]; intros i s k Hs; simpl.
  - intros H. by exists i, s.
  - destruct (rs ++ [r])%list as [|r1 rest] eqn:E; [by destruct rs|].
    simpl. intros H. apply run_preserves in H as (i' & s' & Hs' & H); [|done].
    by apply IH in H.
Qed.

End RunInvariant.

(** *** The fuel of the star loop is enough *)

Lemma handed_over_refl (i : nat) (s : string) : handed_over i s i s.
Proof. by split. Qed.

Lemma handed_over_trans (i1 i2 i3 : nat) (s1 s2 s3 : string) :
  handed_over i1 s1 i2 s2 -> handed_over i2 s2 i3 s3 ->
  handed_over i1 s1 i3 s3.
Proof. unfold handed_over. lia. Qed.

Lemma star_loop_local step fuel :
  local_step step ->
  local_step (fun i s k => Re.star_loop step k fuel i s).
Proof.
  intros Hstep. induction fuel as [|fuel IH]; intros i s k1 k2 Hk; simpl.
  - apply Hk, handed_over_refl.
  - rewrite (Hk i s) by apply handed_over_refl.
    erewrite Hstep; [done|]. intros i' s' H'. simpl.
    destruct (i <? i')%nat; [|done].
    apply IH. intros i'' s'' H''. eapply Hk, handed_over_trans; done.
Qed.

Lemma times_loop_local step n :
  local_step step ->
  forall i s after1 after2,
    (forall i' s', handed_over i s i' s' -> after1 i' s' = after2 i' s') ->
    Re.times_loop step after1 n i s = Re.times_loop step after2 n i s.
Proof.
  intros Hstep. induction n as [|n IH]; intros i s a1 a2 Ha; simpl.
  - apply Ha, handed_over_refl.
  - apply Hstep. intros i' s' H'. apply IH.
    intros i'' s'' H''. eapply Ha, handed_over_trans; done.
Qed.

Lemma run_local (r : Re.regex) : local_step (Re.run r).
Proof.
  induction r as [| c | p | | | r1 IH1 r2 IH2 | r1 IH1 r2 IH2 | r IH
                 | n r IH | r IH]; intros i s k1 k2 Hk; simpl.
  - apply Hk, handed_over_refl.
  - destruct s as [|a s]; [done|]. destruct (Ascii.eqb a c); [|done].
    apply Hk. unfold handed_over. simpl. lia.
  - destruct s as [|a s]; [done|]. destruct (p a); [|done].
    apply Hk. unfold handed_over. simpl. lia.
  - by rewrite (Hk i s) by apply handed_over_refl.
  - by rewrite (Hk i s) by apply handed_over_refl.
  - apply IH1. intros i' s' H'. apply IH2.
    intros i'' s'' H''. eapply Hk, handed_over_trans; done.
  - by rewrite (IH1 i s k1 k2), (IH2 i s k1 k2).
  - by apply (star_loop_local (Re.run r) (String.length s) IH).
  - apply (times_loop_local (Re.run r) n IH). intros i' s' H'.
    apply (star_loop_local (Re.run r) (String.length s') IH).
    intros i'' s'' H''. eapply Hk, handed_over_trans; done.
  - by rewrite (Hk i s) by apply handed_over_refl.
Qed.

Lemma star_loop_strict step fuel :
  local_step step -> strict_step step ->
  strict_step (fun i s k => Re.star_loop step k fuel i s).
Proof.
  intros Hlocal Hstep. induction fuel as [|fuel IH]; intros i s; simpl; [done|].
  erewrite Hlocal; [by rewrite Hstep|].
  intros i' s' _. simpl. destruct (i <? i')%nat; [apply IH|done].
Qed.

Lemma run_strict (r : Re.regex) : strict_step (Re.run r).
Proof.
  induction r as [| c | p | | | r1 IH1 r2 IH2 | r1 IH1 r2 IH2 | r IH
                 | n r IH | r IH]; intros i s; simpl.
  - done.
  - destruct s as [|a s]; [done|]. by destruct (Ascii.eqb a c).
  - destruct s as [|a s]; [done|]. by destruct (p a).
  - by destruct (i =? 0)%nat.
  - by destruct (Re.at_end s).
  - erewrite run_local; [apply IH1|]. intros i' s' _. apply IH2.
  - by rewrite IH1, IH2.
  - by apply (star_loop_strict (Re.run r) (String.length s) (run_local r) IH).
  - revert i s. induction n as [|n IHn]; intros i s; simpl.
    + by apply (star_loop_strict (Re.run r) (String.length s) (run_local r) IH).
    + erewrite run_local; [apply IH|]. intros i' s' _. apply IHn.
  - by destruct (Re.run r i s _).
Qed.

(** Any fuel from the length of the text on gives the star loop the same
    result: the loop of [r*] is never cut short. *)
Lemma star_loop_fuel step (k : Re.cont) :
  local_step step -> strict_step step ->
  forall fuel1 fuel2 i s,
    (String.length s <= fuel1)%nat -> (String.length s <= fuel2)%nat ->
    Re.star_loop step k fuel1 i s = Re.star_loop step k fuel2 i s.
Proof.
  intros Hlocal Hstrict.
  assert (Hzero : forall fuel i s, String.length s = 0%nat ->
            Re.star_loop step k fuel i s = k i s).
  { intros [|fuel] i s Hs; simpl; [done|].
    erewrite Hlocal; [by rewrite Hstrict|].
    intros i' s' [H1 H2]. simpl.
    destruct (Nat.ltb_spec i i'); [lia|done]. }
  induction fuel1 as [|fuel1 IH]; intros fuel2 i s H1 H2.
  - rewrite !Hzero by lia. done.
  - destruct fuel2 as [|fuel2]; [rewrite !Hzero by lia; done|]. simpl.
    erewrite Hlocal; [done|]. intros i' s' [H3 H4]. simpl.
    destruct (Nat.ltb_spec i i'); [|done]. apply IH; lia.
Qed.

Lemma run_star_fuel (r : Re.regex) (fuel i : nat) (s : string) (k : Re.cont) :
  (String.length s <= fuel)%nat ->
  Re.run (Re.Star r) i s k = Re.star_loop (Re.run r) k fuel i s.
Proof.
  intros H. simpl. apply star_loop_fuel;
    [apply run_local | apply run_strict | done | done].
Qed.

Lemma single_line_tail (c : ascii) (s : string) :
  single_line (String c s) -> single_line s.
Proof. unfold single_line. simpl. by intros [_ H]%orb_false_iff. Qed.

(** A repetition that starts with a literal character, needed at least
    once, only matches a text that starts with this character. *)
Lemma run_at_least_first (n : nat) (c : ascii) (r : Re.regex)
    (i : nat) (s : string) (k : Re.cont) :
  Re.run (Re.AtLeast (S n) (Re.Seq (Re.Chr c) r)) i s k = true ->
  exists s', s = String c s'.
Proof.
  simpl. destruct s as [|a s]; [done|].
  destruct (Ascii.eqb_spec a c) as [->|]; [|done]. by exists s.
Qed.

(** The python rule for complex functions matches nowhere in a text
    without line feed. *)
Lemma python_complex_function_run (i : nat) (s : string) (k : Re.cont) :
  single_line s -> Re.run python_complex_function i s k = false.
Proof.
  intros Hs. apply not_true_is_false. intros H.
  change python_complex_function with
    (Re.seq ([Re.lit "def"; Re.plus Re.space; Re.plus Re.word;
              Re.Star Re.space; Re.Chr "("; Re.Star (Re.none_of ")");
              Re.Chr ")"; Re.Chr ":"; Re.Star Re.space]
             ++ [twenty_indented_lines])%list) in H.
  apply (run_seq_last single_line single_line_tail) in H
    as (i' & s' & Hs' & H); [|done].
  apply run_at_least_first in H as [s'' ->].
  unfold single_line in Hs'. simpl in Hs'. done.
Qed.

Lemma python_complex_function_search (i : nat) (s : string) :
  single_line s -> Re.search_from python_complex_function i s = false.
Proof.
  revert i. induction s as [|c s IH]; intros i Hs; cbn [Re.search_from];
    rewrite python_complex_function_run by done; [done|].
  apply IH. by apply single_line_tail in Hs.
Qed.

(** [split('\n')] leaves no line feed in the lines. *)
Lemma split_nl_single_line (code : string) :
  Forall single_line (Str.split_nl code).
Proof.
  induction code as [|c s IH]; simpl.
  - by repeat constructor.
  - destruct (Char.has_code 10 c) eqn:Hc.
    + by constructor.
    + destruct (Str.split_nl s) as [|l ls]; inversion IH; subst;
        constructor; try done; unfold single_line; simpl;
        (destruct (Ascii.eqb_spec c Char.newline) as [->|]; [done|]);
        done.
Qed.

(** ** The line scanner *)

Lemma matching_lines_none (pattern : Re.regex) (ls : list string) :
  Forall (fun line => Re.search pattern line = false) ls ->
  forall i, matching_lines pattern i ls = [].
Proof.
  induction 1 as [|line ls Hline _ IH]; intros i; simpl; [done|].
  by rewrite Hline.
Qed.

Lemma issue_descriptions_keys (matches : list nat) (name : string) :
  is_Some (issue_descriptions matches !! name) -> name ∈ described_rules.
Proof.
  intros [d H]. apply elem_of_list_to_map_2 in H.
  unfold described_rules.
  repeat (apply elem_of_cons in H as [H|H];
          [injection H as -> _; set_solver|]).
  by apply elem_of_nil in H.
Qed.

(** An issue of the scanner has the type of a described rule, and lists
    the lines the rule matched. *)
Lemma rule_issue_some (ls : list string) (name : string) (pattern : Re.regex)
    (i : issue) :
  rule_issue ls (name, pattern) = Some i ->
  type i = rule_type name
  /\ name ∈ described_rules
  /\ lines i = Some (matching_lines pattern 0 ls)
  /\ matching_lines pattern 0 ls <> [].
Proof.
  unfold rule_issue.
  destruct (matching_lines pattern 0 ls) as [|n ms] eqn:Em; [done|].
  destruct (issue_descriptions (n :: ms) !! name) as [d|] eqn:Ed; [|done].
  intros [= <-]. split_and!; [done| |done|done].
  eapply issue_descriptions_keys. by rewrite Ed.
Qed.

Lemma pattern_analysis_elem (code file_extension : string) (i : issue) :
  i ∈ _pattern_analysis code file_extension ->
  exists name pattern,
    (name, pattern) ∈ select_patterns file_extension
    /\ rule_issue (Str.split_nl code) (name, pattern) = Some i.
Proof.
  unfold _pattern_analysis. rewrite list_elem_of_omap.
  intros ([name pattern] & Hin & H). by exists name, pattern.
Qed.

(** The scanner never makes an issue of one of the types the heuristics
    and the orchestrator make. *)
Lemma pattern_analysis_type (code file_extension : string) (i : issue) :
  i ∈ _pattern_analysis code file_extension ->
  type i ∈ rule_type <$> described_rules.
Proof.
  intros (name & pattern & _ & H)%pattern_analysis_elem.
  apply rule_issue_some in H as (-> & Hname & _).
  by apply list_elem_of_fmap_2.
Qed.

Lemma simulated_analysis_type (code file_extension : string) (i : issue) :
  i ∈ _simulated_ai_analysis code file_extension ->
  type i ∈ ["Code Size"; "Deep Nesting"; "Exception Handling";
            "Type Comparison"; "Main Method Size"].
Proof.
  unfold _simulated_ai_analysis, language_concerns.
  repeat case_match; simpl; intros Hi;
    repeat (apply elem_of_cons in Hi as [->|Hi]; [simpl; set_solver|]);
    by apply elem_of_nil in Hi.
Qed.

(** C10: with the python table, the rule for complex functions never
    fires.  Its pattern needs twenty repetitions that each start with a
    line feed, and the scanner applies it to the lines that
    [split] returns, none of which holds a line feed: the pattern is found
    in no line, the rule contributes no issue, and no issue of the scanner
    has the type "Complex Function". *)
Theorem C10_complex_function_never_fires (code : string) :
  Forall (fun line => Re.search python_complex_function line = false)
         (Str.split_nl code)
  /\ rule_issue (Str.split_nl code)
        ("complex_function", python_complex_function) = None
  /\ Forall (fun i => type i <> "Complex Function")
        (_pattern_analysis code "python").
Proof.
  assert (Hlines : Forall
            (fun line => Re.search python_complex_function line = false)
            (Str.split_nl code)).
  { eapply Forall_impl; [apply split_nl_single_line|].
    intros line Hline. by apply python_complex_function_search. }
  assert (Hrule : rule_issue (Str.split_nl code)
            ("complex_function", python_complex_function) = None).
  { unfold rule_issue. by rewrite matching_lines_none. }
  split_and!; [done..|].
  apply Forall_forall. intros i (name & pattern & Hin & H)%pattern_analysis_elem.
  change (select_patterns "python") with python_patterns in Hin.
  unfold python_patterns in Hin.
  repeat (apply elem_of_cons in Hin as [Hin|Hin];
          [injection Hin as -> ->;
           first [ by rewrite Hrule in H
                 | apply rule_issue_some in H as (-> & _); by vm_compute ]|]).
  by apply elem_of_nil in Hin.
Qed.

(** ** Determinism *)

Lemma rule_types_not_maintainability (t : string) :
  t ∈ rule_type <$> described_rules -> t <> "Code Maintainability".
Proof.
  intros Ht. vm_compute in Ht.
  repeat (apply elem_of_cons in Ht as [->|Ht]; [done|]).
  by apply elem_of_nil in Ht.
Qed.

Lemma found_not_maintainability (code file_extension : string) :
  Forall (fun i => type i <> "Code Maintainability")
         (_pattern_analysis code file_extension
          ++ _simulated_ai_analysis code file_extension)%list.
Proof.
  apply Forall_app. split; apply Forall_forall; intros i Hi.
  - by apply rule_types_not_maintainability, pattern_analysis_type
      with (code := code) (file_extension := file_extension).
  - apply simulated_analysis_type in Hi.
    repeat (apply elem_of_cons in Hi as [->|Hi]; [done|]).
    by apply elem_of_nil in Hi.
Qed.

(** C9: for a depth other than "Deep", the result does not depend on the
    random draw: two calls on equal inputs return equal results; and no
    issue of type "Code Maintainability" is returned, so the random issue
    is appended only when the depth is "Deep". *)
Theorem C9_deterministic_unless_deep
    (rnd1 rnd2 : Q) (code filename file_extension depth : string) :
  depth <> "Deep" ->
  analyze_code rnd1 code filename file_extension depth
  = analyze_code rnd2 code filename file_extension depth
  /\ Forall (fun i => type i <> "Code Maintainability")
        (issues (analyze_code rnd1 code filename file_extension depth)).
Proof.
  intros Hd. apply String.eqb_neq in Hd.
  unfold analyze_code. rewrite Hd, !andb_false_r.
  split; [done|].
  destruct (is_empty_file code); simpl.
  - by repeat constructor.
  - apply found_not_maintainability.
Qed.

Lemma C9_witness :
  analyze_code 0 secret_and_print "a.py" "python" "Standard"
  = analyze_code (1 # 2) secret_and_print "a.py" "python" "Standard"
  /\ Forall (fun i => type i <> "Code Maintainability")
        (issues (analyze_code 0 secret_and_print "a.py" "python" "Standard")).
Proof.
  apply (C9_deterministic_unless_deep
           0 (1 # 2) secret_and_print "a.py" "python" "Standard").
  discriminate.
Defined.

(** With the depth "Deep" the draw decides: below the threshold the
    maintainability issue is appended, and it is the last issue. *)
Lemma deep_appends_maintainability
    (rnd : Q) (code filename file_extension : string) :
  is_empty_file code = false ->
  Qltb rnd threshold = true ->
  issues (analyze_code rnd code filename file_extension "Deep")
  = (_pattern_analysis code file_extension
     ++ _simulated_ai_analysis code file_extension
     ++ [maintainability_issue])%list.
Proof.
  intros He Hr. rewrite analyze_code_nonempty by done.
  simpl. rewrite Hr. simpl. by rewrite <- (assoc_L (++)).
Qed.

Example deep_depends_on_draw :
  analyze_code 0 secret_and_print "a.py" "python" "Deep"
  <> analyze_code (1 # 2) secret_and_print "a.py" "python" "Deep".
Proof. vm_compute. discriminate. Qed.

(** ** The scenario and the fallback language *)

(** C4: the code on the scenario of the specification.  Tagged with the
    extension [py], as the callers tag Python files, the snippet is
    scanned with the default table, whose secrets rule does not know
    [api_key]: no issue, score 10, no suggestion.  Tagged with the table
    key [python], the secret is found on line 3 and the score is 9.5, and
    the single suggestion carries no "code_after", since [python] is no
    key of [lang_map]. *)
Theorem C4_scenario_evaluated (rnd : Q) :
  length (Str.split_nl scenario) = 5%nat
  /\ issues (analyze_code rnd scenario "config.py" "py" "Standard") = []
  /\ (quality_score (analyze_code rnd scenario "config.py" "py" "Standard")
      == 10)%Q
  /\ suggestions (analyze_code rnd scenario "config.py" "py" "Standard") = []
  /\ issues (analyze_code rnd scenario "config.py" "python" "Standard")
     = [Issue "Hardcoded Secrets"
              "Potential hardcoded secrets found on lines: 3" (Some [3%nat])]
  /\ (quality_score
        (analyze_code rnd scenario "config.py" "python" "Standard")
      == 19 # 2)%Q
  /\ code_after <$>
       suggestions (analyze_code rnd scenario "config.py" "python" "Standard")
     = [None].
Proof.
  rewrite !analyze_code_nonempty by reflexivity.
  rewrite !andb_false_r. split_and!; by vm_compute.
Qed.

(** C5: the code on an unknown language key.  On [password_line] the keys
    [rb] and [default] give the same issue and the same score, but the
    suggestion for [rb] has no "code_after" while the one for [default]
    has the Python example: [lang_map.get] returns the string ['default'],
    not the entry stored under it. *)
Theorem C5_unknown_language_evaluated (rnd : Q) :
  issues (analyze_code rnd password_line "a.rb" "rb" "Standard")
  = issues (analyze_code rnd password_line "a.rb" "default" "Standard")
  /\ code_after <$>
       suggestions (analyze_code rnd password_line "a.rb" "rb" "Standard")
     = [None]
  /\ code_after <$>
       suggestions (analyze_code rnd password_line "a.rb" "default" "Standard")
     = [Some (text ["import os"; "api_key = os.environ.get('API_KEY')"])]
  /\ analyze_code rnd password_line "a.rb" "rb" "Standard"
     <> analyze_code rnd password_line "a.rb" "default" "Standard".
Proof.
  rewrite !analyze_code_nonempty by reflexivity.
  rewrite !andb_false_r. split_and!; by vm_compute.
Qed.

(** On an extension that is a key of neither table and names none of the
    three languages of the heuristics, the issues and the score are those
    of the key [default]; only the examples attached to the suggestions
    differ, as [C5_unknown_language_evaluated] shows. *)
Lemma unknown_language_issues
    (rnd : Q) (code filename file_extension depth : string) :
  code_patterns !! file_extension = None ->
  file_extension ∉ ["py"; "js"; "java"] ->
  issues (analyze_code rnd code filename file_extension depth)
  = issues (analyze_code rnd code filename "default" depth)
  /\ quality_score (analyze_code rnd code filename file_extension depth)
     = quality_score (analyze_code rnd code filename "default" depth).
Proof.
  intros Hp Hl.
  assert (Hscan : _pattern_analysis code file_extension
                  = _pattern_analysis code "default").
  { unfold _pattern_analysis, select_patterns. by rewrite Hp. }
  assert (Hsim : _simulated_ai_analysis code file_extension
                 = _simulated_ai_analysis code "default").
  { unfold _simulated_ai_analysis, language_concerns.
    rewrite !not_elem_of_cons in Hl. destruct Hl as (H1 & H2 & H3 & _).
    apply String.eqb_neq in H1, H2, H3. by rewrite H1, H2, H3. }
  unfold analyze_code. rewrite Hscan, Hsim.
  destruct (is_empty_file code); [done|].
  by destruct (Qltb rnd threshold && String.eqb depth "Deep").
Qed.

(** ** The structural issues in the result of [analyze_code] *)

Lemma count_type_absent (t : string) (l : list issue) :
  Forall (fun i => type i <> t) l -> count_type t l = 0%nat.
Proof.
  unfold count_type. induction 1 as [|i l Hi _ IH]; [done|].
  by rewrite filter_cons_False.
Qed.

Lemma pattern_analysis_structural (t code file_extension : string) :
  t = "Code Size" \/ t = "Deep Nesting" ->
  count_type t (_pattern_analysis code file_extension) = 0%nat.
Proof.
  intros Ht. apply count_type_absent, Forall_forall. intros i Hi.
  apply pattern_analysis_type in Hi.
  intros E. rewrite E in Hi.
  destruct Ht as [-> | ->]; vm_compute in Hi;
    repeat (apply elem_of_cons in Hi as [Hi|Hi]; [done|]);
    by apply elem_of_nil in Hi.
Qed.

(** For a text that takes the analysis path, the counts of the two
    structural issues in the result are those of the heuristic analyser. *)
Lemma analyze_code_structural
    (t : string) (rnd : Q) (code filename file_extension depth : string) :
  t = "Code Size" \/ t = "Deep Nesting" ->
  is_empty_file code = false ->
  count_type t (issues (analyze_code rnd code filename file_extension depth))
  = count_type t (_simulated_ai_analysis code file_extension).
Proof.
  intros Ht He. rewrite analyze_code_nonempty by done. simpl.
  assert (count_type t [maintainability_issue] = 0%nat)
    by (by destruct Ht as [-> | ->]).
  destruct (Qltb rnd threshold && String.eqb depth "Deep");
    rewrite !count_type_app, pattern_analysis_structural by done; lia.
Qed.

(** ** The matcher on sample lines *)

Example secret_found :
  Re.search hardcoded_secrets_camel password_line = true.
Proof. reflexivity. Qed.

Example secret_needs_a_value :
  Re.search hardcoded_secrets_camel ("password = " +:+ dq +:+ dq) = false.
Proof. reflexivity. Qed.

Example api_key_unknown_to_default_table :
  Re.search hardcoded_secrets_camel ("api_key = " +:+ dq +:+ "k" +:+ dq)
  = false.
Proof. reflexivity. Qed.

Example long_line_80 :
  Re.search long_lines (indent 80 "a" "") = true
  /\ Re.search long_lines (indent 79 "a" "") = false.
Proof. split; reflexivity. Qed.

Example import_as_backtracks :
  Re.search (Re.seq [Re.lit "import"; Re.plus Re.space; Re.plus Re.word;
                     Re.NotAhead (Re.seq [Re.plus Re.space; Re.lit "as"])])
            "import numpy as np" = true.
Proof. reflexivity. Qed.

Example global_variable_anchored :
  Re.search (Re.seq [Re.Bol; Re.Cls upper_or_underscore;
                     Re.Star (Re.Cls upper_digit_or_underscore);
                     Re.Star Re.space; Re.Chr "="]) "MAX_SIZE = 3" = true
  /\ Re.search (Re.seq [Re.Bol; Re.Cls upper_or_underscore;
                        Re.Star (Re.Cls upper_digit_or_underscore);
                        Re.Star Re.space; Re.Chr "="]) "  MAX_SIZE = 3" = false.
Proof. split; reflexivity. Qed.

Example split_nl_trailing :
  Str.split_nl (text ["a"; "b"; ""]) = ["a"; "b"; ""].
Proof. reflexivity. Qed.

Example rule_type_title : rule_type "hardcoded_secrets" = "Hardcoded Secrets".
Proof. reflexivity. Qed.

Example strip_both_sides : Str.strip "  a b  " = "a b".
Proof. reflexivity. Qed.

(** * Further properties of the code *)

Import Terms.

(** ** The line numbers the scanner reports *)

Lemma matching_lines_elem (pattern : Re.regex) (ls : list string) :
  forall (i n : nat),
    n ∈ matching_lines pattern i ls
    <-> exists j line,
          ls !! j = Some line /\ n = (i + j + 1)%nat
          /\ Re.search pattern line = true.
Proof.
  induction ls as [|l ls IH]; intros i n; simpl.
  - rewrite elem_of_nil. split; [done|]. by intros (j & line & H & _).
  - destruct (Re.search pattern l) eqn:El.
    + rewrite elem_of_cons, IH. split.
      * intros [->|(j & line & Hj & -> & Hs)].
        -- exists 0%nat, l. split_and!; [done|lia|done].
        -- exists (S j), line. split_and!; [done|lia|done].
      * intros ([|j] & line & Hj & -> & Hs); simplify_eq/=.
        -- left. lia.
        -- right. exists j, line. split_and!; [done|lia|done].
    + rewrite IH. split.
      * intros (j & line & Hj & -> & Hs).
        exists (S j), line. split_and!; [done|lia|done].
      * intros ([|j] & line & Hj & -> & Hs); simplify_eq/=.
        -- congruence.
        -- exists j, line. split_and!; [done|lia|done].
Qed.

Lemma matching_lines_above (pattern : Re.regex) (ls : list string) (i : nat) :
  Forall (fun n => (i < n)%nat) (matching_lines pattern i ls).
Proof.
  apply Forall_forall. intros n (j & line & _ & -> & _)%matching_lines_elem.
  lia.
Qed.

Lemma matching_lines_sorted (pattern : Re.regex) (ls : list string) :
  forall i, StronglySorted lt (matching_lines pattern i ls).
Proof.
  induction ls as [|l ls IH]; intros i; simpl; [constructor|].
  destruct (Re.search pattern l); [|apply IH].
  constructor; [apply IH|].
  eapply Forall_impl; [apply (matching_lines_above pattern ls (S i))|].
  simpl. lia.
Qed.

(** X1: every issue of the line scanner lists at least one line; the
    numbers are strictly ascending, so no line is listed twice, and each
    is the 1-based number of a line of the text. *)
Theorem scanner_lines_well_formed (code file_extension : string) :
  Forall (fun i =>
            exists ms, lines i = Some ms /\ ms <> []
              /\ StronglySorted lt ms
              /\ Forall (fun n => is_Some (line_at code n)) ms)
         (_pattern_analysis code file_extension).
Proof.
  apply Forall_forall. intros i (name & pattern & _ & H)%pattern_analysis_elem.
  apply rule_issue_some in H as (_ & _ & Hl & Hne).
  eexists. split_and!; [done|done|apply matching_lines_sorted|].
  apply Forall_forall. intros n (j & line & Hj & -> & _)%matching_lines_elem.
  replace (0 + j + 1)%nat with (S j) by lia. simpl. by rewrite Hj.
Qed.

(** ** One issue per rule *)

Lemma select_patterns_cases (file_extension : string) :
  (file_extension = "python" /\ select_patterns file_extension = python_patterns)
  \/ (file_extension = "javascript"
      /\ select_patterns file_extension = javascript_patterns)
  \/ (file_extension = "java"
      /\ select_patterns file_extension = java_patterns)
  \/ ((file_extension ∉ ["python"; "javascript"; "java"])
      /\ select_patterns file_extension = default_patterns).
Proof.
  destruct (decide (file_extension = "python")) as [->|H1]; [by left|].
  destruct (decide (file_extension = "javascript")) as [->|H2];
    [by right; left|].
  destruct (decide (file_extension = "java")) as [->|H3];
    [by right; right; left|].
  right; right; right. split.
  { rewrite !not_elem_of_cons. split_and!; [done..|apply not_elem_of_nil]. }
  unfold select_patterns.
  destruct (code_patterns !! file_extension) as [t|] eqn:E; [|done].
  apply elem_of_list_to_map_2 in E.
  repeat (apply elem_of_cons in E as [E|E]; [congruence|]).
  by apply elem_of_nil in E.
Qed.

Lemma select_patterns_table (file_extension : string) :
  select_patterns file_extension
  ∈ [python_patterns; javascript_patterns; java_patterns; default_patterns].
Proof.
  destruct (select_patterns_cases file_extension)
    as [[_ ->]|[[_ ->]|[[_ ->]|[_ ->]]]]; set_solver.
Qed.

(** The types of the issues follow the order of the table. *)
Lemma scanner_types_sublist (ls : list string)
    (table : list (string * Re.regex)) :
  (type <$> omap (rule_issue ls) table)
  `sublist_of` (rule_type <$> rule_names table).
Proof.
  induction table as [|[name pattern] table IH]; [done|].
  change (omap (rule_issue ls) ((name, pattern) :: table))
    with (match rule_issue ls (name, pattern) with
          | Some i => i :: omap (rule_issue ls) table
          | None => omap (rule_issue ls) table
          end).
  unfold rule_names in *. rewrite !fmap_cons.
  destruct (rule_issue ls (name, pattern)) as [i|] eqn:E.
  - apply rule_issue_some in E as (E & _).
    rewrite fmap_cons, E. by apply sublist_skip.
  - by apply sublist_cons.
Qed.

Lemma table_names_nodup (table : list (string * Re.regex)) :
  table ∈ [python_patterns; javascript_patterns; java_patterns;
           default_patterns] ->
  NoDup (rule_type <$> rule_names table).
Proof.
  intros H.
  repeat (apply elem_of_cons in H as [->|H];
          [apply (bool_decide_unpack _); by vm_compute|]).
  by apply elem_of_nil in H.
Qed.

(** X2: the scanner makes at most one issue of each type, however many
    lines a rule matches. *)
Theorem scanner_one_issue_per_type (code file_extension : string) :
  NoDup (type <$> _pattern_analysis code file_extension).
Proof.
  eapply sublist_NoDup; [|apply scanner_types_sublist].
  apply table_names_nodup, select_patterns_table.
Qed.

Lemma described_rule_has_description (matches : list nat) (name : string) :
  name ∈ described_rules -> is_Some (issue_descriptions matches !! name).
Proof.
  unfold described_rules. intros H.
  repeat (apply elem_of_cons in H as [->|H]; [by eexists|]).
  by apply elem_of_nil in H.
Qed.

Lemma rule_type_inj (name1 name2 : string) :
  name1 ∈ described_rules -> name2 ∈ described_rules ->
  rule_type name1 = rule_type name2 -> name1 = name2.
Proof.
  intros H1 H2 E.
  assert (Hnd : NoDup (rule_type <$> described_rules))
    by (apply (bool_decide_unpack _); by vm_compute).
  apply list_elem_of_lookup in H1 as [i1 H1].
  apply list_elem_of_lookup in H2 as [i2 H2].
  assert (i1 = i2); [|congruence].
  eapply NoDup_lookup; [exact Hnd| |];
    rewrite list_lookup_fmap; [by rewrite H1|by rewrite H2, E].
Qed.

Lemma table_pattern_unique (table : list (string * Re.regex))
    (name : string) (p1 p2 : Re.regex) :
  NoDup (rule_type <$> rule_names table) ->
  (name, p1) ∈ table -> (name, p2) ∈ table -> p1 = p2.
Proof.
  intros Hnd H1 H2.
  apply list_elem_of_lookup in H1 as [i1 H1].
  apply list_elem_of_lookup in H2 as [i2 H2].
  assert (i1 = i2); [|congruence].
  eapply NoDup_lookup; [exact Hnd| |]; unfold rule_names;
    rewrite !list_lookup_fmap; [by rewrite H1|by rewrite H2].
Qed.

(** X3: for a rule of the selected table that has a description, the
    scanner reports line [n] under the rule's issue type exactly when the
    rule's pattern is found in line [n] of the text. *)
Theorem scanner_rule_exact
    (code file_extension name : string) (pattern : Re.regex) (n : nat) :
  (name, pattern) ∈ select_patterns file_extension ->
  name ∈ described_rules ->
  (exists i, i ∈ _pattern_analysis code file_extension
             /\ type i = rule_type name /\ n ∈ issue_lines i)
  <-> (exists line, line_at code n = Some line
                    /\ Re.search pattern line = true).
Proof.
  intros Hin Hname. split.
  - intros (i & (name' & pattern' & Hin' & H)%pattern_analysis_elem & Ht & Hn).
    apply rule_issue_some in H as (Ht' & Hname' & Hl & _).
    assert (name' = name) as ->
      by (apply rule_type_inj; [done|done|congruence]).
    assert (pattern' = pattern) as ->.
    { eapply table_pattern_unique; [|exact Hin'|exact Hin].
      apply table_names_nodup, select_patterns_table. }
    unfold issue_lines in Hn. rewrite Hl in Hn. simpl in Hn.
    apply matching_lines_elem in Hn as (j & line & Hj & -> & Hs).
    exists line. split; [|done].
    by replace (0 + j + 1)%nat with (S j) by lia.
  - intros (line & Hline & Hs).
    destruct n as [|j]; [done|]. simpl in Hline.
    assert (Hn : S j ∈ matching_lines pattern 0 (Str.split_nl code)).
    { apply matching_lines_elem. exists j, line. split_and!; [done|lia|done]. }
    destruct (matching_lines pattern 0 (Str.split_nl code))
      as [|m ms] eqn:Em; [by apply elem_of_nil in Hn|].
    destruct (described_rule_has_description (m :: ms) name Hname)
      as [d Hd].
    exists (Issue (rule_type name) d (Some (m :: ms))).
    split_and!; [|done|done].
    unfold _pattern_analysis. apply list_elem_of_omap.
    exists (name, pattern). split; [done|].
    unfold rule_issue. by rewrite Em, Hd.
Qed.

Lemma scanner_rule_exact_witness :
  (exists i, i ∈ _pattern_analysis secret_and_print "python"
             /\ type i = rule_type "print_statements"
             /\ 2%nat ∈ issue_lines i)
  <-> (exists line, line_at secret_and_print 2 = Some line
                    /\ Re.search (Re.lit "print(") line = true).
Proof.
  apply (scanner_rule_exact secret_and_print "python" "print_statements"
           (Re.lit "print(") 2).
  - change (select_patterns "python") with python_patterns.
    unfold python_patterns. in_list.
  - unfold described_rules. in_list.
Defined.

(** X4: on an extension other than the three table keys, only the three
    rules of the default table run: the scanner makes at most three
    issues, of the types "Hardcoded Secrets", "Todo Comments" and
    "Long Lines". *)
Theorem scanner_default_rules_only (code file_extension : string) :
  file_extension ∉ ["python"; "javascript"; "java"] ->
  Forall (fun i => type i ∈ ["Hardcoded Secrets"; "Todo Comments";
                             "Long Lines"])
         (_pattern_analysis code file_extension)
  /\ (length (_pattern_analysis code file_extension) <= 3)%nat.
Proof.
  intros Hext.
  destruct (select_patterns_cases file_extension)
    as [[-> _]|[[-> _]|[[-> _]|[_ Hsel]]]]; [set_solver..|].
  pose proof (scanner_types_sublist (Str.split_nl code) default_patterns)
    as Hsub.
  unfold _pattern_analysis. rewrite Hsel. split.
  - apply Forall_forall. intros i Hi.
    apply (list_elem_of_fmap_2 type) in Hi.
    eapply elem_of_sublist in Hi; [|exact Hsub]. exact Hi.
  - apply sublist_length in Hsub. by rewrite !length_fmap in Hsub.
Qed.

Lemma scanner_default_rules_only_witness :
  Forall (fun i => type i ∈ ["Hardcoded Secrets"; "Todo Comments";
                             "Long Lines"])
         (_pattern_analysis secret_and_print "py")
  /\ (length (_pattern_analysis secret_and_print "py") <= 3)%nat.
Proof.
  apply (scanner_default_rules_only secret_and_print "py").
  not_in_list.
Defined.

(** ** Rules that are substring tests *)

Lemma append_cons (c : ascii) (s t : string) :
  String c s +:+ t = String c (s +:+ t).
Proof. reflexivity. Qed.

Lemma append_nil (t : string) : EmptyString +:+ t = t.
Proof. reflexivity. Qed.

Lemma startswith_app (p s : string) :
  Str.startswith p s = true <-> exists post, s = p +:+ post.
Proof.
  revert s. induction p as [|a p IH]; intros s; simpl.
  - split; [by exists s|done].
  - destruct s as [|b s]; [split; [done|by intros [? ?]]|].
    destruct (Ascii.eqb_spec a b) as [->|Hab].
    + rewrite IH. split; intros [post E]; exists post;
        rewrite append_cons in *; congruence.
    + split; [done|]. intros [post E]. rewrite append_cons in E. congruence.
Qed.

(** [p in s] holds exactly when [s] is some text, then [p], then some
    text. *)
Lemma contains_app (p s : string) :
  Str.contains p s = true <-> exists pre post, s = pre +:+ p +:+ post.
Proof.
  induction s as [|b s IH]; cbn [Str.contains].
  - destruct (Str.startswith p EmptyString) eqn:E.
    + apply startswith_app in E as [post E]. split; [|done].
      intros _. by exists EmptyString, post.
    + split; [done|]. intros ([|c pre] & post & E'); [|done].
      rewrite append_nil in E'. apply not_true_iff_false in E.
      exfalso. apply E, startswith_app. by exists post.
  - destruct (Str.startswith p (String b s)) eqn:E.
    + apply startswith_app in E as [post E]. split; [|done].
      intros _. by exists EmptyString, post.
    + rewrite IH. split.
      * intros (pre & post & ->). by exists (String b pre), post.
      * intros ([|c pre] & post & E').
        -- rewrite append_nil in E'. apply not_true_iff_false in E.
           exfalso. apply E, startswith_app. by exists post.
        -- rewrite append_cons in E'. injection E' as -> ->.
           by exists pre, post.
Qed.

Lemma run_lit (p : string) (k : Re.cont) :
  (forall i s, k i s = true) ->
  forall i s, Re.run (Re.lit p) i s k = Str.startswith p s.
Proof.
  revert k. induction p as [|a p IH]; intros k Hk i s; [apply Hk|].
  destruct p as [|b p].
  - simpl. destruct s as [|c s]; [done|].
    rewrite Ascii.eqb_sym. destruct (Ascii.eqb a c); [|done].
    rewrite Hk. by destruct s.
  - change (Re.lit (String a (String b p)))
      with (Re.Seq (Re.Chr a) (Re.lit (String b p))).
    cbn [Re.run]. destruct s as [|c s]; [done|].
    cbn [Str.startswith]. rewrite Ascii.eqb_sym.
    destruct (Ascii.eqb a c); [|done]. by apply IH.
Qed.

(** [re.search] with a literal pattern is the substring test. *)
Lemma search_lit (p s : string) : Re.search (Re.lit p) s = Str.contains p s.
Proof.
  unfold Re.search. generalize 0%nat.
  induction s as [|c s IH]; intros i; cbn [Re.search_from Str.contains];
    rewrite run_lit by done; [done|].
  by rewrite IH.
Qed.

Lemma literal_rule_in_table (key name literal : string) :
  (key, name, literal) ∈ literal_rules ->
  (name, Re.lit literal) ∈ select_patterns key /\ name ∈ described_rules.
Proof.
  unfold literal_rules. intros H.
  apply elem_of_cons in H as [H|H].
  { injection H as -> -> ->. split; [|unfold described_rules; in_list].
    change (select_patterns "python") with python_patterns.
    by apply (list_elem_of_lookup_2 _ 1%nat). }
  apply elem_of_cons in H as [H|H].
  { injection H as -> -> ->. split; [|unfold described_rules; in_list].
    change (select_patterns "python") with python_patterns.
    by apply (list_elem_of_lookup_2 _ 6%nat). }
  apply elem_of_cons in H as [H|H].
  { injection H as -> -> ->. split; [|unfold described_rules; in_list].
    change (select_patterns "javascript") with javascript_patterns.
    by apply (list_elem_of_lookup_2 _ 1%nat). }
  apply elem_of_cons in H as [H|H].
  { injection H as -> -> ->. split; [|unfold described_rules; in_list].
    change (select_patterns "javascript") with javascript_patterns.
    by apply (list_elem_of_lookup_2 _ 6%nat). }
  apply elem_of_cons in H as [H|H].
  { injection H as -> -> ->. split; [|unfold described_rules; in_list].
    change (select_patterns "java") with java_patterns.
    by apply (list_elem_of_lookup_2 _ 1%nat). }
  by apply elem_of_nil in H.
Qed.

(** X5: five rules are plain substring tests.  With the python table a
    line is reported under "Print Statements" exactly when it contains
    [print(], and under "Bare Except" exactly when it contains [except:];
    likewise [console.log(] and [eval(] with the javascript table and
    [System.out.println] with the java table: wherever the text occurs in
    the line, inside a comment, a string or a longer name as well. *)
Theorem literal_rules_are_substring_tests
    (key name literal code : string) (n : nat) :
  (key, name, literal) ∈ literal_rules ->
  (exists i, i ∈ _pattern_analysis code key
             /\ type i = rule_type name /\ n ∈ issue_lines i)
  <-> (exists line, line_at code n = Some line
                    /\ Str.contains literal line = true).
Proof.
  intros [Hin Hname]%literal_rule_in_table.
  rewrite (scanner_rule_exact code key name (Re.lit literal) n Hin Hname).
  by setoid_rewrite search_lit.
Qed.

Lemma literal_rules_are_substring_tests_witness :
  (exists i, i ∈ _pattern_analysis secret_and_print "python"
             /\ type i = rule_type "print_statements"
             /\ 2%nat ∈ issue_lines i)
  <-> (exists line, line_at secret_and_print 2 = Some line
                    /\ Str.contains "print(" line = true).
Proof.
  apply (literal_rules_are_substring_tests
           "python" "print_statements" "print(" secret_and_print 2).
  unfold literal_rules. in_list.
Defined.

(** ** The long-line rule *)

Lemma single_line_head (c : ascii) (s : string) :
  single_line (String c s) -> Char.notnewline c = true.
Proof.
  unfold single_line, Char.notnewline, Char.has_code, Char.code. simpl.
  intros [Hc _]%orb_false_iff.
  destruct (Nat.eqb_spec (nat_of_ascii c) 10) as [E|]; [|done].
  apply (f_equal ascii_of_nat) in E. rewrite ascii_nat_embedding in E.
  subst c. done.
Qed.

Lemma single_line_skip (n : nat) (s : string) :
  single_line s -> single_line (skip n s).
Proof.
  revert s. induction n as [|n IH]; intros [|c s] Hs; simpl; try done.
  by apply IH, single_line_tail with c.
Qed.

Lemma skip_length (n : nat) (s : string) :
  String.length (skip n s) = (String.length s - n)%nat.
Proof.
  revert s. induction n as [|n IH]; intros [|c s]; simpl; try done.
Qed.

(** [n] rounds of [.] on a line consume [n] characters, if there are as
    many. *)
Lemma any_times (after : Re.cont) (n : nat) :
  forall i s, single_line s ->
    Re.times_loop (Re.run Re.any) after n i s
    = if (n <=? String.length s)%nat then after (i + n)%nat (skip n s)
      else false.
Proof.
  induction n as [|n IH]; intros i s Hs; simpl.
  - by rewrite Nat.add_0_r.
  - destruct s as [|c s]; [done|].
    rewrite (single_line_head c s Hs). rewrite IH by by apply single_line_tail with c.
    simpl. by rewrite Nat.add_succ_r.
Qed.

(** The greedy [.*] on a line reaches the end of the line. *)
Lemma any_star_to_end (k : Re.cont) :
  (forall i, k i EmptyString = true) ->
  forall s fuel i, single_line s -> (String.length s <= fuel)%nat ->
    Re.star_loop (Re.run Re.any) k fuel i s = true.
Proof.
  intros Hk. induction s as [|c s IH]; intros fuel i Hs Hfuel.
  - destruct fuel; simpl; apply Hk.
  - destruct fuel as [|fuel]; [simpl in Hfuel; lia|]. simpl.
    rewrite (single_line_head c s Hs).
    rewrite (proj2 (Nat.ltb_lt i (S i))) by lia.
    rewrite IH; [done|by apply single_line_tail with c|simpl in Hfuel; lia].
Qed.

Lemma long_lines_run (i : nat) (s : string) :
  single_line s ->
  Re.run long_lines i s (fun _ _ => true)
  = (i =? 0)%nat && (80 <=? String.length s)%nat.
Proof.
  intros Hs.
  change long_lines
    with (Re.Seq Re.Bol (Re.Seq (Re.AtLeast 80 Re.any) Re.Eol)).
  cbn [Re.run]. destruct (i =? 0)%nat; [|done].
  rewrite any_times by done.
  destruct (80 <=? String.length s)%nat; [|done].
  apply any_star_to_end; [done|by apply single_line_skip|done].
Qed.

Lemma long_lines_search_later (i : nat) (s : string) :
  single_line s -> Re.search_from long_lines (S i) s = false.
Proof.
  revert i. induction s as [|c s IH]; intros i Hs; cbn [Re.search_from];
    rewrite long_lines_run by done; [done|].
  simpl. apply IH. by apply single_line_tail with c.
Qed.

(** On a line, the pattern is found exactly from 80 characters on. *)
Lemma long_lines_search (s : string) :
  single_line s ->
  Re.search long_lines s = (80 <=? String.length s)%nat.
Proof.
  intros Hs. unfold Re.search.
  destruct s as [|c s]; cbn [Re.search_from]; rewrite long_lines_run by done;
    [done|].
  rewrite long_lines_search_later by by apply single_line_tail with c.
  by destruct (80 <=? _)%nat.
Qed.

Lemma long_lines_in_table (file_extension : string) :
  ("long_lines", long_lines) ∈ select_patterns file_extension.
Proof.
  destruct (select_patterns_cases file_extension)
    as [[_ ->]|[[_ ->]|[[_ ->]|[_ ->]]]].
  - by apply (list_elem_of_lookup_2 _ 3%nat).
  - by apply (list_elem_of_lookup_2 _ 3%nat).
  - by apply (list_elem_of_lookup_2 _ 3%nat).
  - by apply (list_elem_of_lookup_2 _ 2%nat).
Qed.

Lemma line_at_single_line (code line : string) (n : nat) :
  line_at code n = Some line -> single_line line.
Proof.
  destruct n as [|j]; [done|]. simpl. intros H.
  by eapply (Forall_lookup_1 _ _ _ _ (split_nl_single_line code)).
Qed.

(** X6: whatever the extension, a line is reported under "Long Lines"
    exactly when it has 80 characters or more; a line of exactly 80
    characters is reported, although the description of the issue speaks
    of more than 80. *)
Theorem long_lines_threshold (code file_extension : string) (n : nat) :
  (exists i, i ∈ _pattern_analysis code file_extension
             /\ type i = "Long Lines" /\ n ∈ issue_lines i)
  <-> (exists line, line_at code n = Some line
                    /\ (80 <= String.length line)%nat).
Proof.
  change "Long Lines" with (rule_type "long_lines").
  rewrite (scanner_rule_exact code file_extension "long_lines" long_lines n
             (long_lines_in_table file_extension));
    [|unfold described_rules; in_list].
  split; intros (line & Hline & H); exists line; (split; [done|]);
    rewrite long_lines_search in * by by eapply line_at_single_line.
  - by apply Nat.leb_le.
  - by apply Nat.leb_le.
Qed.

(** ** Rules that never fire *)

Section RunSuffix.

Variable P : string -> Prop.
Hypothesis P_tail : forall c s, P (String c s) -> P s.

(** In a sequence, a non-empty tail of patterns is run on a text that
    satisfies [P]. *)
Lemma run_seq_suffix (rs rest : list Re.regex) :
  rest <> [] ->
  forall i s k, P s -> Re.run (Re.seq (rs ++ rest)%list) i s k = true ->
    exists i' s', P s' /\ Re.run (Re.seq rest) i' s' k = true.
Proof.
  intros Hrest. induction rs as [|r0 rs IH]; intros i s k Hs.
  - intros H. by exists i, s.
  - change ((r0 :: rs) ++ rest)%list with (r0 :: (rs ++ rest))%list.
    destruct (rs ++ rest)%list as [|r1 more] eqn:E.
    { by destruct rs, rest. }
    change (Re.seq (r0 :: r1 :: more)) with (Re.Seq r0 (Re.seq (r1 :: more))).
    cbn [Re.run]. intros H.
    apply (run_preserves P P_tail) in H as (i' & s' & Hs' & H); [|done].
    by apply IH in H.
Qed.

End RunSuffix.

Lemma javascript_complex_function_run (i : nat) (s : string) (k : Re.cont) :
  single_line s -> Re.run javascript_complex_function i s k = false.
Proof.
  intros Hs. apply not_true_is_false. intros H.
  change javascript_complex_function with
    (Re.seq ([Re.lit "function"; Re.plus Re.space; Re.plus Re.word;
              Re.Star Re.space; Re.Chr "("; Re.Star (Re.none_of ")");
              Re.Chr ")"; Re.Star Re.space; Re.Chr "{"]
             ++ [twenty_indented_lines; Re.Chr "}"])%list) in H.
  apply (run_seq_suffix single_line single_line_tail) in H
    as (i' & s' & Hs' & H); [|done|done].
  change (Re.seq [twenty_indented_lines; Re.Chr "}"])
    with (Re.Seq twenty_indented_lines (Re.Chr "}")) in H.
  cbn [Re.run] in H.
  apply run_at_least_first in H as [s'' ->].
  unfold single_line in Hs'. simpl in Hs'. done.
Qed.

Lemma javascript_complex_function_search (i : nat) (s : string) :
  single_line s -> Re.search_from javascript_complex_function i s = false.
Proof.
  revert i. induction s as [|c s IH]; intros i Hs; cbn [Re.search_from];
    rewrite javascript_complex_function_run by done; [done|].
  apply IH. by apply single_line_tail in Hs.
Qed.

Lemma complex_function_rule_silent (code : string) (pattern : Re.regex) :
  pattern = python_complex_function
  \/ pattern = javascript_complex_function ->
  rule_issue (Str.split_nl code) ("complex_function", pattern) = None.
Proof.
  intros Hp. unfold rule_issue. rewrite matching_lines_none; [done|].
  eapply Forall_impl; [apply split_nl_single_line|].
  intros line Hline. destruct Hp as [-> | ->].
  - by apply python_complex_function_search.
  - by apply javascript_complex_function_search.
Qed.

Lemma complex_function_pattern (file_extension : string)
    (pattern : Re.regex) :
  ("complex_function", pattern) ∈ select_patterns file_extension ->
  pattern = python_complex_function
  \/ pattern = javascript_complex_function.
Proof.
  intros Hin.
  pose proof (table_names_nodup _ (select_patterns_table file_extension))
    as Hnd.
  destruct (select_patterns_cases file_extension)
    as [[_ E]|[[_ E]|[[_ E]|[_ E]]]]; rewrite E in Hin, Hnd.
  - left. eapply table_pattern_unique; [exact Hnd|exact Hin|].
    by apply (list_elem_of_lookup_2 _ 4%nat).
  - right. eapply table_pattern_unique; [exact Hnd|exact Hin|].
    by apply (list_elem_of_lookup_2 _ 4%nat).
  - exfalso. apply (list_elem_of_fmap_2 fst) in Hin. vm_compute in Hin.
    repeat (apply elem_of_cons in Hin as [Hin|Hin]; [done|]).
    by apply elem_of_nil in Hin.
  - exfalso. apply (list_elem_of_fmap_2 fst) in Hin. vm_compute in Hin.
    repeat (apply elem_of_cons in Hin as [Hin|Hin]; [done|]).
    by apply elem_of_nil in Hin.
Qed.

Lemma scanner_never_complex (code file_extension : string) :
  Forall (fun i => type i ∉ ["Complex Function"; "Complex Method"])
         (_pattern_analysis code file_extension).
Proof.
  apply Forall_forall.
  intros i (name & pattern & Hin & H)%pattern_analysis_elem.
  pose proof H as (Ht & Hname & _)%rule_issue_some.
  rewrite !not_elem_of_cons. split_and!; [| |apply not_elem_of_nil].
  - intros E. rewrite Ht in E.
    apply (rule_type_inj name "complex_function") in E;
      [|done|unfold described_rules; in_list].
    subst name. apply complex_function_pattern in Hin.
    by rewrite (complex_function_rule_silent code pattern Hin) in H.
  - intros E. rewrite Ht in E.
    apply (list_elem_of_fmap_2 rule_type) in Hname. rewrite E in Hname.
    vm_compute in Hname.
    repeat (apply elem_of_cons in Hname as [Hname|Hname]; [done|]).
    by apply elem_of_nil in Hname.
Qed.

(** ** The issue types of a result *)

Lemma simulated_types_nodup (code file_extension : string) :
  NoDup (type <$> _simulated_ai_analysis code file_extension).
Proof.
  unfold _simulated_ai_analysis, language_concerns.
  repeat case_match; apply (bool_decide_unpack _); by vm_compute.
Qed.

Lemma rule_type_not_heuristic (t : string) :
  t ∈ rule_type <$> described_rules ->
  (t ∉ heuristic_types) /\ t <> "Code Maintainability".
Proof.
  intros Ht. vm_compute in Ht.
  repeat (apply elem_of_cons in Ht as [->|Ht];
          [split; [unfold heuristic_types; not_in_list|done]|]).
  by apply elem_of_nil in Ht.
Qed.

Lemma found_types_nodup (code file_extension : string) :
  NoDup (type <$> (_pattern_analysis code file_extension
                   ++ _simulated_ai_analysis code file_extension)%list).
Proof.
  rewrite fmap_app. apply NoDup_app. split_and!.
  - apply scanner_one_issue_per_type.
  - intros t (i & -> & Hi)%list_elem_of_fmap (j & E & Hj)%list_elem_of_fmap.
    apply pattern_analysis_type, rule_type_not_heuristic in Hi as [Hi _].
    apply simulated_analysis_type in Hj. rewrite <- E in Hj. by apply Hi.
  - apply simulated_types_nodup.
Qed.

(** X7: no issue type occurs twice in a result: each rule and each
    heuristic contributes at most one issue, and their types differ. *)
Theorem issue_types_distinct
    (rnd : Q) (code filename file_extension depth : string) :
  NoDup (type <$>
         issues (analyze_code rnd code filename file_extension depth)).
Proof.
  unfold analyze_code. destruct (is_empty_file code); simpl.
  - apply NoDup_singleton.
  - destruct (Qltb rnd threshold && String.eqb depth "Deep").
    + rewrite fmap_app. apply NoDup_app. split_and!.
      * apply found_types_nodup.
      * intros t (i & -> & Hi)%list_elem_of_fmap. simpl.
        rewrite list_elem_of_singleton.
        pose proof (found_not_maintainability code file_extension) as H.
        by apply (proj1 (Forall_forall _ _) H).
      * apply NoDup_singleton.
    + apply found_types_nodup.
Qed.

(** ** What the suggestions are made of *)

Lemma with_code_after_fields (key lang : string) (template : suggestion_t) :
  issue_summary (with_code_after key lang template) = issue_summary template
  /\ suggestion (with_code_after key lang template) = suggestion template
  /\ code_before (with_code_after key lang template) = code_before template.
Proof. unfold with_code_after. by repeat case_match. Qed.

Lemma issue_suggestion_advice (lang : string) (i : issue) :
  suggestion <$> issue_suggestion lang i = advice_for (type i).
Proof.
  unfold advice_for, issue_suggestion. cbn [type].
  case_bool_decide; [done|].
  destruct (find_template (type i) solutions) as [[key template]|]; [|done].
  cbn [fmap option_fmap option_map]. f_equal.
  by rewrite !(proj1 (proj2 (with_code_after_fields _ _ _))).
Qed.

Lemma raw_suggestions_advice (l : list issue) (file_extension : string) :
  suggestion <$> raw_suggestions l file_extension
  = omap advice_for (type <$> l).
Proof.
  unfold raw_suggestions. induction l as [|i l IH]; [done|].
  rewrite fmap_cons.
  change (omap advice_for (type i :: (type <$> l)))
    with (match advice_for (type i) with
          | Some a => a :: omap advice_for (type <$> l)
          | None => omap advice_for (type <$> l)
          end).
  rewrite <- (issue_suggestion_advice (lang_of file_extension)), <- IH.
  set (f := issue_suggestion (lang_of file_extension)).
  change (omap f (i :: l))
    with (match f i with Some s => s :: omap f l | None => omap f l end).
  by destruct (f i).
Qed.

Lemma injective_on_spec (g : string -> option string) (l : list string)
    (x y a : string) :
  injective_on g l = true ->
  x ∈ l -> y ∈ l -> g x = Some a -> g y = Some a -> x = y.
Proof.
  unfold injective_on. intros H Hx Hy Ex Ey.
  rewrite forallb_forall in H. apply list_elem_of_In in Hx, Hy.
  specialize (H x Hx). rewrite forallb_forall in H. specialize (H y Hy).
  rewrite Ex, Ey, String.eqb_refl in H. simpl in H.
  by apply String.eqb_eq.
Qed.

Lemma omap_nodup (g : string -> option string) (l : list string) :
  (forall x y a, x ∈ l -> y ∈ l -> g x = Some a -> g y = Some a -> x = y) ->
  NoDup l -> NoDup (omap g l).
Proof.
  intros Hinj Hnd. induction Hnd as [|x l Hx Hnd IH]; [constructor|].
  change (omap g (x :: l))
    with (match g x with Some a => a :: omap g l | None => omap g l end).
  assert (Htail : NoDup (omap g l)).
  { apply IH. intros y z a Hy Hz. apply Hinj; by right. }
  destruct (g x) as [a|] eqn:Ex; [|done].
  constructor; [|done].
  intros (y & Hy & Ey)%list_elem_of_omap.
  assert (x = y) by (apply (Hinj x y a); [by left|by right|done|done]).
  by subst y.
Qed.

Lemma advice_for_injective : injective_on advice_for known_types = true.
Proof. by vm_compute. Qed.

Lemma result_issue_cases
    (rnd : Q) (code filename file_extension depth : string) (i : issue) :
  i ∈ issues (analyze_code rnd code filename file_extension depth) ->
  i ∈ _pattern_analysis code file_extension
  \/ i ∈ _simulated_ai_analysis code file_extension
  \/ i = maintainability_issue
  \/ i = empty_file_issue.
Proof.
  unfold analyze_code. destruct (is_empty_file code); cbn [issues].
  - rewrite list_elem_of_singleton. tauto.
  - destruct (Qltb rnd threshold && String.eqb depth "Deep");
      rewrite ?elem_of_app, ?list_elem_of_singleton; tauto.
Qed.

Lemma result_type_known
    (rnd : Q) (code filename file_extension depth : string) (i : issue) :
  i ∈ issues (analyze_code rnd code filename file_extension depth) ->
  type i ∈ known_types.
Proof.
  intros [H|[H|[->| ->]]]%result_issue_cases; unfold known_types;
    rewrite !elem_of_app.
  - left. by apply pattern_analysis_type in H.
  - right; left. by apply simulated_analysis_type in H.
  - right; right. cbn [type maintainability_issue]. in_list.
  - right; right. cbn [type empty_file_issue]. in_list.
Qed.

Section DeduplicationIdentity.
Implicit Types (l u : list suggestion_t) (seen : gset string).

Lemma dedup_fold_nodup l : forall u seen,
  (forall t, t ∈ seen <-> t ∈ suggestion <$> u) ->
  NoDup (suggestion <$> (u ++ l)%list) ->
  (fold_left dedup_step l (u, seen)).1 = (u ++ l)%list.
Proof.
  induction l as [|x l IH]; intros u seen Hinv Hnd; simpl.
  - by rewrite app_nil_r.
  - assert (Hx : suggestion x ∉ seen).
    { rewrite Hinv. rewrite fmap_app, fmap_cons in Hnd.
      apply NoDup_app in Hnd as (_ & Hnd & _).
      intros Hin. apply (Hnd _ Hin). by left. }
    rewrite dedup_step_new by done.
    rewrite IH.
    + by rewrite <- (assoc_L (++)).
    + intros t. rewrite fmap_app, elem_of_app, elem_of_union, Hinv.
      simpl. rewrite list_elem_of_singleton, elem_of_singleton. tauto.
    + by rewrite <- (assoc_L (++)).
Qed.

Lemma deduplicate_nodup l :
  NoDup (suggestion <$> l) -> deduplicate l = l.
Proof.
  intros H. unfold deduplicate. rewrite dedup_fold_nodup; [done| |done].
  intros t. simpl. rewrite elem_of_nil. set_solver.
Qed.

End DeduplicationIdentity.

(** X8: in [analyze_code] the deduplication never drops a suggestion: the
    suggestions returned are the ones the loop over the issues made, one
    for each issue whose type has a template, in the order of the
    issues. *)
Theorem suggestions_are_raw
    (rnd : Q) (code filename file_extension depth : string) :
  suggestions (analyze_code rnd code filename file_extension depth)
  = raw_suggestions
      (issues (analyze_code rnd code filename file_extension depth))
      file_extension.
Proof.
  pose proof (issue_types_distinct rnd code filename file_extension depth)
    as Hnd.
  pose proof (result_type_known rnd code filename file_extension depth)
    as Hknown.
  destruct (is_empty_file code) eqn:He.
  - unfold analyze_code. by rewrite He.
  - rewrite analyze_code_nonempty in * by done. simpl in *.
    unfold _generate_suggestions. apply deduplicate_nodup.
    rewrite raw_suggestions_advice. apply omap_nodup; [|done].
    intros x y a (i & -> & Hi)%list_elem_of_fmap
      (j & -> & Hj)%list_elem_of_fmap.
    apply (injective_on_spec advice_for known_types);
      [apply advice_for_injective|by apply Hknown..].
Qed.

(** X9: no result holds an issue of type "Complex Function" or
    "Complex Method", whatever the text and the extension, and no
    suggestion carries the advice of the template for complex functions:
    the rules need a line feed inside a line, and the java rule has no
    description either. *)
Theorem complex_function_never_reported
    (rnd : Q) (code filename file_extension depth : string) :
  Forall (fun i => type i ∉ ["Complex Function"; "Complex Method"])
         (issues (analyze_code rnd code filename file_extension depth))
  /\ Forall (fun s => suggestion s <> complex_function_advice)
         (suggestions (analyze_code rnd code filename file_extension depth)).
Proof.
  assert (Hissues : Forall
            (fun i => type i ∉ ["Complex Function"; "Complex Method"])
            (issues (analyze_code rnd code filename file_extension depth))).
  { apply Forall_forall. intros i [H|[H|[->| ->]]]%result_issue_cases.
    - by apply (proj1 (Forall_forall _ _)
                  (scanner_never_complex code file_extension)).
    - apply simulated_analysis_type in H.
      repeat (apply elem_of_cons in H as [->|H]; [not_in_list|]).
      by apply elem_of_nil in H.
    - cbn [type maintainability_issue]. not_in_list.
    - cbn [type empty_file_issue]. not_in_list. }
  split; [done|].
  rewrite suggestions_are_raw. apply Forall_forall.
  intros s (i & Hi & Hs)%list_elem_of_omap E.
  pose proof (issue_suggestion_advice (lang_of file_extension) i) as Ha.
  rewrite Hs in Ha. cbn [fmap option_fmap option_map] in Ha. rewrite E in Ha.
  pose proof (result_type_known _ _ _ _ _ _ Hi) as Hk.
  apply (proj1 (Forall_forall _ _) Hissues) in Hi.
  assert (Hall : Forall
            (fun t => t ∈ ["Complex Function"; "Complex Method"]
                      \/ advice_for t <> Some complex_function_advice)
            known_types)
    by (apply (bool_decide_unpack _); by vm_compute).
  destruct (proj1 (Forall_forall _ _) Hall _ Hk) as [H|H]; [done|].
  by apply H.
Qed.

(** ** Which suggestions carry an example *)

Lemma find_template_in (t key : string) (template : suggestion_t)
    (templates : list (string * suggestion_t)) :
  find_template t templates = Some (key, template) ->
  (key, template) ∈ templates.
Proof.
  induction templates as [|[k tpl] rest IH]; simpl; [done|].
  destruct (Str.contains k t).
  - intros [= -> ->]. by left.
  - intros H. right. by apply IH.
Qed.

Lemma issue_suggestion_type (lang : string) (i : issue) :
  issue_suggestion lang i
  = issue_suggestion lang (Issue (type i) EmptyString None).
Proof. reflexivity. Qed.

Lemma lang_of_unknown (file_extension : string) :
  file_extension ∉ lang_map_keys -> lang_of file_extension = "default".
Proof.
  intros H. unfold lang_of, lang_map.
  by rewrite not_elem_of_list_to_map_1.
Qed.

Lemma lang_of_known (file_extension : string) :
  file_extension ∈ lang_map_keys ->
  lang_of file_extension ∈ ["py"; "js"; "java"].
Proof.
  unfold lang_map_keys. intros H.
  repeat (apply elem_of_cons in H as [->|H]; [vm_compute; in_list|]).
  by apply elem_of_nil in H.
Qed.

(** No template has an example under the language ['default']. *)
Lemma default_language_no_example (key : string) (template : suggestion_t) :
  (key, template) ∈ solutions ->
  code_after (with_code_after key "default" template) = None.
Proof.
  unfold solutions. intros H.
  repeat (apply elem_of_cons in H as [H|H]; [by injection H as -> ->|]).
  by apply elem_of_nil in H.
Qed.

Lemma lang_map_types_examples :
  forallb (fun lang => forallb (example_attached lang) lang_map_types)
          ["py"; "js"; "java"] = true.
Proof. by vm_compute. Qed.

Lemma scanner_types_of_lang_map_key (code file_extension : string)
    (i : issue) :
  file_extension ∈ lang_map_keys ->
  i ∈ _pattern_analysis code file_extension ->
  type i ∈ rule_type <$> (rule_names java_patterns
                          ++ rule_names default_patterns)%list.
Proof.
  intros Hext Hi. apply (list_elem_of_fmap_2 type) in Hi.
  unfold _pattern_analysis in Hi.
  eapply elem_of_sublist in Hi; [|apply scanner_types_sublist].
  rewrite fmap_app, elem_of_app.
  destruct (select_patterns_cases file_extension)
    as [[-> _]|[[-> _]|[[_ E]|[_ E]]]]; rewrite ?E in Hi.
  - assert ("python" ∉ lang_map_keys)
      by (unfold lang_map_keys; not_in_list). done.
  - assert ("javascript" ∉ lang_map_keys)
      by (unfold lang_map_keys; not_in_list). done.
  - by left.
  - by right.
Qed.

(** X10: the suggestions of a result carry a "code_after" example exactly
    when the extension is one of [py], [js], [ts], [java], [default]: for
    these every suggestion has one, for any other extension, the table
    keys [python] and [javascript] included, none has. *)
Theorem code_after_iff_lang_map_key
    (rnd : Q) (code filename file_extension depth : string) :
  Forall (fun s => is_Some (code_after s) <-> file_extension ∈ lang_map_keys)
         (suggestions (analyze_code rnd code filename file_extension depth)).
Proof.
  rewrite suggestions_are_raw. apply Forall_forall.
  intros s (i & Hi & Hs)%list_elem_of_omap.
  destruct (decide (file_extension ∈ lang_map_keys)) as [Hext|Hext].
  - split; [done|intros _].
    assert (Ht : type i ∈ lang_map_types).
    { unfold lang_map_types. rewrite !elem_of_app.
      apply result_issue_cases in Hi as [H|[H|[->| ->]]].
      - left. by eapply scanner_types_of_lang_map_key.
      - right; left. by apply simulated_analysis_type in H.
      - right; right. cbn [type maintainability_issue]. in_list.
      - right; right. cbn [type empty_file_issue]. in_list. }
    pose proof lang_map_types_examples as Hall.
    rewrite forallb_forall in Hall.
    specialize (Hall _ (proj1 (list_elem_of_In _ _) (lang_of_known _ Hext))).
    rewrite forallb_forall in Hall.
    specialize (Hall _ (proj1 (list_elem_of_In _ _) Ht)).
    unfold example_attached in Hall.
    rewrite <- issue_suggestion_type, Hs in Hall.
    by apply bool_decide_eq_true_1 in Hall.
  - split; [|done]. intros Hsome. exfalso.
    rewrite lang_of_unknown in Hs by done.
    unfold issue_suggestion in Hs. case_bool_decide; [done|].
    destruct (find_template (type i) solutions) as [[key template]|] eqn:Ef;
      [|done].
    injection Hs as <-.
    apply find_template_in in Ef.
    rewrite (default_language_no_example key template Ef) in Hsome.
    by destruct Hsome.
Qed.

(** ** How many issues, and how low the score *)

Lemma sublist_missing_length {A} (x : A) (l k : list A) :
  l `sublist_of` k -> x ∉ l -> x ∈ k -> (length l < length k)%nat.
Proof.
  induction 1 as [|y l k Hsub IH|y l k Hsub IH]; intros Hl Hk.
  - by apply elem_of_nil in Hk.
  - rewrite not_elem_of_cons in Hl. destruct Hl as [Hxy Hl].
    apply elem_of_cons in Hk as [->|Hk]; [done|].
    simpl. specialize (IH Hl Hk). lia.
  - apply sublist_length in Hsub. simpl. lia.
Qed.

(** The scanner makes at most 7, 6 and 6 issues with the tables of
    python, javascript and java, and at most 3 otherwise. *)
Lemma scanner_issue_count (code file_extension : string) :
  (length (_pattern_analysis code file_extension)
   <= if String.eqb file_extension "python" then 7
      else if bool_decide (file_extension ∈ ["javascript"; "java"]) then 6
      else 3)%nat.
Proof.
  pose proof (scanner_types_sublist (Str.split_nl code)
                (select_patterns file_extension)) as Hsub.
  pose proof (scanner_never_complex code file_extension) as Hnever.
  fold (_pattern_analysis code file_extension) in Hsub.
  rewrite <- (length_fmap type).
  assert (Hcf : "Complex Function"
                ∉ type <$> _pattern_analysis code file_extension).
  { intros (i & E & Hi)%list_elem_of_fmap.
    apply (proj1 (Forall_forall _ _) Hnever) in Hi. apply Hi.
    rewrite <- E. in_list. }
  assert (Hcm : "Complex Method"
                ∉ type <$> _pattern_analysis code file_extension).
  { intros (i & E & Hi)%list_elem_of_fmap.
    apply (proj1 (Forall_forall _ _) Hnever) in Hi. apply Hi.
    rewrite <- E. in_list. }
  destruct (select_patterns_cases file_extension)
    as [[-> E]|[[-> E]|[[-> E]|[Hext E]]]]; rewrite E in Hsub.
  - apply (sublist_missing_length _ _ _ Hsub) in Hcf; [|vm_compute; in_list].
    unfold rule_names in Hcf. rewrite (length_fmap rule_type) in Hcf.
    rewrite (length_fmap fst) in Hcf.
    change (length python_patterns) with 8%nat in Hcf.
    change (String.eqb "python" "python") with true. cbv iota. lia.
  - apply (sublist_missing_length _ _ _ Hsub) in Hcf; [|vm_compute; in_list].
    unfold rule_names in Hcf. rewrite (length_fmap rule_type) in Hcf.
    rewrite (length_fmap fst) in Hcf.
    change (length javascript_patterns) with 7%nat in Hcf.
    change (String.eqb "javascript" "python") with false.
    rewrite bool_decide_eq_true_2 by in_list. cbv iota. lia.
  - apply (sublist_missing_length _ _ _ Hsub) in Hcm; [|vm_compute; in_list].
    unfold rule_names in Hcm. rewrite (length_fmap rule_type) in Hcm.
    rewrite (length_fmap fst) in Hcm.
    change (length java_patterns) with 7%nat in Hcm.
    change (String.eqb "java" "python") with false.
    rewrite bool_decide_eq_true_2 by in_list. cbv iota. lia.
  - apply sublist_length in Hsub.
    unfold rule_names in Hsub. rewrite (length_fmap rule_type) in Hsub.
    rewrite (length_fmap fst) in Hsub.
    change (length default_patterns) with 3%nat in Hsub.
    rewrite !not_elem_of_cons in Hext. destruct Hext as (H1 & H2 & H3 & _).
    apply String.eqb_neq in H1. rewrite H1.
    rewrite bool_decide_eq_false_2 by not_in_list. cbv iota. lia.
Qed.

Lemma heuristic_issue_count (code file_extension : string) :
  (length (_simulated_ai_analysis code file_extension)
   <= if bool_decide (file_extension ∈ ["py"; "js"; "java"]) then 3 else 2)%nat.
Proof.
  unfold _simulated_ai_analysis, language_concerns.
  destruct (String.eqb_spec file_extension "py") as [->|H1].
  { rewrite bool_decide_eq_true_2 by in_list.
    repeat case_match; simpl; lia. }
  destruct (String.eqb_spec file_extension "js") as [->|H2].
  { rewrite bool_decide_eq_true_2 by in_list.
    repeat case_match; simpl; lia. }
  destruct (String.eqb_spec file_extension "java") as [->|H3].
  { rewrite bool_decide_eq_true_2 by in_list.
    repeat case_match; simpl; lia. }
  rewrite bool_decide_eq_false_2 by not_in_list.
  repeat case_match; simpl; lia.
Qed.

Lemma found_count (code file_extension : string) :
  (length (_pattern_analysis code file_extension
           ++ _simulated_ai_analysis code file_extension)
   <= if bool_decide (file_extension ∈ table_keys) then 9 else 6)%nat.
Proof.
  rewrite length_app.
  pose proof (scanner_issue_count code file_extension) as Hs.
  pose proof (heuristic_issue_count code file_extension) as Hh.
  unfold table_keys.
  destruct (decide (file_extension = "python")) as [E|H1].
  { subst file_extension.
    change (String.eqb "python" "python") with true in Hs. cbv iota in Hs.
    rewrite bool_decide_eq_false_2 in Hh by not_in_list.
    rewrite bool_decide_eq_true_2 by in_list. lia. }
  pose proof H1 as H1'. apply String.eqb_neq in H1'. rewrite H1' in Hs.
  destruct (decide (file_extension ∈ ["javascript"; "java"])) as [H2|H2].
  { rewrite bool_decide_eq_true_2 in Hs by done.
    rewrite (bool_decide_eq_true_2 (file_extension ∈ _)).
    - destruct (bool_decide (file_extension ∈ ["py"; "js"; "java"])); lia.
    - rewrite !elem_of_cons in *. tauto. }
  rewrite bool_decide_eq_false_2 in Hs by done.
  rewrite (bool_decide_eq_false_2 (file_extension ∈ ["python"; _; _])).
  - destruct (bool_decide (file_extension ∈ ["py"; "js"; "java"])); lia.
  - rewrite !not_elem_of_cons in *. tauto.
Qed.

Lemma issue_count
    (rnd : Q) (code filename file_extension depth : string) :
  (length (issues (analyze_code rnd code filename file_extension depth))
   <= if bool_decide (file_extension ∈ table_keys) then 10 else 7)%nat.
Proof.
  pose proof (found_count code file_extension) as H.
  unfold analyze_code. destruct (is_empty_file code); cbn [issues].
  - simpl. case_bool_decide; lia.
  - destruct (Qltb rnd threshold && String.eqb depth "Deep");
      rewrite ?length_app; simpl length; rewrite <- ?length_app;
      case_bool_decide; lia.
Qed.

Lemma score_lower (n m : nat) :
  (n <= m)%nat ->
  (10 - inject_Z (Z.of_nat m) * (1 # 2) <= score n)%Q.
Proof.
  intros H. unfold score.
  eapply Qle_trans; [|apply Q.le_max_r].
  assert (inject_Z (Z.of_nat n) <= inject_Z (Z.of_nat m))%Q
    by (rewrite <- Zle_Qle; lia).
  lra.
Qed.

(** X11: a result never holds more than 10 issues, so the quality score
    is never below 5.0: the floor of 1.0 in the formula is never
    reached. *)
Theorem score_at_least_five
    (rnd : Q) (code filename file_extension depth : string) :
  (length (issues (analyze_code rnd code filename file_extension depth))
   <= 10)%nat
  /\ (5 <= quality_score
             (analyze_code rnd code filename file_extension depth))%Q.
Proof.
  pose proof (issue_count rnd code filename file_extension depth) as H.
  assert (Hlen : (length (issues
             (analyze_code rnd code filename file_extension depth))
           <= 10)%nat) by (case_bool_decide; lia).
  split; [done|].
  destruct (is_empty_file code) eqn:He.
  - unfold analyze_code. rewrite He. done.
  - rewrite analyze_code_score by done.
    eapply Qle_trans; [|apply (score_lower _ 10 Hlen)]. done.
Qed.

(** The bound is reached: ten issues and the score 5.0. *)
Example score_five_reached :
  length (issues (analyze_code 0 worst_case "worst.py" "python" "Deep"))
  = 10%nat
  /\ (quality_score (analyze_code 0 worst_case "worst.py" "python" "Deep")
      == 5)%Q.
Proof. split; by vm_compute. Qed.

(** X12: for an extension that is no key of the pattern table, which is
    the case of every extension the callers pass for Python, JavaScript
    and TypeScript files, a text that is not all whitespace gets at most 7
    issues and a score of at least 6.5. *)
Theorem score_with_default_rules
    (rnd : Q) (code filename file_extension depth : string) :
  file_extension ∉ table_keys ->
  Str.all Char.isspace code = false ->
  (length (issues (analyze_code rnd code filename file_extension depth))
   <= 7)%nat
  /\ (13 # 2 <= quality_score
                  (analyze_code rnd code filename file_extension depth))%Q.
Proof.
  intros Hext Hcode.
  pose proof (issue_count rnd code filename file_extension depth) as H.
  rewrite bool_decide_eq_false_2 in H by done.
  split; [done|].
  rewrite analyze_code_score by by rewrite is_empty_file_all.
  eapply Qle_trans; [|apply (score_lower _ 7 H)]. done.
Qed.

Lemma score_with_default_rules_witness :
  (length (issues (analyze_code 0 secret_and_print "a.py" "py" "Deep"))
   <= 7)%nat
  /\ (13 # 2 <= quality_score
                  (analyze_code 0 secret_and_print "a.py" "py" "Deep"))%Q.
Proof.
  apply (score_with_default_rules 0 secret_and_print "a.py" "py" "Deep").
  - unfold table_keys. not_in_list.
  - reflexivity.
Defined.

(** ** Which issues lead to a suggestion *)

Lemma omap_length_filter {A B} (f : A -> option B) (P : A -> Prop)
    `{!forall x, Decision (P x)} (l : list A) :
  Forall (fun x => is_Some (f x) <-> P x) l ->
  length (omap f l) = length (filter P l).
Proof.
  induction 1 as [|x l Hx _ IH]; [done|].
  change (omap f (x :: l))
    with (match f x with Some y => y :: omap f l | None => omap f l end).
  destruct (f x) as [y|] eqn:E.
  - rewrite filter_cons_True by (apply Hx; by eexists). simpl. by rewrite IH.
  - rewrite filter_cons_False; [done|].
    intros HP. apply Hx in HP. by destruct HP.
Qed.

Lemma templated_types_spec :
  Forall (fun t => t = "Complex Function"
                   \/ (is_Some (advice_for t) <-> t ∈ templated_types))
         known_types.
Proof.
  unfold known_types.
  repeat (first [apply Forall_nil_2 | apply Forall_cons_2]);
    try (right; split; [intros _; unfold templated_types; in_list
                       |intros _; by eexists]);
    try (right; split; [by intros [? [=]]
                       |unfold templated_types; intros H; exfalso;
                        revert H; apply not_elem_of_cons; not_in_list]).
  by left.
Qed.

(** X13: a result has one suggestion for each of its issues of type
    "Hardcoded Secrets", "Print Statements", "Long Lines", "Console Log",
    "Var Use" or "Bare Except", and none for any other issue: the issues
    of the heuristic analyser, the "Code Maintainability" issue and the
    "Empty File" issue never lead to a suggestion. *)
Theorem suggestions_count
    (rnd : Q) (code filename file_extension depth : string) :
  length (suggestions (analyze_code rnd code filename file_extension depth))
  = length (filter (fun i => type i ∈ templated_types)
              (issues (analyze_code rnd code filename file_extension depth))).
Proof.
  rewrite suggestions_are_raw. unfold raw_suggestions.
  apply omap_length_filter, Forall_forall. intros i Hi.
  pose proof (result_type_known _ _ _ _ _ _ Hi) as Hk.
  pose proof (proj1 (Forall_forall _ _)
                (proj1 (complex_function_never_reported
                          rnd code filename file_extension depth)) _ Hi)
    as Hcf.
  destruct (proj1 (Forall_forall _ _) templated_types_spec _ Hk) as [E|<-].
  - exfalso. apply Hcf. rewrite E. in_list.
  - rewrite <- issue_suggestion_advice with (lang := lang_of file_extension).
    by rewrite fmap_is_Some.
Qed.

(** ** The language-specific heuristics *)

Lemma append_assoc (s t u : string) : (s +:+ t) +:+ u = s +:+ (t +:+ u).
Proof.
  induction s as [|c s IH]; [done|]. by rewrite !append_cons, IH.
Qed.

(** A text that contains [q] followed by [p] contains [p]. *)
Lemma contains_tail (q p s : string) :
  Str.contains (q +:+ p) s = true -> Str.contains p s = true.
Proof.
  rewrite !contains_app. intros (pre & post & ->).
  exists (pre +:+ q), post. by rewrite !append_assoc.
Qed.

(** X14: for the extension [js], a text that contains [!==] and nowhere
    [===] gets the "Type Comparison" issue, whose description speaks of
    loose equality: the test looks for the two characters [==], which the
    strict inequality operator contains. *)
Theorem strict_inequality_reported (code : string) :
  Str.contains "!==" code = true ->
  Str.contains "===" code = false ->
  type_comparison_issue ∈ _simulated_ai_analysis code "js".
Proof.
  intros Hne Hstrict.
  apply (contains_tail "!" "==") in Hne.
  unfold _simulated_ai_analysis, language_concerns.
  change (String.eqb "js" "py") with false.
  change (String.eqb "js" "js") with true. cbv iota.
  rewrite Hne, Hstrict. cbn [andb negb].
  rewrite !elem_of_app. right; right. by left.
Qed.

Lemma strict_inequality_reported_witness :
  type_comparison_issue ∈ _simulated_ai_analysis strict_inequality "js".
Proof.
  apply (strict_inequality_reported strict_inequality); reflexivity.
Defined.

Lemma language_concerns_table_key (code file_extension : string)
    (ls : list string) :
  file_extension ∈ ["python"; "javascript"] ->
  language_concerns code file_extension ls = [].
Proof.
  intros H. apply elem_of_cons in H as [->|H]; [done|].
  apply elem_of_cons in H as [->|H]; [done|]. by apply elem_of_nil in H.
Qed.

Lemma python_javascript_type_table (code file_extension : string)
    (i : issue) :
  i ∈ _pattern_analysis code file_extension ->
  type i ∈ python_javascript_types ->
  file_extension ∈ ["python"; "javascript"].
Proof.
  intros Hi Ht. apply (list_elem_of_fmap_2 type) in Hi.
  unfold _pattern_analysis in Hi.
  eapply elem_of_sublist in Hi; [|apply scanner_types_sublist].
  remember (type i) as t eqn:Et. clear Et.
  destruct (select_patterns_cases file_extension)
    as [[-> _]|[[-> _]|[[_ E]|[_ E]]]]; rewrite ?E in Hi;
    [in_list|in_list|exfalso..];
    vm_compute in Hi; unfold python_javascript_types in Ht;
    repeat (apply elem_of_cons in Hi as [Hi|Hi];
            [rewrite Hi in Ht; revert Ht; apply not_elem_of_cons;
             not_in_list|]);
    by apply elem_of_nil in Hi.
Qed.

(** X15: no result holds both an issue of a rule that only the python or
    the javascript table has and an issue of a language-specific
    heuristic for Python or JavaScript: the tables are chosen by the keys
    [python] and [javascript], the heuristics by the extensions [py] and
    [js]. *)
Theorem table_rules_exclude_heuristics
    (rnd : Q) (code filename file_extension depth : string) (i j : issue) :
  i ∈ issues (analyze_code rnd code filename file_extension depth) ->
  j ∈ issues (analyze_code rnd code filename file_extension depth) ->
  type i ∈ python_javascript_types ->
  type j ∉ ["Exception Handling"; "Type Comparison"].
Proof.
  intros Hi Hj Ht.
  assert (Hext : file_extension ∈ ["python"; "javascript"]).
  { apply result_issue_cases in Hi as [H|[H|[->| ->]]].
    - by eapply python_javascript_type_table.
    - exfalso. apply simulated_analysis_type in H.
      unfold python_javascript_types in Ht.
      repeat (apply elem_of_cons in H as [H|H];
              [rewrite H in Ht; revert Ht; apply not_elem_of_cons;
               not_in_list|]).
      by apply elem_of_nil in H.
    - exfalso. revert Ht. unfold python_javascript_types.
      apply not_elem_of_cons. cbn [type maintainability_issue]. not_in_list.
    - exfalso. revert Ht. unfold python_javascript_types.
      apply not_elem_of_cons. cbn [type empty_file_issue]. not_in_list. }
  apply result_issue_cases in Hj as [H|[H|[->| ->]]].
  - apply pattern_analysis_type, rule_type_not_heuristic in H as [H _].
    intros Hin. apply H. unfold heuristic_types.
    rewrite !elem_of_cons in *. tauto.
  - unfold _simulated_ai_analysis in H.
    rewrite (language_concerns_table_key _ _ _ Hext) in H.
    repeat case_match; simpl in H;
      repeat (apply elem_of_cons in H as [->|H]; [not_in_list|]);
      by apply elem_of_nil in H.
  - cbn [type maintainability_issue]. not_in_list.
  - cbn [type empty_file_issue]. not_in_list.
Qed.

Lemma table_rules_exclude_heuristics_witness :
  type (Issue "Print Statements" "Print statements found on lines: 2"
              (Some [2%nat]))
  ∉ ["Exception Handling"; "Type Comparison"].
Proof.
  apply (table_rules_exclude_heuristics
           0 secret_and_print "a.py" "python" "Standard"
           (Issue "Print Statements" "Print statements found on lines: 2"
                  (Some [2%nat]))
           (Issue "Print Statements" "Print statements found on lines: 2"
                  (Some [2%nat]))).
  - vm_compute. in_list.
  - vm_compute. in_list.
  - unfold python_javascript_types. cbn [type]. in_list.
Defined.

(** ** Descriptions *)

Lemma rule_issue_description (ls : list string) (name : string)
    (pattern : Re.regex) (i : issue) :
  rule_issue ls (name, pattern) = Some i ->
  issue_descriptions (matching_lines pattern 0 ls) !! name
  = Some (description i).
Proof.
  unfold rule_issue.
  destruct (matching_lines pattern 0 ls) as [|n ms]; [done|].
  destruct (issue_descriptions (n :: ms) !! name) as [d|]; [|done].
  by intros [= <-].
Qed.

Lemma issue_descriptions_nonempty (matches : list nat) (name d : string) :
  issue_descriptions matches !! name = Some d -> d <> EmptyString.
Proof.
  intros H. apply elem_of_list_to_map_2 in H.
  repeat (apply elem_of_cons in H as [H|H];
          [injection H as _ ->; rewrite ?append_cons; discriminate|]).
  by apply elem_of_nil in H.
Qed.

(** X16: every issue of a result has a non-empty description. *)
Theorem descriptions_nonempty
    (rnd : Q) (code filename file_extension depth : string) :
  Forall (fun i => description i <> EmptyString)
         (issues (analyze_code rnd code filename file_extension depth)).
Proof.
  apply Forall_forall. intros i [H|[H|[->| ->]]]%result_issue_cases.
  - apply pattern_analysis_elem in H as (name & pattern & _ & H).
    by apply rule_issue_description, issue_descriptions_nonempty in H.
  - unfold _simulated_ai_analysis, language_concerns in H.
    repeat case_match; simpl in H;
      repeat (apply elem_of_cons in H as [->|H]; [done|]);
      by apply elem_of_nil in H.
  - done.
  - done.
Qed.

(** * [utils.py] *)

Lemma append_length (s t : string) :
  String.length (s +:+ t) = (String.length s + String.length t)%nat.
Proof.
  induction s as [|c s IH]; [done|]. rewrite append_cons. simpl. by rewrite IH.
Qed.

Lemma take_length (n : nat) (s : string) :
  String.length (Utils.take n s) = Nat.min n (String.length s).
Proof.
  revert s. induction n as [|n IH]; intros [|c s]; simpl; try done.
  by rewrite IH.
Qed.

Lemma truncate_text_length (text : string) (max_length : Z) :
  (3 <= max_length)%Z ->
  Z.of_nat (String.length (Utils.truncate_text text max_length))
  = Z.min (Z.of_nat (String.length text)) max_length.
Proof.
  intros Hm. unfold Utils.truncate_text, Utils.slice_to.
  destruct (Z.leb_spec (Z.of_nat (String.length text)) max_length); [lia|].
  rewrite (proj2 (Z.leb_le 0 (max_length - 3))) by lia.
  rewrite append_length, take_length. simpl. lia.
Qed.

(** X17: for [max_length >= 3], the result of [truncate_text] has
    [min(len(text), max_length)] characters, so never more than
    [max_length], and truncating it again changes nothing. *)
Theorem truncate_text_fits (text : string) (max_length : Z) :
  (3 <= max_length)%Z ->
  Z.of_nat (String.length (Utils.truncate_text text max_length))
  = Z.min (Z.of_nat (String.length text)) max_length
  /\ Utils.truncate_text (Utils.truncate_text text max_length) max_length
     = Utils.truncate_text text max_length.
Proof.
  intros Hm. split; [by apply truncate_text_length|].
  pose proof (truncate_text_length text max_length Hm) as H.
  unfold Utils.truncate_text at 1.
  by rewrite (proj2 (Z.leb_le _ _)) by lia.
Qed.

Lemma truncate_text_fits_witness :
  Z.of_nat (String.length (Utils.truncate_text "a long commit message" 10))
  = Z.min (Z.of_nat (String.length "a long commit message")) 10
  /\ Utils.truncate_text (Utils.truncate_text "a long commit message" 10) 10
     = Utils.truncate_text "a long commit message" 10.
Proof. apply (truncate_text_fits "a long commit message" 10). lia. Defined.

(** X18: for [max_length < 3], a text longer than [max_length] is not
    shortened to it: the result has at least 3 characters, more than
    [max_length], because the slice bound [max_length - 3] is negative and
    counts from the end (or gives the empty string) before the three dots
    are appended. *)
Theorem truncate_text_short_limit (text : string) (max_length : Z) :
  (max_length < 3)%Z ->
  (max_length < Z.of_nat (String.length text))%Z ->
  (max_length < Z.of_nat (String.length (Utils.truncate_text text max_length)))%Z
  /\ (3 <= String.length (Utils.truncate_text text max_length))%nat.
Proof.
  intros Hm Hlen. unfold Utils.truncate_text, Utils.slice_to.
  rewrite (proj2 (Z.leb_gt _ _)) by lia.
  rewrite (proj2 (Z.leb_gt 0 (max_length - 3))) by lia.
  rewrite append_length, take_length. simpl. lia.
Qed.

Lemma truncate_text_short_limit_witness :
  (2 < Z.of_nat (String.length (Utils.truncate_text "abcdef" 2)))%Z
  /\ (3 <= String.length (Utils.truncate_text "abcdef" 2))%nat.
Proof. apply (truncate_text_short_limit "abcdef" 2); simpl; lia. Defined.

Example truncate_text_short_limit_value :
  Utils.truncate_text "abcdef" 2 = "abcde...".
Proof. reflexivity. Qed.

(** * [github_api.py]: the files handed to the analyser *)

Section FilesProperties.

Variable max_files : Z.
Variable file_extensions : option (list string).
Variable fetch : string -> option (list GitHubRepo.item).

Lemma scan_contents_accepts (contents : list GitHubRepo.item) :
  forall files stack,
    (Z.of_nat (length files) < max_files)%Z ->
    Forall (accepted file_extensions) files ->
    (Z.of_nat (length
       (GitHubRepo.scan_contents max_files file_extensions
          contents files stack).1) <= max_files)%Z
    /\ Forall (accepted file_extensions)
         (GitHubRepo.scan_contents max_files file_extensions
            contents files stack).1.
Proof.
  induction contents as [|it rest IH]; intros files stack Hlen Hok; simpl.
  - split; [lia|done].
  - destruct (String.eqb (GitHubRepo.item_type it) "dir"); [by apply IH|].
    destruct (String.eqb (GitHubRepo.item_type it) "file"); [|by apply IH].
    destruct (GitHubRepo.filtered_out file_extensions _) eqn:Hf;
      [by apply IH|].
    destruct (Z.ltb_spec 500000 (GitHubRepo.item_size it)); [by apply IH|].
    assert (Hok' : Forall (accepted file_extensions)
              (files ++ [GitHubRepo.File (GitHubRepo.item_name it)
                           (GitHubRepo.item_path it) (GitHubRepo.item_sha it)
                           (GitHubRepo.item_size it)
                           (GitHubRepo.item_html_url it)
                           (GitHubRepo.extension_of
                              (GitHubRepo.item_name it))])%list).
    { apply Forall_app. split; [done|]. by repeat constructor. }
    destruct (Z.leb_spec max_files (Z.of_nat (length
      (files ++ [GitHubRepo.File (GitHubRepo.item_name it)
                   (GitHubRepo.item_path it) (GitHubRepo.item_sha it)
                   (GitHubRepo.item_size it) (GitHubRepo.item_html_url it)
                   (GitHubRepo.extension_of (GitHubRepo.item_name it))])%list)))
      as [Hfull|Hroom].
    + simpl. split; [|done]. rewrite length_app in *. simpl in *. lia.
    + by apply IH.
Qed.

Lemma walk_accepts (fuel : nat) : forall files stack fs,
  (Z.of_nat (length files) <= Z.max 0 max_files)%Z ->
  Forall (accepted file_extensions) files ->
  GitHubRepo.walk max_files file_extensions fetch fuel files stack = Some fs ->
  (Z.of_nat (length fs) <= Z.max 0 max_files)%Z
  /\ Forall (accepted file_extensions) fs.
Proof.
  induction fuel as [|fuel IH]; intros files stack fs Hlen Hok;
    destruct stack as [|p rest]; simpl.
  - by intros [= <-].
  - destruct (Z.ltb_spec (Z.of_nat (length files)) max_files); [done|].
    by intros [= <-].
  - by intros [= <-].
  - destruct (Z.ltb_spec (Z.of_nat (length files)) max_files) as [Hroom|];
      [|by intros [= <-]].
    destruct (fetch p) as [contents|]; [|by apply IH].
    pose proof (scan_contents_accepts contents files rest Hroom Hok)
      as [Hlen' Hok'].
    destruct (GitHubRepo.scan_contents _ _ contents files rest)
      as [files' stack'].
    simpl in *. apply IH; [lia|done].
Qed.

(** X19: whatever the requests return, the list that
    [get_repository_files] returns has at most [max_files] entries (none
    for a limit of zero or less), and every entry has a size of at most
    500000, the extension computed from its name, and an extension the
    filter lets through. *)
Theorem repository_files_accepted (fuel : nat) (fs : list GitHubRepo.file) :
  GitHubRepo.get_repository_files max_files file_extensions fetch fuel
  = Some fs ->
  (Z.of_nat (length fs) <= Z.max 0 max_files)%Z
  /\ Forall (accepted file_extensions) fs.
Proof.
  unfold GitHubRepo.get_repository_files. apply walk_accepts; [simpl; lia|done].
Qed.

End FilesProperties.

Lemma repository_files_accepted_witness :
  (Z.of_nat (length
     [GitHubRepo.File "Setup.PY" "Setup.PY" "s3" 300 "u3" "py";
      GitHubRepo.File "app.py" "src/app.py" "s5" 900 "u5" "py"])
   <= Z.max 0 10)%Z
  /\ Forall (accepted (Some ["py"]))
       [GitHubRepo.File "Setup.PY" "Setup.PY" "s3" 300 "u3" "py";
        GitHubRepo.File "app.py" "src/app.py" "s5" 900 "u5" "py"].
Proof.
  apply (repository_files_accepted 10 (Some ["py"]) sample_fetch 5).
  reflexivity.
Defined.

Section FilesTermination.

Variable max_files : Z.
Variable file_extensions : option (list string).
Variable fetch : string -> option (list GitHubRepo.item).
Variable weight : string -> nat.

Lemma total_weight_app (l k : list string) :
  total_weight weight (l ++ k)
  = (total_weight weight l + total_weight weight k)%nat.
Proof. induction l as [|p l IH]; simpl; [done|]. rewrite IH. lia. Qed.

Lemma dir_paths_cons (it : GitHubRepo.item) (rest : list GitHubRepo.item) :
  dir_paths (it :: rest)
  = if String.eqb (GitHubRepo.item_type it) "dir"
    then GitHubRepo.item_path it :: dir_paths rest
    else dir_paths rest.
Proof.
  unfold dir_paths.
  destruct (String.eqb_spec (GitHubRepo.item_type it) "dir") as [E|E].
  - by rewrite filter_cons_True.
  - by rewrite filter_cons_False.
Qed.

(** The loop over a listing pushes directories of the listing only. *)
Lemma scan_contents_stack (contents : list GitHubRepo.item) :
  forall files stack,
    (total_weight weight
       (GitHubRepo.scan_contents max_files file_extensions
          contents files stack).2
     <= total_weight weight stack + total_weight weight (dir_paths contents))%nat.
Proof.
  induction contents as [|it rest IH]; intros files stack.
  - simpl. lia.
  - rewrite dir_paths_cons. simpl.
    destruct (String.eqb (GitHubRepo.item_type it) "dir").
    + etransitivity; [apply IH|]. rewrite total_weight_app. simpl. lia.
    + destruct (String.eqb (GitHubRepo.item_type it) "file"); [|apply IH].
      destruct (GitHubRepo.filtered_out file_extensions _); [apply IH|].
      destruct (500000 <? GitHubRepo.item_size it)%Z; [apply IH|].
      destruct (max_files <=? _)%Z; [simpl; lia|apply IH].
Qed.

Hypothesis tree : finite_tree fetch weight.

Lemma walk_total (fuel : nat) : forall files stack,
  (total_weight weight stack <= fuel)%nat ->
  is_Some (GitHubRepo.walk max_files file_extensions fetch fuel files stack).
Proof.
  induction fuel as [|fuel IH]; intros files [|p rest] Hfuel; simpl;
    try by eexists.
  - destruct (Z.of_nat (length files) <? max_files)%Z; [|by eexists].
    pose proof (tree p). simpl in Hfuel. lia.
  - destruct (Z.of_nat (length files) <? max_files)%Z; [|by eexists].
    pose proof (tree p) as Hp. simpl in Hfuel.
    destruct (fetch p) as [contents|]; simpl in Hp.
    + pose proof (scan_contents_stack contents files rest) as Hs.
      destruct (GitHubRepo.scan_contents _ _ contents files rest)
        as [files' stack'].
      simpl in Hs. apply IH. lia.
    + apply IH. lia.
Qed.

Lemma walk_more_fuel (fuel : nat) : forall files stack fs,
  GitHubRepo.walk max_files file_extensions fetch fuel files stack = Some fs ->
  forall fuel', (fuel <= fuel')%nat ->
    GitHubRepo.walk max_files file_extensions fetch fuel' files stack
    = Some fs.
Proof.
  induction fuel as [|fuel IH]; intros files [|p rest] fs H fuel' Hle;
    destruct fuel' as [|fuel']; simpl in *; try done; try lia.
  - by destruct (Z.of_nat (length files) <? max_files)%Z.
  - destruct (Z.of_nat (length files) <? max_files)%Z; [|done].
    destruct (fetch p) as [contents|].
    + destruct (GitHubRepo.scan_contents _ _ contents files rest)
        as [files' stack'].
      apply (IH _ _ _ H). lia.
    + apply (IH _ _ _ H). lia.
Qed.

(** X20: when the listings form a finite tree, [get_repository_files]
    returns: the loop ends within as many rounds as the root weighs, and
    allowing more rounds gives the same list. *)
Theorem repository_files_returned :
  exists fs, forall fuel,
    (weight EmptyString <= fuel)%nat ->
    GitHubRepo.get_repository_files max_files file_extensions fetch fuel
    = Some fs.
Proof.
  unfold GitHubRepo.get_repository_files.
  destruct (walk_total (weight EmptyString) [] [EmptyString]) as [fs Hfs].
  { simpl. lia. }
  exists fs. intros fuel Hfuel. by apply (walk_more_fuel _ _ _ _ Hfs).
Qed.

End FilesTermination.

Lemma sample_finite_tree : finite_tree sample_fetch sample_weight.
Proof.
  intros p. unfold sample_fetch, sample_weight.
  destruct (String.eqb p EmptyString); [vm_compute; lia|].
  destruct (String.eqb p "src"); vm_compute; lia.
Qed.

Lemma repository_files_returned_witness :
  exists fs, forall fuel,
    (sample_weight EmptyString <= fuel)%nat ->
    GitHubRepo.get_repository_files 10 (Some ["py"]) sample_fetch fuel
    = Some fs.
Proof.
  apply (repository_files_returned 10 (Some ["py"]) sample_fetch
           sample_weight).
  exact sample_finite_tree.
Defined.

(** ** The extension of a file name *)

Lemma split_char_nonempty (c : ascii) (s : string) :
  GitHubRepo.split_char c s <> [].
Proof.
  induction s as [|a s IH]; simpl; [done|].
  destruct (Ascii.eqb a c); [done|].
  by destruct (GitHubRepo.split_char c s).
Qed.

(** [(s + c + t).split(c) == s.split(c) + t.split(c)] *)
Lemma split_char_app (c : ascii) (s t : string) :
  GitHubRepo.split_char c (s +:+ String c t)
  = (GitHubRepo.split_char c s ++ GitHubRepo.split_char c t)%list.
Proof.
  induction s as [|a s IH].
  - rewrite append_nil. simpl. by rewrite Ascii.eqb_refl.
  - rewrite append_cons. simpl. rewrite IH.
    destruct (Ascii.eqb a c); [done|].
    pose proof (split_char_nonempty c s).
    by destruct (GitHubRepo.split_char c s).
Qed.

Lemma split_char_absent (c : ascii) (t : string) :
  Str.mem c t = false -> GitHubRepo.split_char c t = [t].
Proof.
  induction t as [|a t IH]; simpl; [done|].
  intros [Ha Ht]%orb_false_iff. rewrite Ha, IH by done. done.
Qed.

Lemma last_app_nonempty {A} (l k : list A) (d : A) :
  k <> [] -> List.last (l ++ k)%list d = List.last k d.
Proof.
  intros Hk. induction l as [|x l IH]; [done|].
  simpl. rewrite IH. destruct (l ++ k)%list eqn:E; [|done].
  by destruct l, k.
Qed.

Lemma contains_char (c : ascii) (s : string) :
  Str.contains (String c EmptyString) s = Str.mem c s.
Proof.
  induction s as [|a s IH]; [done|].
  cbn [Str.contains Str.startswith Str.mem].
  rewrite (Ascii.eqb_sym c a). destruct (Ascii.eqb a c); [|by rewrite IH].
  by destruct s.
Qed.

Lemma mem_app (c : ascii) (s t : string) :
  Str.mem c (s +:+ t) = Str.mem c s || Str.mem c t.
Proof.
  induction s as [|a s IH]; [done|].
  rewrite append_cons. simpl. rewrite IH. by rewrite orb_assoc.
Qed.

Lemma lower_char_idempotent (c : ascii) :
  GitHubRepo.lower_char (GitHubRepo.lower_char c) = GitHubRepo.lower_char c.
Proof. by destruct c as [[] [] [] [] [] [] [] []]. Qed.

Lemma lower_char_dot (c : ascii) :
  Ascii.eqb (GitHubRepo.lower_char c) "." = Ascii.eqb c ".".
Proof. by destruct c as [[] [] [] [] [] [] [] []]. Qed.

Lemma lower_idempotent (s : string) :
  GitHubRepo.lower (GitHubRepo.lower s) = GitHubRepo.lower s.
Proof.
  induction s as [|c s IH]; [done|]. simpl.
  by rewrite lower_char_idempotent, IH.
Qed.

Lemma lower_mem_dot (s : string) :
  Str.mem "." (GitHubRepo.lower s) = Str.mem "." s.
Proof.
  induction s as [|c s IH]; [done|]. simpl. by rewrite lower_char_dot, IH.
Qed.

(** X21: for a file name that ends with a dot followed by a text [ext]
    without dot, the extension handed to the analyser is [ext] in lower
    case, whatever precedes the dot; it holds no dot and lowering it again
    changes nothing.  So [Setup.PY] and [a.tar.py] are analysed with the
    extension [py]. *)
Theorem extension_of_suffix (stem ext : string) :
  Str.mem "." ext = false ->
  GitHubRepo.extension_of (stem +:+ "." +:+ ext) = GitHubRepo.lower ext
  /\ Str.mem "." (GitHubRepo.extension_of (stem +:+ "." +:+ ext)) = false
  /\ GitHubRepo.lower (GitHubRepo.extension_of (stem +:+ "." +:+ ext))
     = GitHubRepo.extension_of (stem +:+ "." +:+ ext).
Proof.
  intros Hext.
  assert (E : GitHubRepo.extension_of (stem +:+ "." +:+ ext)
              = GitHubRepo.lower ext).
  { unfold GitHubRepo.extension_of.
    rewrite contains_char, mem_app. rewrite append_cons, append_nil.
    simpl Str.mem. rewrite orb_true_r.
    rewrite split_char_app, last_app_nonempty by apply split_char_nonempty.
    by rewrite split_char_absent. }
  rewrite E. split_and!; [done| |apply lower_idempotent].
  by rewrite lower_mem_dot.
Qed.

Lemma extension_of_suffix_witness :
  GitHubRepo.extension_of ("a.Tar" +:+ "." +:+ "PY") = GitHubRepo.lower "PY"
  /\ Str.mem "." (GitHubRepo.extension_of ("a.Tar" +:+ "." +:+ "PY")) = false
  /\ GitHubRepo.lower (GitHubRepo.extension_of ("a.Tar" +:+ "." +:+ "PY"))
     = GitHubRepo.extension_of ("a.Tar" +:+ "." +:+ "PY").
Proof. apply (extension_of_suffix "a.Tar" "PY"). reflexivity. Defined.

Example extension_of_values :
  GitHubRepo.extension_of "Makefile" = EmptyString
  /\ GitHubRepo.extension_of ".gitignore" = "gitignore"
  /\ GitHubRepo.extension_of "archive." = EmptyString
  /\ GitHubRepo.extension_of "a.Tar.PY" = "py".
Proof. by vm_compute. Qed.

(** ** From the file name to the rules *)

(** X22: a file whose name ends with a dot and an extension that, in lower
    case, is none of [python], [javascript], [java] is scanned with the
    default rules only, when it is analysed with the extension
    [get_repository_files] computes for it: Python, JavaScript and
    TypeScript files named [*.py], [*.js], [*.ts] never meet the rules of
    the python and javascript tables. *)
Theorem fetched_file_default_rules (stem ext code : string) :
  Str.mem "." ext = false ->
  GitHubRepo.lower ext ∉ table_keys ->
  Forall (fun i => type i ∈ ["Hardcoded Secrets"; "Todo Comments";
                             "Long Lines"])
         (_pattern_analysis code
            (GitHubRepo.extension_of (stem +:+ "." +:+ ext))).
Proof.
  intros Hdot Hkey.
  rewrite (proj1 (extension_of_suffix stem ext Hdot)).
  by apply scanner_default_rules_only.
Qed.

Lemma fetched_file_default_rules_witness :
  Forall (fun i => type i ∈ ["Hardcoded Secrets"; "Todo Comments";
                             "Long Lines"])
         (_pattern_analysis secret_and_print
            (GitHubRepo.extension_of ("app" +:+ "." +:+ "PY"))).
Proof.
  apply (fetched_file_default_rules "app" "PY" secret_and_print).
  - reflexivity.
  - change (GitHubRepo.lower "PY") with "py". unfold table_keys. not_in_list.
Defined.

(** * [utils.py]: [parse_repo_url] *)

Section GroupsLemmas.
Context {R : Type}.
Implicit Types (k : Groups.cont R).

Lemma groups_run_lit (p : string) : forall k i s,
  Groups.run (Re.lit p) i s k
  = if Str.startswith p s
    then k (i + String.length p)%nat (skip (String.length p) s)
    else None.
Proof.
  induction p as [|a p IH]; intros k i s.
  - simpl. by rewrite Nat.add_0_r.
  - destruct p as [|b p].
    + simpl. destruct s as [|c s]; [done|].
      rewrite Ascii.eqb_sym. destruct (Ascii.eqb a c); [|done].
      replace (i + 1)%nat with (S i) by lia. by destruct s.
    + change (Re.lit (String a (String b p)))
        with (Re.Seq (Re.Chr a) (Re.lit (String b p))).
      cbn [Groups.run]. destruct s as [|c s]; [done|].
      cbn [Str.startswith]. rewrite Ascii.eqb_sym.
      destruct (Ascii.eqb a c); [|done].
      rewrite IH. cbn [String.length skip].
      by replace (S i + S (String.length p))%nat
        with (i + S (S (String.length p)))%nat by lia.
Qed.

Lemma not_slash (c : ascii) (w : string) :
  Str.mem "/" (String c w) = false ->
  negb (Str.mem c "/") = true /\ Str.mem "/" w = false.
Proof.
  cbn [Str.mem]. intros [Hc Hw]%orb_false_iff. split; [|done].
  rewrite Ascii.eqb_sym in Hc. by rewrite Hc.
Qed.

Lemma groups_star_loop_step (step : nat -> string -> Groups.cont R -> option R)
    k (fuel i : nat) (s : string) :
  Groups.star_loop step k (S fuel) i s
  = match step i s (fun i' s' =>
                      if (i <? i')%nat then Groups.star_loop step k fuel i' s'
                      else None) with
    | Some x => Some x
    | None => k i s
    end.
Proof. reflexivity. Qed.

Lemma groups_run_none_of (cs : string) (i : nat) (a : ascii) (s : string) k :
  Groups.run (Re.none_of cs) i (String a s) k
  = if negb (Str.mem a cs) then k (S i) s else None.
Proof. reflexivity. Qed.

(** The loop of a group runs to the end of a text without slash, when
    what follows is the end or a slash and the continuation accepts
    there. *)
Lemma segment_star_greedy (rest : string) (x : R) k :
  rest = EmptyString \/ (exists t, rest = String "/" t) ->
  forall w fuel i,
    Str.mem "/" w = false ->
    (String.length (w +:+ rest) <= fuel)%nat ->
    k (i + String.length w)%nat rest = Some x ->
    Groups.star_loop (Groups.run (Re.none_of "/")) k fuel i (w +:+ rest)
    = Some x.
Proof.
  intros Hrest. induction w as [|c w IH]; intros fuel i Hw Hfuel Hk.
  - rewrite append_nil. cbn [String.length] in Hk.
    rewrite Nat.add_0_r in Hk.
    destruct fuel as [|fuel]; [done|]. rewrite groups_star_loop_step.
    destruct Hrest as [->|[t ->]]; [done|].
    rewrite groups_run_none_of.
    change (negb (Str.mem "/" "/")) with false. by cbv iota.
  - rewrite append_cons in *. cbn [String.length] in Hfuel.
    destruct fuel as [|fuel]; [lia|].
    rewrite groups_star_loop_step, groups_run_none_of.
    apply not_slash in Hw as [Hc Hw]. rewrite Hc.
    rewrite (proj2 (Nat.ltb_lt i (S i))) by lia.
    rewrite (IH fuel (S i)); [done|done|lia|].
    cbn [String.length] in Hk. by replace (S i + String.length w)%nat
      with (i + S (String.length w))%nat by lia.
Qed.

Lemma segment_greedy (w rest : string) (x : R) k (i : nat) :
  w <> EmptyString ->
  Str.mem "/" w = false ->
  rest = EmptyString \/ (exists t, rest = String "/" t) ->
  k (i + String.length w)%nat rest = Some x ->
  Groups.run Groups.segment i (w +:+ rest) k = Some x.
Proof.
  intros Hne Hw Hrest Hk. destruct w as [|c w]; [done|].
  rewrite append_cons.
  change (Groups.run Groups.segment i (String c (w +:+ rest)) k)
    with (Groups.run (Re.none_of "/") i (String c (w +:+ rest))
            (fun i' s' =>
               Groups.star_loop (Groups.run (Re.none_of "/")) k
                 (String.length s') i' s')).
  rewrite groups_run_none_of.
  apply not_slash in Hw as [Hc Hw]. rewrite Hc.
  apply segment_star_greedy; [done|done|done|].
  cbn [String.length] in Hk. by replace (S i + String.length w)%nat
    with (i + S (String.length w))%nat by lia.
Qed.

End GroupsLemmas.

Lemma take_app_exact (w rest : string) :
  Utils.take (String.length w) (w +:+ rest) = w.
Proof.
  induction w as [|c w IH]; [by destruct rest|].
  rewrite append_cons. simpl. by rewrite IH.
Qed.

Lemma search_from_skip (before g1 between g2 after : Re.regex)
    (i : nat) (a : ascii) (s : string) :
  Groups.match_two_groups before g1 between g2 after i (String a s) = None ->
  Groups.search_from before g1 between g2 after i (String a s)
  = Groups.search_from before g1 between g2 after (S i) s.
Proof. intros H. cbn [Groups.search_from]. by rewrite H. Qed.

Lemma search_from_hit (before g1 between g2 after : Re.regex)
    (i : nat) (s : string) (groups : string * string) :
  Groups.match_two_groups before g1 between g2 after i s = Some groups ->
  Groups.search_from before g1 between g2 after i s = Some groups.
Proof. intros H. destruct s; cbn [Groups.search_from]; by rewrite H. Qed.

Lemma match_literal_miss (p : string) (g1 between g2 after : Re.regex)
    (i : nat) (s : string) :
  Str.startswith p s = false ->
  Groups.match_two_groups (Re.lit p) g1 between g2 after i s = None.
Proof.
  intros H. unfold Groups.match_two_groups. by rewrite groups_run_lit, H.
Qed.

(** The first pattern on an https address; [tail] is what follows the
    repository name. *)
Lemma first_pattern_https (owner repo tail : string) :
  owner <> EmptyString -> repo <> EmptyString ->
  Str.mem "/" owner = false -> Str.mem "/" repo = false ->
  tail = EmptyString \/ tail = "/" ->
  Groups.parse_repo_url
    ("https://github.com/" +:+ owner +:+ "/" +:+ repo +:+ tail)
  = Some (owner, repo).
Proof.
  intros Ho Hr Hso Hsr Htail.
  unfold Groups.parse_repo_url, Groups.url_patterns.
  cbn [Groups.first_match]. unfold Groups.search.
  rewrite !append_cons, !append_nil.
  do 8 (rewrite search_from_skip by (by apply match_literal_miss)).
  rewrite (search_from_hit _ _ _ _ _ _ _ (owner, repo)); [done|].
  unfold Groups.match_two_groups. rewrite groups_run_lit.
  cbn [Str.startswith Ascii.eqb Bool.eqb String.length skip].
  cbn [Nat.add].
  apply segment_greedy; [done|done|right; by eexists|].
  cbn beta. cbn [Groups.run]. rewrite Ascii.eqb_refl.
  apply segment_greedy; [done|done| |].
  { destruct Htail as [-> | ->]; [by left|right; by eexists]. }
  replace (19 + String.length owner - 19)%nat
    with (String.length owner) by lia.
  replace (S (19 + String.length owner) + String.length repo
           - S (19 + String.length owner))%nat
    with (String.length repo) by lia.
  rewrite !take_app_exact.
  destruct Htail as [-> | ->]; reflexivity.
Qed.

Lemma append_nil_r (s : string) : s +:+ EmptyString = s.
Proof.
  induction s as [|a s IH]; [done|]. rewrite append_cons. by rewrite IH.
Qed.

(** X23: an address [https://github.com/owner/repo], with [owner] and
    [repo] non-empty and without slash, is parsed into [owner] and
    [repo], with or without a slash at its end. *)
Theorem parse_repo_url_https (owner repo : string) :
  owner <> EmptyString -> repo <> EmptyString ->
  Str.mem "/" owner = false -> Str.mem "/" repo = false ->
  Groups.parse_repo_url ("https://github.com/" +:+ owner +:+ "/" +:+ repo)
  = Some (owner, repo)
  /\ Groups.parse_repo_url
       ("https://github.com/" +:+ owner +:+ "/" +:+ repo +:+ "/")
     = Some (owner, repo).
Proof.
  intros Ho Hr Hso Hsr. split.
  - rewrite <- (append_nil_r repo) at 1.
    apply first_pattern_https; auto.
  - apply first_pattern_https; auto.
Qed.

Lemma parse_repo_url_https_witness :
  Groups.parse_repo_url ("https://github.com/" +:+ "octocat" +:+ "/" +:+ "hello")
  = Some ("octocat", "hello")
  /\ Groups.parse_repo_url
       ("https://github.com/" +:+ "octocat" +:+ "/" +:+ "hello" +:+ "/")
     = Some ("octocat", "hello").
Proof. by apply (parse_repo_url_https "octocat" "hello"). Defined.

(** X24: on an address [https://github.com/owner/repo.git] the first
    pattern decides, so the name returned keeps its [.git] ending: the
    second pattern, which would take it off, is not reached. *)
Theorem parse_repo_url_keeps_git_suffix (owner repo : string) :
  owner <> EmptyString ->
  Str.mem "/" owner = false -> Str.mem "/" repo = false ->
  Groups.parse_repo_url
    ("https://github.com/" +:+ owner +:+ "/" +:+ repo +:+ ".git")
  = Some (owner, repo +:+ ".git").
Proof.
  intros Ho Hso Hsr.
  pose proof (first_pattern_https owner (repo +:+ ".git") EmptyString) as H.
  rewrite append_nil_r in H. apply H; [done| |done| |by left].
  - by destruct repo.
  - by rewrite mem_app, Hsr.
Qed.

Lemma parse_repo_url_keeps_git_suffix_witness :
  Groups.parse_repo_url
    ("https://github.com/" +:+ "octocat" +:+ "/" +:+ "hello" +:+ ".git")
  = Some ("octocat", "hello" +:+ ".git").
Proof. by apply (parse_repo_url_keeps_git_suffix "octocat" "hello"). Defined.

Lemma occurrences_app (c : ascii) (s t : string) :
  occurrences c (s +:+ t) = (occurrences c s + occurrences c t)%nat.
Proof.
  induction s as [|a s IH]; [by rewrite append_nil|].
  rewrite append_cons. cbn [occurrences]. rewrite IH. lia.
Qed.

Lemma occurrences_mem (c : ascii) (s : string) :
  Str.mem c s = false <-> occurrences c s = 0%nat.
Proof.
  induction s as [|a s IH]; [done|]. cbn [Str.mem occurrences].
  rewrite orb_false_iff, IH. destruct (Ascii.eqb a c); split.
  - by intros [? _].
  - done.
  - by intros [_ ?].
  - done.
Qed.

Lemma startswith_split (p s : string) :
  Str.startswith p s = true -> s = p +:+ skip (String.length p) s.
Proof.
  revert s. induction p as [|a p IH]; intros s H.
  - by rewrite append_nil.
  - destruct s as [|b s]; [done|]. cbn [Str.startswith] in H.
    destruct (Ascii.eqb_spec a b) as [->|]; [|done].
    rewrite append_cons. cbn [String.length skip]. by rewrite <- IH.
Qed.

Section GroupsFailure.
Context {R : Type}.
Implicit Types (k : Groups.cont R).

(** A group finds nothing in a text without slash when what follows it
    finds nothing on such a text. *)
Lemma segment_star_fails k :
  (forall j s, Str.mem "/" s = false -> k j s = None) ->
  forall fuel i s,
    Str.mem "/" s = false ->
    Groups.star_loop (Groups.run (Re.none_of "/")) k fuel i s = None.
Proof.
  intros Hk. induction fuel as [|fuel IH]; intros i s Hs; [by apply Hk|].
  rewrite groups_star_loop_step. destruct s as [|c s].
  - by apply Hk.
  - rewrite groups_run_none_of. pose proof Hs as Hs'.
    apply not_slash in Hs as [Hc Hs]. rewrite Hc.
    rewrite (proj2 (Nat.ltb_lt i (S i))) by lia.
    rewrite IH by done. by apply Hk.
Qed.

Lemma segment_fails k (i : nat) (s : string) :
  (forall j s, Str.mem "/" s = false -> k j s = None) ->
  Str.mem "/" s = false ->
  Groups.run Groups.segment i s k = None.
Proof.
  intros Hk Hs. destruct s as [|c s]; [done|].
  change (Groups.run Groups.segment i (String c s) k)
    with (Groups.run (Re.none_of "/") i (String c s)
            (fun i' s' =>
               Groups.star_loop (Groups.run (Re.none_of "/")) k
                 (String.length s') i' s')).
  rewrite groups_run_none_of.
  apply not_slash in Hs as [Hc Hs]. rewrite Hc.
  by apply segment_star_fails.
Qed.

(** The loop of a group on a text without slash: it runs over a first
    part [w] when the loop from the end of [w] gives a value. *)
Lemma segment_star_prefix (rest : string) (x : R) k :
  forall w fuel i,
    Str.mem "/" w = false ->
    Groups.star_loop (Groups.run (Re.none_of "/")) k fuel
      (i + String.length w)%nat rest = Some x ->
    Groups.star_loop (Groups.run (Re.none_of "/")) k
      (String.length w + fuel) i (w +:+ rest) = Some x.
Proof.
  induction w as [|c w IH]; intros fuel i Hw H.
  - rewrite append_nil. cbn [String.length] in *.
    by rewrite Nat.add_0_r in H.
  - rewrite append_cons. cbn [String.length Nat.add].
    rewrite groups_star_loop_step, groups_run_none_of.
    apply not_slash in Hw as [Hc Hw]. rewrite Hc.
    rewrite (proj2 (Nat.ltb_lt i (S i))) by lia.
    rewrite (IH fuel (S i)); [done|done|].
    cbn [String.length] in H. by replace (S i + String.length w)%nat
      with (i + S (String.length w))%nat by lia.
Qed.

(** The loop gives back what it took, down to its start, when the
    continuation refuses every shorter rest. *)
Lemma segment_star_backtrack k :
  forall r fuel i,
    Str.mem "/" r = false ->
    (String.length r <= fuel)%nat ->
    (forall n j, (0 < n)%nat -> k j (skip n r) = None) ->
    Groups.star_loop (Groups.run (Re.none_of "/")) k fuel i r = k i r.
Proof.
  induction r as [|c r IH]; intros fuel i Hr Hfuel Hk.
  - destruct fuel as [|fuel]; [done|]. by rewrite groups_star_loop_step.
  - cbn [String.length] in Hfuel. destruct fuel as [|fuel]; [lia|].
    rewrite groups_star_loop_step, groups_run_none_of.
    apply not_slash in Hr as [Hc Hr]. rewrite Hc.
    rewrite (proj2 (Nat.ltb_lt i (S i))) by lia.
    rewrite IH; [|done|lia|].
    + pose proof (Hk 1%nat (S i) ltac:(lia)) as H1.
      cbn [skip] in H1. by rewrite H1.
    + intros n j Hn. apply (Hk (S n) j). lia.
Qed.

Lemma segment_before_suffix (w suffix : string) (x : R) k (i : nat) :
  w <> EmptyString ->
  Str.mem "/" w = false ->
  Str.mem "/" suffix = false ->
  (forall n j, (0 < n)%nat -> k j (skip n suffix) = None) ->
  k (i + String.length w)%nat suffix = Some x ->
  Groups.run Groups.segment i (w +:+ suffix) k = Some x.
Proof.
  intros Hne Hw Hsuf Hk Hx. destruct w as [|c w]; [done|].
  rewrite append_cons.
  change (Groups.run Groups.segment i (String c (w +:+ suffix)) k)
    with (Groups.run (Re.none_of "/") i (String c (w +:+ suffix))
            (fun i' s' =>
               Groups.star_loop (Groups.run (Re.none_of "/")) k
                 (String.length s') i' s')).
  rewrite groups_run_none_of.
  apply not_slash in Hw as [Hc Hw]. rewrite Hc, append_length.
  apply segment_star_prefix; [done|].
  rewrite segment_star_backtrack; [|done|done|done].
  cbn [String.length] in Hx. by replace (S i + String.length w)%nat
    with (i + S (String.length w))%nat by lia.
Qed.

End GroupsFailure.

(** The first two patterns need two slashes after [github.com]. *)
Lemma slash_patterns_need_two_slashes (after : Re.regex) :
  forall s i,
    (occurrences "/" s <= 1)%nat ->
    Groups.search_from (Re.lit "github.com/") Groups.segment (Re.Chr "/")
      Groups.segment after i s = None.
Proof.
  assert (Hone : forall s i, (occurrences "/" s <= 1)%nat ->
    Groups.match_two_groups (Re.lit "github.com/") Groups.segment
      (Re.Chr "/") Groups.segment after i s = None).
  { intros s i Hs. unfold Groups.match_two_groups. rewrite groups_run_lit.
    destruct (Str.startswith "github.com/" s) eqn:E; [|done].
    apply startswith_split in E. rewrite E, occurrences_app in Hs.
    change (occurrences "/" "github.com/") with 1%nat in Hs.
    apply segment_fails; [|apply occurrences_mem; lia].
    intros j [|a t] Ht; [done|]. cbn [Groups.run].
    apply not_slash in Ht as [Ha _]. cbn [Str.mem] in Ha.
    rewrite orb_false_r in Ha. apply negb_true_iff in Ha.
    by rewrite Ascii.eqb_sym, Ha. }
  induction s as [|a s IH]; intros i Hs.
  - cbn [Groups.search_from]. by rewrite Hone.
  - rewrite search_from_skip by by apply Hone.
    apply IH. cbn [occurrences] in Hs. lia.
Qed.

Lemma git_suffix_refused (j n : nat) (k : Groups.cont (string * string)) :
  (0 < n)%nat ->
  Groups.run (Re.Seq (Re.lit ".git") Re.Eol) j (skip n ".git") k = None.
Proof.
  intros Hn. cbn [Groups.run]. rewrite groups_run_lit.
  do 5 (destruct n as [|n]; [done || lia|]). done.
Qed.

(** X25: an ssh address [git@github.com:owner/repo.git], with [owner]
    and [repo] non-empty and without slash, is parsed by the third
    pattern, after the first two have failed, into [owner] and [repo]:
    here the [.git] ending is taken off, also when [repo] itself ends in
    [.git]. *)
Theorem parse_repo_url_ssh (owner repo : string) :
  owner <> EmptyString -> repo <> EmptyString ->
  Str.mem "/" owner = false -> Str.mem "/" repo = false ->
  Groups.parse_repo_url
    ("git@github.com:" +:+ owner +:+ "/" +:+ repo +:+ ".git")
  = Some (owner, repo).
Proof.
  intros Ho Hr Hso Hsr.
  assert (Hcount : (occurrences "/"
    ("git@github.com:" +:+ owner +:+ "/" +:+ repo +:+ ".git") <= 1)%nat).
  { rewrite !occurrences_app.
    apply occurrences_mem in Hso, Hsr. rewrite Hso, Hsr. by vm_compute. }
  unfold Groups.parse_repo_url, Groups.url_patterns.
  cbn [Groups.first_match]. unfold Groups.search.
  rewrite !slash_patterns_need_two_slashes by done.
  rewrite !append_cons, !append_nil.
  do 4 (rewrite search_from_skip by (by apply match_literal_miss)).
  rewrite (search_from_hit _ _ _ _ _ _ _ (owner, repo)); [done|].
  unfold Groups.match_two_groups. rewrite groups_run_lit.
  cbn [Str.startswith Ascii.eqb Bool.eqb String.length skip].
  cbn [Nat.add].
  apply segment_greedy; [done|done|right; by eexists|].
  cbn beta. cbn [Groups.run]. rewrite Ascii.eqb_refl.
  apply (segment_before_suffix repo ".git"); [done|done|done| |].
  { intros n j Hn. by apply git_suffix_refused. }
  rewrite groups_run_lit.
  replace (15 + String.length owner - 15)%nat
    with (String.length owner) by lia.
  replace (S (15 + String.length owner) + String.length repo
           - S (15 + String.length owner))%nat
    with (String.length repo) by lia.
  rewrite !take_app_exact.
  reflexivity.
Qed.

Lemma parse_repo_url_ssh_witness :
  Groups.parse_repo_url ("git@github.com:" +:+ "octocat" +:+ "/" +:+ "hello.git" +:+ ".git")
  = Some ("octocat", "hello.git").
Proof. by apply (parse_repo_url_ssh "octocat" "hello.git"). Defined.

Section GroupsValues.
Context {R : Type}.
Implicit Types (k : Groups.cont R).

Lemma groups_star_loop_value step :
  gives_value_of_continuation step ->
  forall fuel k i s x,
    Groups.star_loop step k fuel i s = Some x ->
    exists i' s', k i' s' = Some x.
Proof.
  intros Hstep. induction fuel as [|fuel IH]; intros k i s x H.
  - by eexists _, _.
  - rewrite groups_star_loop_step in H.
    destruct (step i s _) as [y|] eqn:E; [|by eexists _, _].
    injection H as ->. apply Hstep in E as (i' & s' & E).
    destruct (i <? i')%nat; [|done]. by apply IH in E.
Qed.

Lemma groups_times_loop_value step :
  gives_value_of_continuation step ->
  forall n k i s x,
    Groups.times_loop step k n i s = Some x ->
    exists i' s', k i' s' = Some x.
Proof.
  intros Hstep. induction n as [|n IH]; intros k i s x H.
  - by eexists _, _.
  - cbn [Groups.times_loop] in H.
    apply Hstep in H as (i' & s' & H). by apply IH in H.
Qed.

Lemma groups_run_value (r : Re.regex) :
  gives_value_of_continuation (R := R) (Groups.run r).
Proof.
  induction r as [|c|p| | |r1 IH1 r2 IH2|r1 IH1 r2 IH2|r IH|n r IH|r IH];
    intros i s k x H; cbn [Groups.run] in H.
  - by eexists _, _.
  - destruct s as [|a s]; [done|]. destruct (Ascii.eqb a c); [|done].
    by eexists _, _.
  - destruct s as [|a s]; [done|]. destruct (p a); [|done].
    by eexists _, _.
  - destruct (i =? 0)%nat; [|done]. by eexists _, _.
  - destruct (Re.at_end s); [|done]. by eexists _, _.
  - apply IH1 in H as (i' & s' & H). by apply IH2 in H.
  - destruct (Groups.run r1 i s k) as [y|] eqn:E.
    + injection H as ->. by apply IH1 in E.
    + by apply IH2 in H.
  - by apply (groups_star_loop_value _ IH) in H.
  - apply (groups_times_loop_value _ IH) in H as (i' & s' & H).
    by apply (groups_star_loop_value _ IH) in H.
  - destruct (Groups.run r i s _); [done|]. by eexists _, _.
Qed.

(** What the loop of a group took holds no slash. *)
Lemma segment_star_took k (x : R) :
  forall fuel i s,
    Groups.star_loop (Groups.run (Re.none_of "/")) k fuel i s = Some x ->
    exists w rest,
      Str.mem "/" w = false /\ s = w +:+ rest /\
      k (i + String.length w)%nat rest = Some x.
Proof.
  induction fuel as [|fuel IH]; intros i s H.
  - exists EmptyString, s. rewrite append_nil. cbn [String.length].
    by rewrite Nat.add_0_r.
  - rewrite groups_star_loop_step in H.
    destruct (Groups.run _ i s _) as [y|] eqn:E.
    + injection H as ->. destruct s as [|c s]; [done|].
      rewrite groups_run_none_of in E.
      destruct (negb (Str.mem c "/")) eqn:Hc; [|done].
      destruct (i <? S i)%nat; [|done].
      apply IH in E as (w & rest & Hw & -> & E).
      exists (String c w), rest. rewrite append_cons. split_and!; [|done|].
      * cbn [Str.mem]. apply orb_false_iff. split; [|done].
        cbn [Str.mem] in Hc. rewrite orb_false_r in Hc.
        apply negb_true_iff in Hc. by rewrite Ascii.eqb_sym.
      * cbn [String.length]. by replace (i + S (String.length w))%nat
          with (S i + String.length w)%nat by lia.
    + exists EmptyString, s. rewrite append_nil. cbn [String.length].
      by rewrite Nat.add_0_r.
Qed.

Lemma segment_took k (x : R) (i : nat) (s : string) :
  Groups.run Groups.segment i s k = Some x ->
  exists w rest,
    w <> EmptyString /\ Str.mem "/" w = false /\ s = w +:+ rest /\
    k (i + String.length w)%nat rest = Some x.
Proof.
  intros H. destruct s as [|c s]; [done|].
  change (Groups.run Groups.segment i (String c s) k)
    with (Groups.run (Re.none_of "/") i (String c s)
            (fun i' s' =>
               Groups.star_loop (Groups.run (Re.none_of "/")) k
                 (String.length s') i' s')) in H.
  rewrite groups_run_none_of in H.
  destruct (negb (Str.mem c "/")) eqn:Hc; [|done].
  apply segment_star_took in H as (w & rest & Hw & -> & H).
  exists (String c w), rest. rewrite append_cons. split_and!; [done| |done|].
  - cbn [Str.mem]. apply orb_false_iff. split; [|done].
    cbn [Str.mem] in Hc. rewrite orb_false_r in Hc.
    apply negb_true_iff in Hc. by rewrite Ascii.eqb_sym.
  - cbn [String.length]. by replace (i + S (String.length w))%nat
      with (S i + String.length w)%nat by lia.
Qed.

End GroupsValues.

(** The groups of a match of one of the three patterns. *)
Lemma match_two_groups_took (p : string) (after : Re.regex)
    (i : nat) (s owner repo : string) :
  Groups.match_two_groups (Re.lit p) Groups.segment (Re.Chr "/")
    Groups.segment after i s = Some (owner, repo) ->
  (owner <> EmptyString /\ Str.mem "/" owner = false) /\
  (repo <> EmptyString /\ Str.mem "/" repo = false) /\
  exists rest, s = p +:+ owner +:+ "/" +:+ repo +:+ rest.
Proof.
  unfold Groups.match_two_groups. rewrite groups_run_lit.
  destruct (Str.startswith p s) eqn:Hp; [|done].
  apply startswith_split in Hp. intros H.
  apply segment_took in H as (w1 & s2 & Hne1 & Hw1 & Hs1 & H).
  cbn [Groups.run] in H. destruct s2 as [|c s3]; [done|].
  destruct (Ascii.eqb_spec c "/") as [->|]; [|done].
  apply segment_took in H as (w2 & s4 & Hne2 & Hw2 & -> & H).
  apply groups_run_value in H as (_ & _ & H).
  rewrite Hs1 in H.
  replace (i + String.length p + String.length w1
           - (i + String.length p))%nat
    with (String.length w1) in H by lia.
  replace (S (i + String.length p + String.length w1) + String.length w2
           - S (i + String.length p + String.length w1))%nat
    with (String.length w2) in H by lia.
  rewrite !take_app_exact in H. injection H as <- <-.
  split_and!; [done|done|done|done|].
  exists s4. rewrite Hp at 1. by rewrite Hs1.
Qed.

Lemma search_from_took (p : string) (after : Re.regex)
    (owner repo : string) :
  forall s i,
    Groups.search_from (Re.lit p) Groups.segment (Re.Chr "/")
      Groups.segment after i s = Some (owner, repo) ->
    (owner <> EmptyString /\ Str.mem "/" owner = false) /\
    (repo <> EmptyString /\ Str.mem "/" repo = false) /\
    exists before rest,
      s = before +:+ owner +:+ "/" +:+ repo +:+ rest.
Proof.
  induction s as [|a s IH]; intros i H; cbn [Groups.search_from] in H.
  - destruct (Groups.match_two_groups _ _ _ _ _ i _) as [g|] eqn:E;
      [|done].
    rewrite H in E. apply match_two_groups_took in E as (? & ? & rest & E).
    split_and!; [tauto|tauto|tauto|tauto|]. by exists p, rest.
  - destruct (Groups.match_two_groups _ _ _ _ _ i _) as [g|] eqn:E.
    + rewrite H in E.
      apply match_two_groups_took in E as (? & ? & rest & E).
      split_and!; [tauto|tauto|tauto|tauto|]. by exists p, rest.
    + apply IH in H as (? & ? & before & rest & ->).
      split_and!; [tauto|tauto|tauto|tauto|].
      exists (String a before), rest. by rewrite append_cons.
Qed.

(** X26: when [parse_repo_url] returns an owner and a repository name,
    both are non-empty and hold no slash, and the address holds them next
    to each other with one slash between them. *)
Theorem parse_repo_url_groups (url owner repo : string) :
  Groups.parse_repo_url url = Some (owner, repo) ->
  (owner <> EmptyString /\ Str.mem "/" owner = false) /\
  (repo <> EmptyString /\ Str.mem "/" repo = false) /\
  exists before rest,
    url = before +:+ owner +:+ "/" +:+ repo +:+ rest.
Proof.
  unfold Groups.parse_repo_url, Groups.url_patterns.
  cbn [Groups.first_match]. unfold Groups.search. intros H.
  repeat match type of H with
  | context [Groups.search_from ?b ?g1 ?m ?g2 ?a 0 url] =>
      let E := fresh "E" in
      destruct (Groups.search_from b g1 m g2 a 0 url) as [[o r]|] eqn:E;
      [injection H as -> ->; by apply search_from_took in E|]
  end.
  done.
Qed.

Lemma parse_repo_url_groups_witness :
  Groups.parse_repo_url "https://github.com/octocat/hello/" = Some ("octocat", "hello")
  /\ ("octocat" <> EmptyString /\ Str.mem "/" "octocat" = false) /\
     ("hello" <> EmptyString /\ Str.mem "/" "hello" = false) /\
     exists before rest,
       "https://github.com/octocat/hello/"
       = before +:+ "octocat" +:+ "/" +:+ "hello" +:+ rest.
Proof.
  split; [reflexivity|].
  apply (parse_repo_url_groups "https://github.com/octocat/hello/").
  reflexivity.
Defined.

Lemma startswith_longer (p q s : string) :
  Str.startswith (p +:+ q) s = true -> Str.startswith p s = true.
Proof.
  revert s. induction p as [|a p IH]; intros s H; [done|].
  rewrite append_cons in H. destruct s as [|b s]; [done|].
  cbn [Str.startswith] in *. destruct (Ascii.eqb a b); [by apply IH|done].
Qed.

Lemma search_from_needs_literal (p q : string) (after : Re.regex) :
  forall s i,
    Str.contains p s = false ->
    Groups.search_from (Re.lit (p +:+ q)) Groups.segment (Re.Chr "/")
      Groups.segment after i s = None.
Proof.
  assert (Hone : forall s i, Str.startswith p s = false ->
    Groups.match_two_groups (Re.lit (p +:+ q)) Groups.segment (Re.Chr "/")
      Groups.segment after i s = None).
  { intros s i Hs. apply match_literal_miss.
    destruct (Str.startswith (p +:+ q) s) eqn:E; [|done].
    apply startswith_longer in E. congruence. }
  induction s as [|a s IH]; intros i Hs.
  - cbn [Groups.search_from]. rewrite Hone; [done|].
    cbn [Str.contains] in Hs. by destruct (Str.startswith p "").
  - cbn [Str.contains] in Hs.
    destruct (Str.startswith p (String a s)) eqn:E; [done|].
    rewrite search_from_skip by by apply Hone. by apply IH.
Qed.

(** X27: an address in which the text [github.com] does not occur is not
    parsed: [parse_repo_url] returns the pair of [None]s. *)
Theorem parse_repo_url_other_host (url : string) :
  Str.contains "github.com" url = false ->
  Groups.parse_repo_url url = None.
Proof.
  intros H. unfold Groups.parse_repo_url, Groups.url_patterns.
  cbn [Groups.first_match]. unfold Groups.search.
  change "github.com/" with ("github.com" +:+ "/").
  change "github.com:" with ("github.com" +:+ ":").
  by rewrite !search_from_needs_literal.
Qed.

Lemma parse_repo_url_other_host_witness :
  Groups.parse_repo_url "https://gitlab.com/octocat/hello" = None.
Proof.
  apply (parse_repo_url_other_host "https://gitlab.com/octocat/hello").
  reflexivity.
Defined.
